(** * TheCROWler: crawl orchestration core, embedded and verified

    A shallow embedding of the source-selection, rule-guard, retry, link
    extraction, domain-scope and page-indexing code of the crawler, followed
    by the properties established about it.

    Conventions
    - a Go [string] is a byte sequence: Stdlib [string] (one [ascii] per byte);
    - a Go [int] is a [Z]; the loops embedded here are bounded by a list or by
      a counter, and none of the arithmetic can overflow an [int];
    - an [error] is its message ([string]); [nil] is [None];
    - [interface{}] values are the small sum [value];
    - a [map[string]interface{}] is a [gmap string value];
    - the remote browser ([selenium.WebDriver]), the database handle
      ([cdb.Handler]), the HTML parser behind goquery and [net/url] are Go
      interfaces or libraries outside the repository: they are type classes
      here, and every definition is parametric in them;
    - SQL statements act on tables held as lists of records; [NULL] is [None]
      and conditions are evaluated in SQL's three-valued logic. *)

From Stdlib Require Import ZArith List String Ascii Bool Lia.
From stdpp Require Import base gmap strings.
Import ListNotations.

Local Open Scope string_scope.
Local Open Scope list_scope.
Local Open Scope Z_scope.

(* ===================================================================== *)
(** * Part I: the embedding                                               *)
(* ===================================================================== *)

(** ** Package [strings] of the Go standard library (the functions used) *)
Module GoStr.

(** White space as [strings.TrimSpace] sees it on ASCII input: tab, line
    feed, vertical tab, form feed, carriage return and space.  (Go also trims
    the multi-byte Unicode spaces; bytes above 127 are never trimmed here.) *)
Definition isSpace (c : ascii) : bool :=
  let n := nat_of_ascii c in
  ((9 <=? n)%nat && (n <=? 13)%nat) || (n =? 32)%nat.

Fixpoint TrimLeft (s : string) : string :=
  match s with
  | String c t => if isSpace c then TrimLeft t else s
  | EmptyString => EmptyString
  end.

Fixpoint TrimRight (s : string) : string :=
  match s with
  | String c t =>
      match TrimRight t with
      | EmptyString => if isSpace c then EmptyString else String c EmptyString
      | t' => String c t'
      end
  | EmptyString => EmptyString
  end.

Definition TrimSpace (s : string) : string := TrimRight (TrimLeft s).

(** [strings.HasPrefix s p]. *)
Definition HasPrefix (s p : string) : bool := String.prefix p s.

(** [strings.HasSuffix s p] is not needed; [strings.Contains s sub]. *)
Fixpoint Contains (s sub : string) : bool :=
  String.prefix sub s ||
  match s with
  | String _ t => Contains t sub
  | EmptyString => false
  end.

(** ASCII lower-casing, as [strings.ToLower] does on ASCII input. *)
Definition lowerChar (c : ascii) : ascii :=
  let n := nat_of_ascii c in
  if ((65 <=? n)%nat && (n <=? 90)%nat) then ascii_of_nat (n + 32) else c.

Fixpoint ToLower (s : string) : string :=
  match s with
  | String c t => String (lowerChar c) (ToLower t)
  | EmptyString => EmptyString
  end.

(** [strings.Split s sep] for a one-byte separator: never empty, [Split ""]
    is the one-element list holding the empty string. *)
Fixpoint Split (sep : ascii) (s : string) : list string :=
  match s with
  | EmptyString => [EmptyString]
  | String c t =>
      if Ascii.eqb c sep then EmptyString :: Split sep t
      else match Split sep t with
           | h :: r => String c h :: r
           | [] => [String c EmptyString]
           end
  end.

(** [strings.Join parts sep] for a one-byte separator. *)
Fixpoint Join (sep : ascii) (parts : list string) : string :=
  match parts with
  | [] => EmptyString
  | [p] => p
  | p :: rest => (p ++ String sep (Join sep rest))%string
  end.

End GoStr.

(** ** UTF-8 as Go converts between [string] and [[]rune]

    [runes s] is the conversion [[]rune(s)]: it decodes [s] one rune at a
    time as [utf8.DecodeRuneInString] does, an invalid or truncated sequence
    yielding U+FFFD and consuming ONE byte.  [encode rs] is [string(rs)]: each
    rune is encoded as [utf8.AppendRune] does, a surrogate or out-of-range
    rune being written as U+FFFD.  The masks and shifts of the Go code are
    written with [mod], [/] and [*] by the same powers of two. *)
Module Utf8.

Definition rune := Z.

Definition RuneError : rune := 65533.

Definition byte_of (c : ascii) : Z := Z.of_N (N_of_ascii c).
Definition ascii_of (b : Z) : ascii := ascii_of_N (Z.to_N b).

(** The table [first] and [acceptRanges] of unicode/utf8: for a leading byte,
    the sequence length and the range the SECOND byte must lie in. *)
Definition first (b0 : Z) : option (Z * Z * Z) :=
  if b0 <? 194 then None                         (* 0x80..0xC1 *)
  else if b0 <=? 223 then Some (2, 128, 191)     (* 0xC2..0xDF *)
  else if b0 =? 224 then Some (3, 160, 191)      (* 0xE0 *)
  else if b0 <=? 236 then Some (3, 128, 191)     (* 0xE1..0xEC *)
  else if b0 =? 237 then Some (3, 128, 159)      (* 0xED *)
  else if b0 <=? 239 then Some (3, 128, 191)     (* 0xEE..0xEF *)
  else if b0 =? 240 then Some (4, 144, 191)      (* 0xF0 *)
  else if b0 <=? 243 then Some (4, 128, 191)     (* 0xF1..0xF3 *)
  else if b0 =? 244 then Some (4, 128, 143)      (* 0xF4 *)
  else None.                                     (* 0xF5..0xFF *)

Definition continuation (b : Z) : bool := (128 <=? b) && (b <=? 191).

Fixpoint runes (s : string) : list rune :=
  match s with
  | EmptyString => []
  | String c0 t0 =>
      let b0 := byte_of c0 in
      if b0 <? 128 then b0 :: runes t0
      else
        match first b0 with
        | None => RuneError :: runes t0
        | Some (n, lo, hi) =>
            match t0 with
            | EmptyString => RuneError :: runes t0
            | String c1 t1 =>
                let b1 := byte_of c1 in
                if negb ((lo <=? b1) && (b1 <=? hi)) then RuneError :: runes t0
                else if n =? 2 then ((b0 mod 32) * 64 + b1 mod 64) :: runes t1
                else
                  match t1 with
                  | EmptyString => RuneError :: runes t0
                  | String c2 t2 =>
                      let b2 := byte_of c2 in
                      if negb (continuation b2) then RuneError :: runes t0
                      else if n =? 3 then
                        ((b0 mod 16) * 4096 + (b1 mod 64) * 64 + b2 mod 64) :: runes t2
                      else
                        match t2 with
                        | EmptyString => RuneError :: runes t0
                        | String c3 t3 =>
                            let b3 := byte_of c3 in
                            if negb (continuation b3) then RuneError :: runes t0
                            else ((b0 mod 8) * 262144 + (b1 mod 64) * 4096
                                  + (b2 mod 64) * 64 + b3 mod 64) :: runes t3
                        end
                  end
            end
        end
  end.

Definition bytes (bs : list Z) (rest : string) : string :=
  fold_right (fun b acc => String (ascii_of b) acc) rest bs.

(** [utf8.AppendRune]: the bytes of one rune, before [rest]. *)
Definition encodeRune (r : rune) (rest : string) : string :=
  if (0 <=? r) && (r <=? 127) then bytes [r] rest
  else if (0 <=? r) && (r <=? 2047) then bytes [192 + r / 64; 128 + r mod 64] rest
  else if (r <? 0) || (1114111 <? r) || ((55296 <=? r) && (r <=? 57343)) then
    bytes [239; 191; 189] rest
  else if r <=? 65535 then
    bytes [224 + r / 4096; 128 + (r / 64) mod 64; 128 + r mod 64] rest
  else
    bytes [240 + r / 262144; 128 + (r / 4096) mod 64;
           128 + (r / 64) mod 64; 128 + r mod 64] rest.

Definition encode (rs : list rune) : string :=
  fold_right encodeRune EmptyString rs.

(** A Unicode scalar value: what [utf8.ValidRune] accepts. *)
Definition ValidRune (r : rune) : Prop :=
  0 <= r <= 1114111 /\ ~ (55296 <= r <= 57343).

End Utf8.

(** ** The database: schema, three-valued conditions, and the stored
    procedure of [postgresql-setup-v1.2.pgsql]

    Timestamps are seconds ([Z]); [NOW()] is the clock reading passed in.
    Columns the embedded code neither reads nor writes (the SERIAL keys of the
    link tables, [created_at]) are left out of the rows. *)
Module Sql.

(** SQL truth values: TRUE, FALSE and NULL (unknown). *)
Inductive tri := TTrue | TFalse | TNull.

Definition tand (a b : tri) : tri :=
  match a, b with
  | TFalse, _ | _, TFalse => TFalse
  | TTrue, TTrue => TTrue
  | _, _ => TNull
  end.

Definition tor (a b : tri) : tri :=
  match a, b with
  | TTrue, _ | _, TTrue => TTrue
  | TFalse, TFalse => TFalse
  | _, _ => TNull
  end.

(** A WHERE clause keeps a row only when its condition is TRUE. *)
Definition holds (t : tri) : bool :=
  match t with TTrue => true | _ => false end.

Definition is_null {A} (a : option A) : tri :=
  match a with None => TTrue | Some _ => TFalse end.

Definition eq_text (a : option string) (lit : string) : tri :=
  match a with
  | None => TNull
  | Some s => if String.eqb s lit then TTrue else TFalse
  end.

Definition eq_bool (a : option bool) (lit : bool) : tri :=
  match a with
  | None => TNull
  | Some b => if Bool.eqb b lit then TTrue else TFalse
  end.

Definition lt_time (a : option Z) (t : Z) : tri :=
  match a with
  | None => TNull
  | Some x => if x <? t then TTrue else TFalse
  end.

(** INTERVAL '3 days', '15 minutes' and '1 week', in seconds. *)
Definition three_days : Z := 259200.
Definition fifteen_minutes : Z := 900.
Definition one_week : Z := 604800.

(** Table Sources. *)
Record Source := mkSource {
  source_id : Z;
  last_updated_at : option Z;
  url : string;
  status : option string;
  last_crawled_at : option Z;
  last_error : option string;
  last_error_at : option Z;
  restricted : option Z;
  disabled : option bool;
  flags : option Z;
  config : option string
}.

(** Table SearchIndex. *)
Record SearchIndexRow := mkSearchIndexRow {
  index_id : Z;
  page_url : string;
  title : string;
  summary : string;
  content : string;
  detected_lang : string;
  detected_type : string;
  snapshot_url : option string;
  si_last_updated_at : Z
}.

Record Tables := mkTables {
  Sources : list Source;
  SearchIndex : list SearchIndexRow;
  SourceSearchIndex : list (Z * Z);          (* source_id, index_id *)
  MetaTags : list (Z * string * string);     (* index_id, name, content *)
  Keywords : list (Z * string);              (* keyword_id, keyword *)
  KeywordIndex : list (Z * Z)                (* keyword_id, index_id *)
}.

(** Trigger [trg_update_sources_last_updated_before_update]: BEFORE UPDATE
    ON Sources FOR EACH ROW, [NEW.last_updated_at = CURRENT_TIMESTAMP]. *)
Definition update_last_updated_at_column (now : Z) (new : Source) : Source :=
  mkSource (source_id new) (Some now) (url new) (status new)
    (last_crawled_at new) (last_error new) (last_error_at new)
    (restricted new) (disabled new) (flags new) (config new).

(** The WHERE clause of [SelectedSources] in [update_sources]. *)
Definition selectable (now : Z) (s : Source) : tri :=
  tand (eq_bool (disabled s) false)
    (tor (tor (tor (tor (tor
      (tor (is_null (last_updated_at s))
           (lt_time (last_updated_at s) (now - three_days)))
      (tand (eq_text (status s) "error")
            (lt_time (last_updated_at s) (now - fifteen_minutes))))
      (tand (eq_text (status s) "completed")
            (lt_time (last_updated_at s) (now - one_week))))
      (eq_text (status s) "pending"))
      (eq_text (status s) "new"))
      (is_null (status s))).

(** [SELECT s.source_id ... FOR UPDATE LIMIT limit_val]: the first
    [limit_val] rows, in scan order, whose condition is TRUE. *)
Definition SelectedSources (now limit_val : Z) (tbl : list Source) : list Z :=
  map source_id
    (firstn (Z.to_nat limit_val) (List.filter (fun s => holds (selectable now s)) tbl)).

Definition id_in (i : Z) (ids : list Z) : bool := existsb (Z.eqb i) ids.

Definition set_processing (s : Source) : Source :=
  mkSource (source_id s) (last_updated_at s) (url s) (Some "processing")
    (last_crawled_at s) (last_error s) (last_error_at s)
    (restricted s) (disabled s) (flags s) (config s).

(** One row of [RETURNS TABLE(source_id, url, restricted, flags, config,
    last_updated_at)]. *)
Record Claimed := mkClaimed {
  c_source_id : Z;
  c_url : string;
  c_restricted : option Z;
  c_flags : option Z;
  c_config : option string;
  c_last_updated_at : option Z
}.

Definition returning (s : Source) : Claimed :=
  mkClaimed (source_id s) (url s) (restricted s) (flags s) (config s)
    (last_updated_at s).

(** [update_sources(limit_val)]: one statement, run under the row locks
    taken by FOR UPDATE; [None] is the error PostgreSQL raises for a negative
    LIMIT (the table is then unchanged).  The result is the RETURNING rows and
    the table after the UPDATE, on which the trigger has fired. *)
Definition update_sources (now limit_val : Z) (tbl : list Source)
  : option (list Claimed * list Source) :=
  if limit_val <? 0 then None
  else
    let sel := SelectedSources now limit_val tbl in
    let upd := fun s =>
      if id_in (source_id s) sel
      then update_last_updated_at_column now (set_processing s) else s in
    Some (map returning
            (map upd (List.filter (fun s => id_in (source_id s) sel) tbl)),
          map upd tbl).

(** *** The database handle ([cdb.Handler]) and its failures

    The handle's calls can fail for reasons outside the program (connection
    loss, deadlock, constraint violation).  A handle therefore carries the
    outcome scripted for each of its next calls: [None] for success, [Some
    msg] for the error [msg]; a call made after the script has run out
    succeeds.  Sequences are not transactional: they live in the handle.
    The handle also records what was asked of it, in order: the outcome of
    each call, and each [time.Sleep] between two attempts. *)
Inductive db_event :=
| Called (outcome : option string)
| Paused (ms : Z).

Record Handler := mkHandler {
  tables : Tables;
  index_id_seq : Z;
  keyword_id_seq : Z;
  script : list (option string);
  clock : Z;                   (* NOW() *)
  trace : list db_event
}.

Definition with_tables (h : Handler) (t : Tables) : Handler :=
  mkHandler t (index_id_seq h) (keyword_id_seq h) (script h) (clock h) (trace h).

(** The outcome of the handle's next call, and the handle after it. *)
Definition call (h : Handler) : option string * Handler :=
  match script h with
  | [] =>
      (None, mkHandler (tables h) (index_id_seq h) (keyword_id_seq h) []
               (clock h) (trace h ++ [Called None]))
  | o :: rest =>
      (o, mkHandler (tables h) (index_id_seq h) (keyword_id_seq h) rest
            (clock h) (trace h ++ [Called o]))
  end.

(** [time.Sleep(ms * time.Millisecond)]. *)
Definition sleep (ms : Z) (h : Handler) : Handler :=
  mkHandler (tables h) (index_id_seq h) (keyword_id_seq h) (script h)
    (clock h) (trace h ++ [Paused ms]).

End Sql.

(** ** The dispatcher ([main] package): [checkSources] *)
Module Dispatcher.
Import Sql.

(** The WHERE clause of the query in [checkSources]. *)
Definition due (now : Z) (s : Source) : tri :=
  tor (tor (tor
    (tor (is_null (last_crawled_at s))
         (lt_time (last_crawled_at s) (now - three_days)))
    (tand (eq_text (status s) "error")
          (lt_time (last_crawled_at s) (now - fifteen_minutes))))
    (tand (eq_text (status s) "completed")
          (lt_time (last_crawled_at s) (now - one_week))))
    (eq_text (status s) "pending").

(** ORDER BY last_crawled_at ASC (NULLs last). *)
Definition crawled_before (a b : Source) : bool :=
  match last_crawled_at a, last_crawled_at b with
  | Some x, Some y => x <=? y
  | Some _, None => true
  | None, Some _ => false
  | None, None => true
  end.

Fixpoint insert_sorted (s : Source) (l : list Source) : list Source :=
  match l with
  | [] => [s]
  | h :: t => if crawled_before s h then s :: l else h :: insert_sorted s t
  end.

Definition order_by_last_crawled_at (l : list Source) : list Source :=
  fold_right insert_sorted [] l.

(** One round of the loop of [checkSources]: the rows of the SELECT, scanned
    into [sourcesToCrawl] as (URL, Restricted); a row whose [restricted] is
    NULL fails [rows.Scan] and is skipped.  The statement is a plain SELECT:
    it writes nothing, so the table after the round is the table before. *)
Definition sourcesToCrawl (now : Z) (tbl : list Source) : list (string * Z) :=
  flat_map (fun s => match restricted s with
                     | Some r => [(url s, r)]
                     | None => []
                     end)
    (order_by_last_crawled_at (List.filter (fun s => holds (due now s)) tbl)).

End Dispatcher.

(** ** Package [crawler]: the crawler proper *)
Module Crawler.
Import Sql.

(** A value or an error message: Go's [(T, error)] results. *)
Inductive res (A : Type) := Val (a : A) | Err (msg : string).
Arguments Val {A} a.
Arguments Err {A} msg.

(** *** Releasing a source: [updateSourceState] *)

Definition mark_error (now : Z) (msg : string) (s : Source) : Source :=
  mkSource (source_id s) (last_updated_at s) (url s) (Some "error")
    (Some now) (Some msg) (Some now)
    (restricted s) (disabled s) (flags s) (config s).

Definition mark_completed (now : Z) (s : Source) : Source :=
  mkSource (source_id s) (last_updated_at s) (url s) (Some "completed")
    (Some now) (last_error s) (last_error_at s)
    (restricted s) (disabled s) (flags s) (config s).

(** [UPDATE Sources SET ... WHERE url = $n], with the BEFORE UPDATE trigger
    fired on each row it changes. *)
Definition update_sources_where_url (now : Z) (u : string)
    (set : Source -> Source) (t : Tables) : Tables :=
  mkTables
    (map (fun s => if String.eqb (url s) u
                   then update_last_updated_at_column now (set s) else s)
         (Sources t))
    (SearchIndex t) (SourceSearchIndex t) (MetaTags t) (Keywords t)
    (KeywordIndex t).

Definition updateSourceState (db : Handler) (sourceURL : string)
    (crawlError : option string) : Handler :=
  let '(err, db) := call db in                 (* db.CheckConnection(config) *)
  match err with
  | Some _ => db
  | None =>
      let '(err, db) := call db in             (* db.Exec(UPDATE ...) *)
      match err with
      | Some _ => db                           (* logged *)
      | None =>
          match crawlError with
          | Some msg =>
              with_tables db (update_sources_where_url (clock db) sourceURL
                                (mark_error (clock db) msg) (tables db))
          | None =>
              with_tables db (update_sources_where_url (clock db) sourceURL
                                (mark_completed (clock db)) (tables db))
          end
      end
  end.

(** *** Indexing a page: [indexPage] and its helpers *)

Record PageInfo := mkPageInfo {
  Title : string;
  Summary : string;
  BodyText : string;
  PageMetaTags : gmap string string;
  DetectedLang : string;
  DetectedType : string;
  sourceID : Z
}.

(** [extractKeywords] is defined in a file of the package that is not part of
    the sources at hand; the indexing code only iterates over its result. *)
Class KeywordExtractor := extractKeywords : PageInfo -> list string.

(** [runes[:x]]: Go panics unless [0 <= x <= len(runes)]; [None] is the
    panic. *)
Definition slice_to {A} (l : list A) (x : Z) : option (list A) :=
  if (0 <=? x) && (x <=? Z.of_nat (length l)) then Some (firstn (Z.to_nat x) l)
  else None.

(** [strLeft]; [None] would be a run-time panic of the slice expression. *)
Definition strLeft (s : string) (x : Z) : option string :=
  let runes := Utf8.runes s in
  if (x <? 0) || (Z.of_nat (length runes) <? x) then Some s
  else option_map Utf8.encode (slice_to runes x).

(** The value [strLeft] hands to the statement ([s] itself, should the slice
    panic; [strLeft] is proved never to). *)
Definition strLeft_value (s : string) (x : Z) : string :=
  match strLeft s x with Some r => r | None => s end.

(** A transaction works on its own copy of the tables; [COMMIT] installs the
    tables it wrote.  Two tables are never written through a transaction by
    this code: Sources and Keywords stay as the handle has them. *)
Definition Tx := Tables.

Definition begin_tx (db : Handler) : Tx := tables db.

Definition install (tx : Tx) (db : Handler) : Handler :=
  with_tables db
    (mkTables (Sources (tables db)) (SearchIndex tx) (SourceSearchIndex tx)
       (MetaTags tx) (Keywords (tables db)) (KeywordIndex tx)).

Definition find_page (u : string) (rows : list SearchIndexRow) : option Z :=
  option_map index_id (List.find (fun r => String.eqb (page_url r) u) rows).

(** INSERT INTO SearchIndex ... ON CONFLICT (page_url) DO UPDATE ...
    RETURNING index_id. *)
Definition upsert_page (now newid : Z) (u : string) (p : PageInfo)
    (rows : list SearchIndexRow) : Z * list SearchIndexRow :=
  match find_page u rows with
  | Some id =>
      (id, map (fun r =>
                  if String.eqb (page_url r) u
                  then mkSearchIndexRow (index_id r) u (Title p) (Summary p)
                         (BodyText p) (strLeft_value (DetectedLang p) 8)
                         (strLeft_value (DetectedType p) 8) (snapshot_url r) now
                  else r) rows)
  | None =>
      (newid, rows ++ [mkSearchIndexRow newid u (Title p) (Summary p)
                         (BodyText p) (strLeft_value (DetectedLang p) 8)
                         (strLeft_value (DetectedType p) 8) None now])
  end.

Definition pair_in (a b : Z) (l : list (Z * Z)) : bool :=
  existsb (fun '(x, y) => (x =? a) && (y =? b)) l.

Definition bump_index_seq (db : Handler) : Handler :=
  mkHandler (tables db) (index_id_seq db + 1) (keyword_id_seq db)
    (script db) (clock db) (trace db).

Definition insertOrUpdateSearchIndex (db : Handler) (tx : Tx) (u : string)
    (pageInfo : PageInfo) : res Z * Handler * Tx :=
  let '(err, db) := call db in                         (* tx.QueryRow *)
  match err with
  | Some e => (Err e, db, tx)
  | None =>
      let db := bump_index_seq db in
      let '(indexID, rows) :=
        upsert_page (clock db) (index_id_seq db) u pageInfo (SearchIndex tx) in
      let tx := mkTables (Sources tx) rows (SourceSearchIndex tx) (MetaTags tx)
                  (Keywords tx) (KeywordIndex tx) in
      let '(err, db) := call db in                     (* tx.Exec *)
      match err with
      | Some e => (Err e, db, tx)
      | None =>
          let links :=
            if pair_in (sourceID pageInfo) indexID (SourceSearchIndex tx)
            then SourceSearchIndex tx
            else SourceSearchIndex tx ++ [(sourceID pageInfo, indexID)] in
          (Val indexID, db,
           mkTables (Sources tx) (SearchIndex tx) links (MetaTags tx)
             (Keywords tx) (KeywordIndex tx))
      end
  end.

Fixpoint insertMetaTagList (db : Handler) (tx : Tx) (indexID : Z)
    (tags : list (string * string)) : option string * Handler * Tx :=
  match tags with
  | [] => (None, db, tx)
  | (name, content) :: rest =>
      let '(err, db) := call db in                     (* tx.Exec *)
      match err with
      | Some e => (Some e, db, tx)
      | None =>
          insertMetaTagList db
            (mkTables (Sources tx) (SearchIndex tx) (SourceSearchIndex tx)
               (MetaTags tx ++ [(indexID, name, content)]) (Keywords tx)
               (KeywordIndex tx))
            indexID rest
      end
  end.

(** [for name, content := range metaTags]: the map is visited in some order,
    here the order of [map_to_list]. *)
Definition insertMetaTags (db : Handler) (tx : Tx) (indexID : Z)
    (metaTags : gmap string string) : option string * Handler * Tx :=
  insertMetaTagList db tx indexID (map_to_list metaTags).

Definition maxRetries : Z := 3.

Definition find_keyword (k : string) (rows : list (Z * string)) : option Z :=
  option_map fst (List.find (fun r => String.eqb (snd r) k) rows).

(** INSERT INTO Keywords ... ON CONFLICT (keyword) DO UPDATE ... RETURNING
    keyword_id, run on the handle itself: it is committed at once. *)
Definition upsert_keyword (db : Handler) (k : string) : Z * Handler :=
  let newid := keyword_id_seq db + 1 in
  let t := tables db in
  match find_keyword k (Keywords t) with
  | Some id =>
      (id, mkHandler t (index_id_seq db) newid (script db) (clock db) (trace db))
  | None =>
      (newid,
       mkHandler
         (mkTables (Sources t) (SearchIndex t) (SourceSearchIndex t)
            (MetaTags t) (Keywords t ++ [(newid, k)]) (KeywordIndex t))
         (index_id_seq db) newid (script db) (clock db) (trace db))
  end.

(** The loop [for i := 0; i < maxRetries; i++] of
    [insertKeywordWithRetries], entered at [i] with [left] iterations to go
    ([left = maxRetries - i]). *)
Fixpoint keywordAttempts (left : nat) (i : Z) (db : Handler) (keyword : string)
  : res Z * Handler :=
  match left with
  | O => (Err ("failed to insert keyword after retries: " ++ keyword)%string, db)
  | S left' =>
      let '(err, db) := call db in                     (* db.QueryRow *)
      match err with
      | Some e =>
          if GoStr.Contains e "deadlock detected" then
            if i =? maxRetries - 1 then (Err e, db)
            else keywordAttempts left' (i + 1) (sleep (i * 100) db) keyword
          else (Err e, db)
      | None =>
          let '(keywordID, db) := upsert_keyword db keyword in
          (Val keywordID, db)
      end
  end.

Definition insertKeywordWithRetries (db : Handler) (keyword : string)
  : res Z * Handler :=
  let '(err, db) := call db in                 (* db.CheckConnection(config) *)
  match err with
  | Some e => (Err e, db)
  | None => keywordAttempts (Z.to_nat maxRetries) 0 db keyword
  end.

Fixpoint insertKeywordList (db : Handler) (tx : Tx) (indexID : Z)
    (keywords : list string) : option string * Handler * Tx :=
  match keywords with
  | [] => (None, db, tx)
  | keyword :: rest =>
      let '(r, db) := insertKeywordWithRetries db keyword in
      match r with
      | Err e => (Some e, db, tx)
      | Val keywordID =>
          let '(err, db) := call db in                 (* tx.Exec *)
          match err with
          | Some e => (Some e, db, tx)
          | None =>
              insertKeywordList db
                (mkTables (Sources tx) (SearchIndex tx) (SourceSearchIndex tx)
                   (MetaTags tx) (Keywords tx)
                   (KeywordIndex tx ++ [(keywordID, indexID)]))
                indexID rest
          end
      end
  end.

Definition insertKeywords `{KeywordExtractor} (db : Handler) (tx : Tx)
    (indexID : Z) (pageInfo : PageInfo) : option string * Handler * Tx :=
  insertKeywordList db tx indexID (extractKeywords pageInfo).

(** [tx.Rollback()]: the transaction's copy is dropped whether or not the
    call reports an error (which is only logged). *)
Definition rollbackTransaction (db : Handler) : Handler := snd (call db).

(** How a call of [indexPage] ended. *)
Inductive IndexOutcome := NotStarted | RolledBack | Committed.

(** [indexPage]; it runs under [indexPageMutex], so no other call of the
    process is in progress meanwhile. *)
Definition indexPage `{KeywordExtractor} (db : Handler) (u : string)
    (pageInfo : PageInfo) : IndexOutcome * Handler :=
  let '(err, db) := call db in                 (* db.CheckConnection(config) *)
  match err with
  | Some _ => (NotStarted, db)
  | None =>
      let '(err, db) := call db in             (* db.Begin() *)
      match err with
      | Some _ => (NotStarted, db)
      | None =>
          let tx := begin_tx db in
          let '(r, db, tx) := insertOrUpdateSearchIndex db tx u pageInfo in
          match r with
          | Err _ => (RolledBack, rollbackTransaction db)
          | Val indexID =>
              let '(err, db, tx) :=
                insertMetaTags db tx indexID (PageMetaTags pageInfo) in
              match err with
              | Some _ => (RolledBack, rollbackTransaction db)
              | None =>
                  let '(err, db, tx) := insertKeywords db tx indexID pageInfo in
                  match err with
                  | Some _ => (RolledBack, rollbackTransaction db)
                  | None =>
                      let '(err, db) := call db in     (* tx.Commit() *)
                      match err with
                      | Some _ => (RolledBack, rollbackTransaction db)
                      | None => (Committed, install tx db)
                      end
                  end
              end
          end
      end
  end.

End Crawler.

(** ** Package [crawler]: link extraction, domain scope and the workers *)
Module Links.
Import GoStr.

(** What the code reads off a parsed [*url.URL]: the fields [Scheme] and
    [Host] and the results of the methods [Hostname()] and [String()]. *)
Record URL := mkURL {
  Scheme : string;
  Host : string;
  Hostname : string;
  UrlString : string
}.

(** Package [net/url]: [url.Parse] ([None] when it returns an error) and
    whether [url.ParseRequestURI] succeeds. *)
Class NetURL := {
  url_Parse : string -> option URL;
  url_ParseRequestURI_ok : string -> bool
}.

(** A parsed HTML tree ([html.Node]): text and element nodes. *)
#[warnings="-register-all"]
Inductive node :=
| TextNode (data : string)
| ElementNode (tag : string) (attr : list (string * string)) (children : list node).

(** [goquery.NewDocumentFromReader(strings.NewReader(s))]: the top-level
    nodes of the parsed document.  Parsing an in-memory string cannot fail. *)
Class HtmlParser := html_Parse : string -> list node.

(** The element nodes with tag [t] among [n] and its descendants, in
    document order. *)
Fixpoint find_in (t : string) (n : node) : list node :=
  match n with
  | TextNode _ => []
  | ElementNode tag _ cs =>
      (if String.eqb tag t then [n] else []) ++ flat_map (find_in t) cs
  end.

(** [doc.Find(t)] for a tag selector. *)
Definition Find (t : string) (doc : list node) : list node :=
  flat_map (find_in t) doc.

(** The text of a node: its text descendants, concatenated. *)
Fixpoint node_text (n : node) : string :=
  match n with
  | TextNode d => d
  | ElementNode _ _ cs => String.concat "" (map node_text cs)
  end.

(** [Selection.Text()]. *)
Definition Text (sel : list node) : string := String.concat "" (map node_text sel).

(** [Selection.Attr(name)]: the value and whether the attribute exists. *)
Definition Attr (name : string) (n : node) : string * bool :=
  match n with
  | TextNode _ => ("", false)
  | ElementNode _ attr _ =>
      match List.find (fun kv => String.eqb (fst kv) name) attr with
      | Some kv => (snd kv, true)
      | None => ("", false)
      end
  end.

Definition IsValidURL `{NetURL} (u : string) : bool :=
  let u := if negb (Contains u "://") then ("http://" ++ u)%string else u in
  url_ParseRequestURI_ok u.

(** The body of the closure passed to [Each] in [extractLinks]. *)
Definition link_of `{NetURL} (item : node) : list string :=
  let link := fst (Attr "href" item) in
  let link := TrimSpace link in
  if negb (String.eqb link "") && IsValidURL link then [link] else [].

Definition extractLinks `{NetURL} `{HtmlParser} (htmlContent : string)
  : list string :=
  flat_map link_of (Find "a" (html_Parse htmlContent)).

(** The field [BodyText] that [extractPageInfo] computes from the page
    source: [doc.Find("body").Text()]. *)
Definition pageBodyText `{HtmlParser} (htmlContent : string) : string :=
  Text (Find "body" (html_Parse htmlContent)).

(** The links [CrawlWebsite] takes from the seed page, whose rendered HTML
    ([pageSource.PageSource()]) is [htmlContent]. *)
Definition initialLinks `{NetURL} `{HtmlParser} (htmlContent : string)
  : list string :=
  extractLinks htmlContent.

(** The links [processJob] appends to [newLinks] for a page whose rendered
    HTML is [htmlContent]: [extractLinks(pageCache.BodyText)]. *)
Definition processJob_extractedLinks `{NetURL} `{HtmlParser}
    (htmlContent : string) : list string :=
  extractLinks (pageBodyText htmlContent).

(** [parts[partCount-k:]]. *)
Definition lastn {A} (k : nat) (l : list A) : list A :=
  skipn (length l - k) l.

Definition getDomainParts (parts : list string) (level : Z) : string :=
  let partCount := Z.of_nat (length parts) in
  if (level =? 1) && (3 <=? partCount) then Join "." (lastn 3 parts)
  else if (level =? 2) && (2 <=? partCount) then Join "." (lastn 2 parts)
  else if (level =? 3) && (1 <=? partCount) then
    match lastn 1 parts with p :: _ => p | [] => EmptyString end
  else Join "." parts.

Definition isExternalLink `{NetURL} (sourceURL linkURL : string)
    (domainLevel : Z) : bool :=
  if domainLevel =? 4 then false
  else
    let linkURL := TrimSpace linkURL in
    if HasPrefix linkURL "/" then false
    else
      match url_Parse sourceURL with
      | None => false
      | Some sourceParsed =>
          match url_Parse linkURL with
          | None => false
          | Some linkParsed =>
              let srcDomainParts := Split "." (Hostname sourceParsed) in
              let linkDomainParts := Split "." (Hostname linkParsed) in
              if domainLevel =? 0 then
                negb (String.eqb (UrlString sourceParsed) (UrlString linkParsed))
              else
                negb (String.eqb (getDomainParts srcDomainParts domainLevel)
                                 (getDomainParts linkDomainParts domainLevel))
          end
      end.

Definition combineURLs `{NetURL} (baseURL relativeURL : string)
  : string * bool :=                      (* the URL, and whether err == nil *)
  match url_Parse baseURL with
  | None => ("", false)
  | Some parsedURL =>
      let reconstructedBaseURL := (Scheme parsedURL ++ "://" ++ Host parsedURL)%string in
      if HasPrefix relativeURL "/"
      then ((reconstructedBaseURL ++ relativeURL)%string, true)
      else (relativeURL, true)
  end.

(** [skipURL], for a source with URL [sourceURL] and scope [restricted]. *)
Definition skipURL `{NetURL} (sourceURL : string) (restricted : Z)
    (u : string) : bool :=
  let u := TrimSpace u in
  if String.eqb u "" then true
  else
    let u := if HasPrefix u "/" then fst (combineURLs sourceURL u) else u in
    if negb (restricted =? 4) && isExternalLink sourceURL u restricted then true
    else false.

(** The URLs a [worker] hands to [processJob] (and so to [wd.Get]) out of
    the jobs it receives: each job it does not skip, as it was enqueued. *)
Definition worker_fetches `{NetURL} (sourceURL : string) (restricted : Z)
    (jobs : list string) : list string :=
  List.filter (fun u => negb (skipURL sourceURL restricted u)) jobs.

End Links.

(** ** Package [ruleset]: the rule objects the interpreter consumes

    The package is not part of the sources at hand; the records below hold
    the fields the embedded code reads. *)
Module Ruleset.

(** An [interface{}] as it comes out of a decoded rule file or of the
    browser: nil, a string, a boolean or a number. *)
Inductive value :=
| VNil
| VStr (s : string)
| VBool (b : bool)
| VNum (n : Z).

(** [==] on two [interface{}] values: same dynamic type and same value. *)
Definition value_eqb (a b : value) : bool :=
  match a, b with
  | VNil, VNil => true
  | VStr x, VStr y => String.eqb x y
  | VBool x, VBool y => Bool.eqb x y
  | VNum x, VNum y => x =? y
  | _, _ => false
  end.

Definition digit (n : nat) : string := String (ascii_of_nat (48 + n)) EmptyString.

Fixpoint decimal (fuel n : nat) : string :=
  match fuel with
  | O => EmptyString
  | S fuel' =>
      if (n <? 10)%nat then digit n
      else (decimal fuel' (n / 10) ++ digit (n mod 10))%string
  end.

(** [fmt.Sprintf("%v", v)]. *)
Definition sprint (v : value) : string :=
  match v with
  | VNil => "<nil>"
  | VStr s => s
  | VBool true => "true"
  | VBool false => "false"
  | VNum n =>
      let m := Z.to_nat (Z.abs n) in
      ((if (n <? 0)%Z then "-" else "") ++ decimal (S m) m)%string
  end.

Record Selector := mkSelector {
  SelectorType : string;
  SelectorText : string;       (* the field [Selector] *)
  AttributeName : string;      (* the field [Attribute.Name] *)
  AttributeValue : string;     (* the field [Attribute.Value] *)
  SelectorValue : string       (* the field [Value] *)
}.

Record WaitCondition := mkWaitCondition {
  ConditionType : string;
  WaitValue : string
}.

Record ErrorHandling := mkErrorHandling {
  Ignore : bool;
  RetryCount : Z;
  RetryDelay : Z
}.

Record ActionRule := mkActionRule {
  RuleName : string;
  ActionType : string;
  Selectors : list Selector;
  Value : string;
  WaitConditions : list WaitCondition;
  Conditions : gmap string value;
  ErrHandling : ErrorHandling      (* the field [ErrorHandling] *)
}.

Record ScrapingRule := mkScrapingRule {
  SRuleName : string;
  SWaitConditions : list WaitCondition;
  SConditions : gmap string value
}.

End Ruleset.

(** ** The rule engine's view of a browser session

    [W] is the state of the world a rule runs in: the page shown by the
    remote browser and the rule engine's registries.  Every call may change
    it.  The engine's own footprint is recorded beside it as a log of
    [event]s, in the order the code produces them. *)
Module Engine.
Import Ruleset.

Class Session (W : Type) := {
  (** [wd.FindElement(by, value)]: the element (its reference) and the
      error. *)
  FindElement : string -> string -> W -> (option string * option string) * W;
  (** [element.GetAttribute(name)]: the value and the error. *)
  GetAttribute : string -> string -> W -> (string * option string) * W;
  (** [element.Click()]. *)
  Click : string -> W -> option string * W;
  (** [wd.ExecuteScript(js, nil)]: the value and the error. *)
  ExecuteScript : string -> W -> (value * option string) * W;
  (** [ctx.re.JSPlugins.GetPlugin(name)]: the plugin's code, if it exists. *)
  GetPlugin : string -> W -> option string;
  (** [ctx.re.GetActionRuleByName(name)]. *)
  GetActionRuleByName : string -> W -> option ActionRule;
  (** [matchValue(element, selector)], which reads the element's text and
      the table [textMap] (not part of the sources at hand). *)
  matchValue : string -> Selector -> W -> bool * W;
  (** The functions [executeActionScroll], [executeActionInput], ... that
      the switch of [executeActionRule] dispatches to for every action type
      but "click", by normalised action type: each drives the browser and
      returns an error or nil. *)
  performAction : string -> ActionRule -> W -> option string * W;
  (** [WaitForCondition] (scraper package). *)
  WaitForCondition : WaitCondition -> W -> option string * W;
  (** What [executeScrapingRule] does once its guard has passed: [ApplyRule],
      the JSON clean-up and the post-processing steps; the JSON fragment and
      the messages collected in [errList]. *)
  scrape : ScrapingRule -> W -> (string * list string) * W
}.

(** The locator strategies of the selenium package. *)
Definition ByCSSSelector : string := "css selector".
Definition ByXPATH : string := "xpath".
Definition ByID : string := "id".
Definition ByName : string := "name".
Definition ByLinkText : string := "link text".
Definition ByPartialLinkText : string := "partial link text".
Definition ByTagName : string := "tag name".
Definition ByClassName : string := "class name".

Inductive event :=
| Attempted (rule : string)      (* executeActionRule entered *)
| Applied (rule : string)        (* an action rule's action dispatched *)
| Slept (seconds : Z)            (* time.Sleep(seconds * time.Second) *)
| Counted                        (* ctx.Status.TotalActions++ *)
| Executed (rule : string)       (* executeScrapingRule entered *)
| Scraped (rule : string)        (* a scraping rule applied to the page *)
| EnvSet                         (* SetEnv(ctx.GetContextID()) *)
| EnvCleared.                    (* KVStore.DeleteNonPersistentByCID(...) *)

Record St (W : Type) := mkSt { world : W; log : list event }.
Arguments mkSt {W} world log.
Arguments world {W} s.
Arguments log {W} s.

(** A computation returns a value and a state, or panics (a failed type
    assertion); nothing in this code recovers from a panic. *)
Inductive out (W A : Type) :=
| Ret (a : A) (s : St W)
| Panic (s : St W).
Arguments Ret {W A} a s.
Arguments Panic {W A} s.

Definition M (W A : Type) : Type := St W -> out W A.

Definition ret {W A} (a : A) : M W A := fun s => Ret a s.

Definition bind {W A B} (c : M W A) (k : A -> M W B) : M W B :=
  fun s => match c s with
           | Ret a s' => k a s'
           | Panic s' => Panic s'
           end.

Definition panic {W A} : M W A := fun s => Panic s.

Definition emit {W} (e : event) : M W unit :=
  fun s => Ret tt (mkSt (world s) (log s ++ [e])).

Definition call {W A} (f : W -> A * W) : M W A :=
  fun s => let '(a, w) := f (world s) in Ret a (mkSt w (log s)).

Definition ask {W A} (f : W -> A) : M W A := fun s => Ret (f (world s)) s.

Definition final {W A} (o : out W A) : St W :=
  match o with Ret _ s => s | Panic s => s end.

End Engine.

Notation "'let*' x ':=' c 'in' k" := (Engine.bind c (fun x => k))
  (at level 10, x pattern, c at level 100, k at level 200).

(** ** Package [crawler]: [action_rules.go] *)
Module ActionRules.
Import GoStr Ruleset Engine.

Section WithSession.
Context {W : Type} `{Session W}.

(** [v.(string)]: a failed type assertion panics. *)
Definition assertString (v : option value) : M W string :=
  match v with
  | Some (VStr s) => ret s
  | _ => panic
  end.

(** [executeWaitCondition]. *)
Definition executeWaitCondition (r : WaitCondition) : M W (option string) :=
  let t := ToLower (TrimSpace (ConditionType r)) in
  if String.eqb t "element" then ret None
  else if String.eqb t "delay" then ret None
  else if String.eqb t "plugin_call" then
    let* plugin := ask (GetPlugin (WaitValue r)) in
    match plugin with
    | None => ret (Some ("plugin not found: " ++ WaitValue r)%string)
    | Some pluginCode =>
        let* rv := call (ExecuteScript pluginCode) in
        ret (snd rv)
    end
  else ret (Some ("wait condition not supported: " ++ ConditionType r)%string).

(** The loop over [r.WaitConditions] in [executeActionRule]: it returns the
    first error. *)
Fixpoint executeWaitLoop (wcs : list WaitCondition) : M W (option string) :=
  match wcs with
  | [] => ret None
  | wc :: rest =>
      let* err := executeWaitCondition wc in
      match err with
      | Some e => ret (Some e)
      | None => executeWaitLoop rest
      end
  end.

(** [checkActionConditions]. *)
Definition checkActionConditions (conditions : gmap string value) : M W bool :=
  let canProceed := true in
  if (0 <? Z.of_nat (size conditions)) then
    let* canProceed :=
      match conditions !! "element" with
      | Some _ =>
          let* sel := assertString (conditions !! "element") in
          let* found := call (FindElement ByCSSSelector sel) in
          match snd found with
          | Some _ => ret false
          | None => ret canProceed
          end
      | None => ret canProceed
      end in
    let* canProceed :=
      match conditions !! "language" with
      | Some wanted =>
          let* rv := call (ExecuteScript "return document.documentElement.lang") in
          let '(lang, err) := rv in
          let canProceed := match err with Some _ => false | None => canProceed end in
          let canProceed := if negb (value_eqb lang wanted) then false else canProceed in
          ret canProceed
      | None => ret canProceed
      end in
    match conditions !! "plugin_call" with
    | Some _ =>
        let* name := assertString (conditions !! "selector") in
        let* plugin := ask (GetPlugin name) in
        match plugin with
        | None => ret false
        | Some pluginCode =>
            let* rv := call (ExecuteScript pluginCode) in
            let '(rval, err) := rv in
            match err with
            | Some _ => ret false
            | None =>
                let rvalStr := sprint rval in
                let rvalStr := ToLower (TrimSpace rvalStr) in
                if String.eqb rvalStr "true" then ret true else ret false
            end
        end
    | None => ret canProceed
    end
  else ret canProceed.

(** [findElementByType]. *)
Definition findElementByType (selectorType selector : string)
  : M W (option string * option string) :=
  let t := ToLower (TrimSpace selectorType) in
  let among := fun names => existsb (String.eqb t) names in
  if among ["css"] then call (FindElement ByCSSSelector selector)
  else if among ["xpath"] then call (FindElement ByXPATH selector)
  else if among ["id"] then call (FindElement ByID selector)
  else if among ["name"] then call (FindElement ByName selector)
  else if among ["linktext"; "link_text"] then call (FindElement ByLinkText selector)
  else if among ["partiallinktext"; "partial_link_text"]
  then call (FindElement ByPartialLinkText selector)
  else if among ["tagname"; "tag_name"; "tag"; "element"]
  then call (FindElement ByTagName selector)
  else if among ["class"; "classname"; "class_name"]
  then call (FindElement ByClassName selector)
  else ret (None, Some ("unsupported selector type: " ++ selectorType)%string).

(** [strings.EqualFold] on ASCII input. *)
Definition EqualFold (a b : string) : bool := String.eqb (ToLower a) (ToLower b).

(** The loop of [findElementBySelectorType] over the selectors, with the
    current values of [wdf], [selector] and [err]. *)
Fixpoint findElementLoop (selectors : list Selector) (wdf : option string)
    (selector : Selector) (err : option string)
  : M W (option string * Selector * option string) :=
  match selectors with
  | [] => ret (wdf, selector, err)
  | selector :: rest =>
      let* found := findElementByType (SelectorType selector) (SelectorText selector) in
      let '(wdf, err) := found in
      match err, wdf with
      | None, Some element =>
          let* matchL2 :=
            if negb (String.eqb (TrimSpace (AttributeName selector)) "") then
              let* attr := call (GetAttribute element (TrimSpace (AttributeName selector))) in
              if EqualFold (TrimSpace (fst attr)) (TrimSpace (AttributeValue selector))
              then ret true else ret false
            else ret true in
          let matchL3 := false in
          let* matchL3 :=
            if matchL3 && negb (String.eqb (TrimSpace (SelectorValue selector)) "") then
              let* m := call (matchValue element selector) in
              if m then ret true else ret matchL3
            else if matchL2 then ret true else ret matchL3 in
          if matchL3 then ret (wdf, selector, err)                  (* break *)
          else findElementLoop rest wdf selector err
      | _, _ => findElementLoop rest wdf selector err
      end
  end.

(** [findElementBySelectorType]; [selector] starts as the zero value. *)
Definition findElementBySelectorType (selectors : list Selector)
  : M W (option string * Selector * option string) :=
  findElementLoop selectors None (mkSelector "" "" "" "" "") None.

(** [executeActionClick]: an element that is not found is no error. *)
Definition executeActionClick (r : ActionRule) : M W (option string) :=
  let* found := findElementBySelectorType (Selectors r) in
  let '(wdf, _, err) := found in
  let err := match err with Some _ => None | None => err end in
  match wdf with
  | Some element => call (Click element)
  | None => ret err
  end.

(** The action types, other than "click", that the switch of
    [executeActionRule] has a case for. *)
Definition otherActions : list string :=
  ["scroll"; "input_text"; "clear"; "custom"; "take_screenshot";
   "key_down"; "key_up"; "mouse_hover"; "forward"; "back"; "refresh";
   "switch_to_frame"; "switch_to_window"; "scroll_to_element";
   "scroll_by_amount"; "click_and_hold"; "release"; "navigate_to_url"].

(** The switch on [strings.ToLower(strings.TrimSpace(r.ActionType))]. *)
Definition dispatchAction (r : ActionRule) : M W (option string) :=
  let t := ToLower (TrimSpace (ActionType r)) in
  if String.eqb t "click" then
    let* _ := emit (Applied (RuleName r)) in
    executeActionClick r
  else if existsb (String.eqb t) otherActions then
    let* _ := emit (Applied (RuleName r)) in
    call (performAction t r)
  else ret (Some ("action type not supported: " ++ ActionType r)%string).

(** [executeActionRule]. *)
Definition executeActionRule (r : ActionRule) : M W (option string) :=
  let* _ := emit (Attempted (RuleName r)) in
  let* err := executeWaitLoop (WaitConditions r) in
  match err with
  | Some e => ret (Some e)
  | None =>
      if (Z.of_nat (size (Conditions r)) =? 0) then dispatchAction r
      else
        let* ok := checkActionConditions (Conditions r) in
        if ok then dispatchAction r else ret None
  end.

(** The retry loop [for i := 0; i < RetryCount; i++] shared by [executeRule]
    and [executeActionRuleByName], with [left] iterations to go. *)
Fixpoint retryLoop (left : nat) (r : ActionRule) : M W unit :=
  match left with
  | O => ret tt
  | S left' =>
      let* _ :=
        if 0 <? RetryDelay (ErrHandling r)
        then emit (Slept (RetryDelay (ErrHandling r))) else ret tt in
      let* err := executeActionRule r in
      match err with
      | None => ret tt                                   (* break *)
      | Some _ => retryLoop left' r
      end
  end.

(** What follows a first attempt that returned [err]. *)
Definition handleRuleError (r : ActionRule) (err : option string) : M W unit :=
  match err with
  | None => ret tt
  | Some _ =>
      if negb (Ignore (ErrHandling r)) then
        if 0 <? RetryCount (ErrHandling r)
        then retryLoop (Z.to_nat (RetryCount (ErrHandling r))) r
        else ret tt
      else ret tt
  end.

(** [executeRule]: it returns nothing, whatever the rule did. *)
Definition executeRule (r : ActionRule) : M W unit :=
  let* err := executeActionRule r in
  handleRuleError r err.

(** [executeActionRules]. *)
Fixpoint executeActionRules (rules : list ActionRule) : M W unit :=
  match rules with
  | [] => ret tt
  | r :: rest =>
      let* _ := executeRule r in
      let* _ := emit Counted in
      executeActionRules rest
  end.

(** [executeActionRuleByName]. *)
Definition executeActionRuleByName (ruleName : string) : M W unit :=
  let* found := ask (GetActionRuleByName ruleName) in
  match found with
  | None => ret tt                                       (* logged *)
  | Some rule =>
      let* err := executeActionRule rule in
      handleRuleError rule err
  end.

End WithSession.

(** [checkActionPreConditions], on the field [UrlPatterns] of the
    condition. *)
Definition checkActionPreConditions (UrlPatterns : list string) (url : string)
  : bool :=
  let canProceed := true in
  if (0 <? Z.of_nat (length UrlPatterns)) then
    fold_left (fun (canProceed : bool) pattern =>
                 if Contains url pattern then true else false)
      UrlPatterns canProceed
  else canProceed.

End ActionRules.

(** ** Package [crawler]: [scraping_rules.go] *)
Module ScrapingRules.
Import GoStr Ruleset Engine.

(** [addScrapedDataToDocument]. *)
Definition addScrapedDataToDocument (scrapedDataDoc newScrapedData : string)
  : string :=
  if String.eqb scrapedDataDoc "" then newScrapedData
  else (scrapedDataDoc ++ "," ++ newScrapedData)%string.

Section WithSession.
Context {W : Type} `{Session W}.

(** [checkScrapingConditions]. *)
Definition checkScrapingConditions (conditions : gmap string value) : M W bool :=
  let canProceed := true in
  if (0 <? Z.of_nat (size conditions)) then
    let* canProceed :=
      match conditions !! "element" with
      | Some _ =>
          let* sel := ActionRules.assertString (conditions !! "element") in
          let* found := call (FindElement ByCSSSelector sel) in
          match snd found with
          | Some _ => ret false
          | None => ret canProceed
          end
      | None => ret canProceed
      end in
    match conditions !! "language" with
    | Some wanted =>
        let* rv := call (ExecuteScript "return document.documentElement.lang") in
        let '(lang, err) := rv in
        let canProceed := match err with Some _ => false | None => canProceed end in
        let canProceed := if negb (value_eqb lang wanted) then false else canProceed in
        ret canProceed
    | None => ret canProceed
    end
  else ret canProceed.

(** [shouldExecuteScrapingRule]. *)
Definition shouldExecuteScrapingRule (r : ScrapingRule) : M W bool :=
  if (Z.of_nat (size (SConditions r)) =? 0) then ret true
  else checkScrapingConditions (SConditions r).

(** [executeWaitConditions]. *)
Fixpoint executeWaitConditions (conditions : list WaitCondition)
  : M W (option string) :=
  match conditions with
  | [] => ret None
  | wc :: rest =>
      let* err := call (WaitForCondition wc) in
      match err with
      | Some e => ret (Some ("executing wait condition: " ++ e)%string)
      | None => executeWaitConditions rest
      end
  end.

(** The messages of [errList], each followed by a line feed. *)
Definition joinErrors (errList : list string) : string :=
  String.concat "" (map (fun e => (e ++ String (ascii_of_nat 10) "")%string) errList).

(** [executeScrapingRule]: the JSON fragment and the error. *)
Definition executeScrapingRule (r : ScrapingRule) : M W (string * option string) :=
  let* _ := emit (Executed (SRuleName r)) in
  let* werr :=
    if negb (Z.of_nat (length (SWaitConditions r)) =? 0)
    then executeWaitConditions (SWaitConditions r) else ret None in
  match werr with
  | Some e => ret ("", Some ("executing wait conditions: " ++ e)%string)
  | None =>
      let* go := shouldExecuteScrapingRule r in
      let* res :=
        if go then
          let* _ := emit (Scraped (SRuleName r)) in
          call (scrape r)
        else ret ("", []) in
      let '(jsonDocument, errList) := res in
      if (0 <? Z.of_nat (length errList))
      then ret (jsonDocument,
                Some ("executing scraping rule: " ++ joinErrors errList)%string)
      else ret (jsonDocument, None)
  end.

(** The loop of [executeScrapingRulesInRuleset] over
    [rs.GetAllEnabledScrapingRules()]: [inl err] is the early return on a
    "Critical" error, [inr doc] the document once the loop has ended. *)
Fixpoint rulesetLoop (rules : list ScrapingRule) (scrapedDataDoc : string)
  : M W (string + string) :=
  match rules with
  | [] => ret (inr scrapedDataDoc)
  | r :: rest =>
      let* res := executeScrapingRule r in
      let '(scrapedData, err) := res in
      match err with
      | Some e =>
          if Contains e "Critical" then ret (inl e)
          else rulesetLoop rest (addScrapedDataToDocument scrapedDataDoc scrapedData)
      | None =>
          rulesetLoop rest (addScrapedDataToDocument scrapedDataDoc scrapedData)
      end
  end.

(** [executeScrapingRulesInRuleset], on the enabled scraping rules of the
    ruleset. *)
Definition executeScrapingRulesInRuleset (enabled : list ScrapingRule)
  : M W (string * option string) :=
  let* _ := emit EnvSet in
  let* r := rulesetLoop enabled "" in
  match r with
  | inl e => ret ("", Some e)
  | inr scrapedDataDoc =>
      let* _ := emit EnvCleared in
      ret (scrapedDataDoc, None)
  end.

(** The loop of [executeScrapingRulesInRuleGroup]: [err] is overwritten by
    every rule. *)
Fixpoint ruleGroupLoop (rules : list ScrapingRule) (scrapedDataDoc : string)
    (err : option string) : M W (string * option string) :=
  match rules with
  | [] => ret (scrapedDataDoc, err)
  | r :: rest =>
      let* res := executeScrapingRule r in
      let '(scrapedData, err) := res in
      ruleGroupLoop rest (addScrapedDataToDocument scrapedDataDoc scrapedData) err
  end.

(** [executeScrapingRulesInRuleGroup], on the scraping rules of the group. *)
Definition executeScrapingRulesInRuleGroup (rules : list ScrapingRule)
  : M W (string * option string) :=
  let* _ := emit EnvSet in
  let* r := ruleGroupLoop rules "" None in
  let* _ := emit EnvCleared in
  ret r.

End WithSession.

(** [checkScrapingPreConditions], on the field [URLPatterns] of the
    condition. *)
Definition checkScrapingPreConditions (URLPatterns : list string) (url : string)
  : bool :=
  let canProceed := true in
  if (0 <? Z.of_nat (length URLPatterns)) then
    fold_left (fun (canProceed : bool) pattern =>
                 if Contains url pattern then true else false)
      URLPatterns canProceed
  else canProceed.

End ScrapingRules.

(** ** Go's [int] on a 64-bit platform

    The loops below count without a bound that the code checks, so the
    wrap-around of [int] arithmetic is written out. *)
Module GoInt.

Definition max_int : Z := 9223372036854775807.
Definition min_int : Z := -9223372036854775808.

(** The value of an [int] expression whose mathematical value is [z]. *)
Definition wrap (z : Z) : Z :=
  (z - min_int) mod 18446744073709551616 + min_int.

End GoInt.

(** ** Package [crawler]: the rounds of [CrawlWebsite] *)
Module CrawlRounds.
Import GoInt.

Section WithWorkers.

(** What the workers of one round leave in [processCtx.newLinks] by the time
    [processCtx.wg.Wait()] returns, given the number of the round
    ([currentDepth]) and the jobs enqueued: the links that [processJob]
    appended for the jobs that were not skipped, in the order in which the
    workers took [linksMutex].  With [config.Crawler.Workers <= 0] no worker
    is started and this is the empty list. *)
Variable round : Z -> list string -> list string.

(** The loop [for (currentDepth < maxDepth) && (newLinksFound > 0)] of
    [CrawlWebsite], entered with the given values of its variables;
    [MaxDepth] is [config.Crawler.MaxDepth].  The result lists the jobs
    enqueued in each round; [None] means that [fuel] rounds did not end the
    loop. *)
Fixpoint crawlLoop (fuel : nat) (MaxDepth : Z) (allLinks : list string)
    (currentDepth maxDepth newLinksFound : Z) : option (list (list string)) :=
  if (currentDepth <? maxDepth) && (0 <? newLinksFound) then
    match fuel with
    | O => None
    | S fuel' =>
        let newLinks := round currentDepth allLinks in
        let newLinksFound' :=
          if 0 <? Z.of_nat (length newLinks) then Z.of_nat (length newLinks) else 0 in
        let allLinks' :=
          if 0 <? Z.of_nat (length newLinks) then newLinks else allLinks in
        let currentDepth' := wrap (currentDepth + 1) in
        let maxDepth' :=
          if MaxDepth =? 0 then wrap (currentDepth' + 1) else maxDepth in
        option_map (cons allLinks)
          (crawlLoop fuel' MaxDepth allLinks' currentDepth' maxDepth' newLinksFound')
    end
  else Some [].

(** The part of [CrawlWebsite] from [allLinks := initialLinks] to the end of
    the loop. *)
Definition crawlRounds (fuel : nat) (MaxDepth : Z) (initialLinks : list string)
  : option (list (list string)) :=
  let maxDepth := MaxDepth in
  let maxDepth := if maxDepth =? 0 then 1 else maxDepth in
  crawlLoop fuel MaxDepth initialLinks 0 maxDepth
    (Z.of_nat (length initialLinks)).

End WithWorkers.

End CrawlRounds.

(** ** Package [crawler]: full-page screenshots *)
Module Screenshots.
Import GoInt Ruleset Engine Crawler.

(** [wd.Screenshot()]: the PNG bytes and the error. *)
Class Camera (W : Type) := {
  Screenshot : W -> (list Byte.byte * option string) * W
}.

Section WithCamera.
Context {W : Type} `{Session W} `{Camera W}.

(** The body of the loop of [captureScreenshots] at scroll position [y]:
    scroll there, sleep one second, take the screenshot. *)
Definition captureAt (y : Z) : M W (res (list Byte.byte)) :=
  let scrollScript := ("window.scrollTo(0, " ++ sprint (VNum y) ++ ");")%string in
  let* rv := call (ExecuteScript scrollScript) in
  match snd rv with
  | Some e => ret (Err e)
  | None =>
      let* _ := emit (Slept 1) in
      let* shot := call Screenshot in
      match snd shot with
      | Some e => ret (Err e)
      | None => ret (Val (fst shot))
      end
  end.

(** The loop [for y := 0; y < totalHeight; y += windowHeight] of
    [captureScreenshots], entered at [y] with the screenshots taken so far;
    [None] means that [fuel] iterations did not end the loop. *)
Fixpoint captureLoop (fuel : nat) (y totalHeight windowHeight : Z)
    (screenshots : list (list Byte.byte))
  : M W (option (res (list (list Byte.byte)))) :=
  if y <? totalHeight then
    match fuel with
    | O => ret None
    | S fuel' =>
        let* r := captureAt y in
        match r with
        | Err e => ret (Some (Err e))
        | Val screenshot =>
            captureLoop fuel' (wrap (y + windowHeight)) totalHeight windowHeight
              (screenshots ++ [screenshot])
        end
    end
  else ret (Some (Val screenshots)).

Definition captureScreenshots (fuel : nat) (totalHeight windowHeight : Z)
  : M W (option (res (list (list Byte.byte)))) :=
  captureLoop fuel 0 totalHeight windowHeight [].

End WithCamera.

End Screenshots.

(** ** Package [crawler]: reaching Selenium *)
Module Selenium.

(** What a run has asked of the Selenium client library so far: how many
    times it called the constructor ([selenium.NewSeleniumService] or
    [selenium.NewRemote]), and the seconds of each [time.Sleep]. *)
Record Tries := mkTries { made : nat; slept : list Z }.

Section WithServer.

(** The error of the constructor's call number [k] (from 0) of a run;
    [None] when the call succeeds. *)
Variable outcome : nat -> option string.

(** The loop [for { ... }] of [NewSeleniumService], with the current value
    of [retries]; [None] means that [fuel] iterations did not end it. *)
Fixpoint serviceLoop (fuel : nat) (retries : Z) (t : Tries)
  : option (option string * Tries) :=
  match fuel with
  | O => None
  | S fuel' =>
      let err := outcome (made t) in
      let t := mkTries (S (made t)) (slept t) in
      match err with
      | None => Some (None, t)                               (* break *)
      | Some e =>
          let retries := retries + 1 in
          if 5 <? retries then Some (Some e, t)              (* break *)
          else serviceLoop fuel' retries (mkTries (made t) (slept t ++ [5]))
      end
  end.

(** [NewSeleniumService]: the error it returns, and what it did. *)
Definition NewSeleniumService (fuel : nat) (UseService : bool)
  : option (option string * Tries) :=
  if UseService then serviceLoop fuel 0 (mkTries 0 [])
  else Some (None, mkTries 0 []).

(** The loop of [ConnectSelenium]. *)
Fixpoint connectLoop (fuel : nat) (t : Tries) : option (option string * Tries) :=
  match fuel with
  | O => None
  | S fuel' =>
      let err := outcome (made t) in
      let t := mkTries (S (made t)) (slept t) in
      match err with
      | Some _ => connectLoop fuel' (mkTries (made t) (slept t ++ [5]))
      | None => Some (err, t)                                (* break *)
      end
  end.

(** [ConnectSelenium]: the error it returns, and what it did.  The
    capabilities it sends are built from tables that are not part of the
    sources at hand; they play no part in the loop. *)
Definition ConnectSelenium (fuel : nat) : option (option string * Tries) :=
  connectLoop fuel (mkTries 0 []).

End WithServer.

End Selenium.

(** ** Package [netinfo]: the options of a ServiceScout (nmap) scan *)
Module ServiceScout.
Import GoStr Ruleset.

(** The fields of [cfg.ServiceScoutConfig] and of [cfg.PlatformInfo] that
    the code reads. *)
Record ServiceScoutConfig := mkServiceScoutConfig {
  UDPScan : bool;
  PingScan : bool;
  SynScan : bool;
  ConnectScan : bool;
  AggressiveScan : bool;
  DNSServers : list string;
  NoDNSResolution : bool;
  ScriptScan : list string;
  ServiceDetection : bool;
  MaxPortNumber : Z;
  ServiceDB : string;
  OSFingerprinting : bool;
  HostTimeout : string;
  TimingTemplate : string;
  ScanDelay : string;
  MaxRetries : Z;
  IPFragment : bool
}.

Record PlatformInfo := mkPlatformInfo { OSName : string }.

(** What the code takes from outside the package: [cmn.CheckIPVersion],
    [exi.GetFloat] with the [float64] operations applied to its result
    ([time.Duration(f)], [f < 1], [f + 1]), and
    [strconv.ParseInt(s, 10, 16)] ([None] when it returns an error). *)
Class ScoutEnv := {
  float64 : Type;
  CheckIPVersion : string -> Z;
  GetFloat : string -> float64;
  Duration : float64 -> Z;
  below_one : float64 -> bool;
  plus_one : float64 -> float64;
  ParseInt16 : string -> option Z
}.

(** The options of the nmap package that the code builds, by the name of
    the function that makes each. *)
Inductive NmapOption :=
| WithIPv6Scanning
| WithTargets (ip : string)
| WithContext
| WithUDPScan
| WithPingScan
| WithSYNScan
| WithConnectScan
| WithAggressiveScan
| WithCustomArguments (args : string)
| WithScripts (scripts : list string)
| WithPorts (ports : string)
| WithServiceInfo
| WithOSDetection
| WithHostTimeout (seconds : Z)
| WithTimingTemplate (timing : Z)
| WithScanDelay (milliseconds : Z)
| WithMaxRetries (tries : Z)
| WithVerbosity (level : Z)
| WithDebugging (level : Z)
| WithPrivileged.

Definition appendScanTypes (options : list NmapOption) (cfg : ServiceScoutConfig)
  : list NmapOption :=
  let options := if UDPScan cfg then options ++ [WithUDPScan] else options in
  let options := if PingScan cfg then options ++ [WithPingScan] else options in
  let options := if SynScan cfg then options ++ [WithSYNScan] else options in
  let options := if ConnectScan cfg then options ++ [WithConnectScan] else options in
  let options :=
    if AggressiveScan cfg then options ++ [WithAggressiveScan] else options in
  options.

(** The loop [for i, dnsServer := range cfg.DNSServers] of
    [appendDNSOptions], at index [i] of the [n] servers. *)
Fixpoint dnsListLoop (n i : Z) (servers : list string) (dnsList : string) : string :=
  match servers with
  | [] => dnsList
  | dnsServer :: rest =>
      let dnsList :=
        if negb (String.eqb (TrimSpace dnsServer) "") then
          let dnsList := (dnsList ++ TrimSpace dnsServer)%string in
          if i <? n - 1 then (dnsList ++ ",")%string else dnsList
        else dnsList in
      dnsListLoop n (i + 1) rest dnsList
  end.

Definition dnsServerList (servers : list string) : string :=
  dnsListLoop (Z.of_nat (length servers)) 0 servers "".

Definition appendDNSOptions (options : list NmapOption) (cfg : ServiceScoutConfig)
    (platform : PlatformInfo) : list NmapOption :=
  let options :=
    if negb (String.eqb (OSName platform) "darwin") then
      if 0 <? Z.of_nat (length (DNSServers cfg)) then
        let dnsList := dnsServerList (DNSServers cfg) in
        if negb (String.eqb dnsList "")
        then options ++ [WithCustomArguments ("--dns-servers " ++ dnsList)]
        else options
      else options
    else options in
  if NoDNSResolution cfg then options ++ [WithCustomArguments "-n"] else options.

(** [appendScripts]: [cfg] is a pointer, and the function writes to it. *)
Definition appendScripts (options : list NmapOption) (cfg : ServiceScoutConfig)
  : list NmapOption * ServiceScoutConfig :=
  if Z.of_nat (length (ScriptScan cfg)) =? 0 then
    (options,
     mkServiceScoutConfig (UDPScan cfg) (PingScan cfg) (SynScan cfg)
       (ConnectScan cfg) (AggressiveScan cfg) (DNSServers cfg)
       (NoDNSResolution cfg) ["default"] (ServiceDetection cfg)
       (MaxPortNumber cfg) (ServiceDB cfg) (OSFingerprinting cfg)
       (HostTimeout cfg) (TimingTemplate cfg) (ScanDelay cfg) (MaxRetries cfg)
       (IPFragment cfg))
  else (options ++ [WithScripts (ScriptScan cfg)], cfg).

Definition appendServiceDetection (options : list NmapOption)
    (cfg : ServiceScoutConfig) (platform : PlatformInfo) : list NmapOption :=
  if ServiceDetection cfg then
    let options := options ++ [WithCustomArguments "-Pn"] in
    let options :=
      options ++ [WithPorts ("1-" ++ sprint (VNum (MaxPortNumber cfg)))] in
    let options := options ++ [WithServiceInfo] in
    if negb (String.eqb (OSName platform) "darwin") then
      if String.eqb (ServiceDB cfg) ""
      then options ++ [WithCustomArguments "--servicedb nmap-services"]
      else options ++ [WithCustomArguments
                         ("--servicedb " ++ TrimSpace (ServiceDB cfg))]
    else options
  else options.

Definition appendOSDetection (options : list NmapOption) (cfg : ServiceScoutConfig)
  : list NmapOption :=
  if OSFingerprinting cfg then options ++ [WithOSDetection] else options.

Definition appendTimingOptions `{ScoutEnv} (options : list NmapOption)
    (cfg : ServiceScoutConfig) : list NmapOption :=
  let options :=
    if negb (String.eqb (HostTimeout cfg) "") then
      let hostTimeout := GetFloat (HostTimeout cfg) in
      options ++ [WithHostTimeout (Duration hostTimeout)]
    else options in
  let timed :=                     (* [inl]: the early [return options] *)
    if negb (String.eqb (TimingTemplate cfg) "") then
      match ParseInt16 (TimingTemplate cfg) with
      | None => inl options
      | Some timing => inr (options ++ [WithTimingTemplate timing])
      end
    else inr options in
  match timed with
  | inl options => options
  | inr options =>
      if negb (String.eqb (ScanDelay cfg) "") then
        let scDelay := GetFloat (ScanDelay cfg) in
        let scDelay := if below_one scDelay then plus_one scDelay else scDelay in
        options ++ [WithScanDelay (Duration scDelay)]
      else options
  end.

Definition appendLowNosingOptions (options : list NmapOption)
    (cfg : ServiceScoutConfig) (platform : PlatformInfo) : list NmapOption :=
  let options :=
    if 0 <? MaxRetries cfg then options ++ [WithMaxRetries (MaxRetries cfg)]
    else options in
  let usingSS := false in
  let '(options, usingSS) :=
    if negb (String.eqb (OSName platform) "darwin") then
      if IPFragment cfg then
        let options := options ++ [WithCustomArguments "-f"] in
        if UDPScan cfg then (options ++ [WithCustomArguments "-sS"], true)
        else (options, usingSS)
      else (options, usingSS)
    else (options, usingSS) in
  let options := options ++ [WithCustomArguments "-PO6,17"] in
  let options := options ++ [WithCustomArguments "--disable-arp-ping"] in
  if usingSS then
    (options ++ [WithCustomArguments "--defeat-rst-ratelimit"])
      ++ [WithCustomArguments "--defeat-icmp-ratelimit"]
  else options.

(** [buildNmapOptions]: the options, and the configuration as the call
    leaves it; the error it returns is always nil. *)
Definition buildNmapOptions `{ScoutEnv} (cfg : ServiceScoutConfig) (ip : string)
    (platform : PlatformInfo) : list NmapOption * ServiceScoutConfig :=
  let options := [] in
  let options :=
    if CheckIPVersion ip =? 6 then options ++ [WithIPv6Scanning] else options in
  let options := options ++ [WithTargets ip] in
  let options := options ++ [WithContext] in
  let options := appendScanTypes options cfg in
  let options := appendDNSOptions options cfg platform in
  let '(options, cfg) := appendScripts options cfg in
  let options := appendServiceDetection options cfg platform in
  let options := appendOSDetection options cfg in
  let options := appendTimingOptions options cfg in
  let options := appendLowNosingOptions options cfg platform in
  let options := options ++ [WithVerbosity 2] in
  let options := options ++ [WithDebugging 2] in
  let options :=
    if negb (String.eqb (OSName platform) "darwin")
    then options ++ [WithPrivileged] else options in
  (options, cfg).

(** *** Reading the results of a scan *)

(** [nmap.Script], as far as the code reads it. *)
Record Script := mkScript {
  ScriptID : string;
  ScriptOutput : string;
  ScriptElements : list (string * string);                    (* Key, Value *)
  ScriptTables : list (string * list (string * string))       (* Key, Elements *)
}.

Record VulnerabilityInfo := mkVulnerabilityInfo {
  VulnID : string;
  VulnName : string;
  Severity : string;
  VulnOutput : string;
  Reference : string;
  Description : string;
  VulnState : string;
  VulnElements : list (string * string)
}.

(** One iteration of the loop of [collectVulnerabilityData]. *)
Definition collectElement (v : VulnerabilityInfo) (elem : string * string)
  : VulnerabilityInfo :=
  let '(key, value) := elem in
  let v :=
    if String.eqb key "severity" then
      mkVulnerabilityInfo (VulnID v) (VulnName v) value (VulnOutput v)
        (Reference v) (Description v) (VulnState v) (VulnElements v)
    else if String.eqb key "title" then
      mkVulnerabilityInfo (VulnID v) value (Severity v) (VulnOutput v)
        (Reference v) (Description v) (VulnState v) (VulnElements v)
    else if String.eqb key "reference" then
      mkVulnerabilityInfo (VulnID v) (VulnName v) (Severity v) (VulnOutput v)
        value (Description v) (VulnState v) (VulnElements v)
    else if String.eqb key "description" then
      mkVulnerabilityInfo (VulnID v) (VulnName v) (Severity v) (VulnOutput v)
        (Reference v) value (VulnState v) (VulnElements v)
    else if String.eqb key "state" then
      mkVulnerabilityInfo (VulnID v) (VulnName v) (Severity v) (VulnOutput v)
        (Reference v) (Description v) value (VulnElements v)
    else v in
  mkVulnerabilityInfo (VulnID v) (VulnName v) (Severity v) (VulnOutput v)
    (Reference v) (Description v) (VulnState v)
    (VulnElements v ++ [(key, value)]).

Definition collectVulnerabilityData (script : Script) : VulnerabilityInfo :=
  fold_left collectElement (ScriptElements script)
    (mkVulnerabilityInfo (ScriptID script) (ScriptID script) "unknown"
       (ScriptOutput script) "" "" "" []).

Definition collectVulnerabilityInfo (scripts : list Script)
  : list VulnerabilityInfo :=
  map collectVulnerabilityData scripts.

(** [nmap.Address], [nmap.Service] (with the result of its method
    [String()]), [nmap.Port], [nmap.ExtraPort], [nmap.OSMatch] and
    [nmap.Host], as far as the code reads them. *)
Record Address := mkAddress { Addr : string; AddrType : string; Vendor : string }.

Record Service := mkService {
  ServiceName : string;
  Product : string;
  Version : string;
  ExtraInfo : string;
  DeviceType : string;
  OSType : string;
  ServiceHostname : string;
  Method : string;
  Proto : string;
  RPCNum : string;
  ServiceFP : string;
  Tunnel : string;
  ServiceString : string
}.

Record Port := mkPort {
  PortID : Z;
  Protocol : string;
  PortState : string;
  PortService : Service;
  PortScripts : list Script
}.

Record ExtraPort := mkExtraPort { Count : Z; ExtraState : string }.

(** Type, Vendor, Family, OSGeneration and Accuracy of an [nmap.OSClass]. *)
Definition OSClass : Type := string * string * string * string * Z.

Record OSMatch := mkOSMatch {
  MatchName : string;
  MatchAccuracy : Z;
  MatchLine : Z;
  MatchClasses : list OSClass
}.

Record Host := mkHost {
  Addresses : list Address;
  Hostnames : list (string * string);          (* Name, Type *)
  Ports : list Port;
  ExtraPorts : list ExtraPort;
  OSMatches : list OSMatch;                    (* OS.Matches *)
  HostScripts : list Script
}.

(** The records of the package. *)
Record IPInfoDetails := mkIPInfoDetails {
  IPAddress : string;
  IPType : string;
  IPVendor : string
}.

Record PortInfo := mkPortInfo {
  PortNumber : Z;
  PortProtocol : string;
  PortInfoState : string;
  PortInfoService : string
}.

Record ScriptInfo := mkScriptInfo {
  InfoID : string;
  InfoOutput : string;
  InfoElements : list (string * string);
  InfoTables : list (string * list (string * string))
}.

Record ServiceInfo := mkServiceInfo {
  InfoService : Service;           (* the twelve fields copied from the port *)
  InfoScripts : list ScriptInfo
}.

Record OSInfo := mkOSInfo {
  OSInfoName : string;
  OSInfoAccuracy : Z;
  OSInfoClasses : list OSClass;
  OSInfoLine : Z
}.

Record HostInfo := mkHostInfo {
  HostIP : list IPInfoDetails;
  HostHostname : list (string * string);
  HostPorts : list PortInfo;
  HostServices : list ServiceInfo;
  HostOS : list OSInfo;
  HostVulnerabilities : list VulnerabilityInfo
}.

Definition collectIPInfo `{ScoutEnv} (addresses : list Address)
  : list IPInfoDetails :=
  map (fun addr =>
         let AddrType :=
           if String.eqb (TrimSpace (AddrType addr)) ""
              || String.eqb (ToLower (TrimSpace (AddrType addr))) "unknown"
           then if CheckIPVersion (Addr addr) =? 6 then "ipv6" else "ipv4"
           else AddrType addr in
         mkIPInfoDetails (Addr addr) AddrType (Vendor addr))
    addresses.

Definition collectHostnameInfo (hostnames : list (string * string))
  : list (string * string) :=
  map (fun hostname => (fst hostname, snd hostname)) hostnames.

Definition collectScriptInfo (script : Script) : ScriptInfo :=
  mkScriptInfo (ScriptID script) (ScriptOutput script)
    (map (fun elem => (fst elem, snd elem)) (ScriptElements script))
    (map (fun table => (fst table, map (fun elem => (fst elem, snd elem)) (snd table)))
       (ScriptTables script)).

Definition collectPortInfo (ports : list Port) : list PortInfo * list ServiceInfo :=
  (map (fun port =>
          mkPortInfo (PortID port) (Protocol port) (PortState port)
            (ServiceName (PortService port)))
     ports,
   flat_map (fun port =>
               if negb (String.eqb (ServiceString (PortService port)) "")
               then [mkServiceInfo (PortService port)
                       (map collectScriptInfo (PortScripts port))]
               else [])
     ports).

Definition collectExtraPortInfo (ports : list ExtraPort)
    (portInfoList : list PortInfo) : list PortInfo :=
  portInfoList
    ++ map (fun port => mkPortInfo (Count port) "unknown" (ExtraState port) "unknown")
         ports.

Definition collectOSInfo (matches : list OSMatch) : list OSInfo :=
  map (fun m => mkOSInfo (MatchName m) (MatchAccuracy m) (MatchClasses m)
                  (MatchLine m))
    matches.

Definition parseScanResults `{ScoutEnv} (hosts : list Host) : list HostInfo :=
  map (fun hostResult =>
         let '(ports, services) := collectPortInfo (Ports hostResult) in
         mkHostInfo (collectIPInfo (Addresses hostResult))
           (collectHostnameInfo (Hostnames hostResult))
           (collectExtraPortInfo (ExtraPorts hostResult) ports)
           services
           (collectOSInfo (OSMatches hostResult))
           (collectVulnerabilityInfo (HostScripts hostResult)))
    hosts.

(** *** Scanning *)

(** [nmap.NewScanner(options...)], which may return an error, and
    [scanner.Run()] on the scanner it made: the hosts of the result, or the
    error. *)
Class Nmap := {
  NewScanner : list NmapOption -> option string;
  Run : list NmapOption -> Crawler.res (list Host)
}.

(** [scanHost]: the hosts, the error, and the configuration as the call
    leaves it. *)
Definition scanHost `{ScoutEnv} `{Nmap} (cfg : ServiceScoutConfig)
    (platform : PlatformInfo) (ip : string)
  : list HostInfo * option string * ServiceScoutConfig :=
  let ip := TrimSpace ip in
  if String.eqb ip "" then ([], Some "empty IP address", cfg)
  else
    let '(options, cfg) := buildNmapOptions cfg ip platform in
    match NewScanner options with
    | Some e => ([], Some ("unable to create nmap scanner: " ++ e)%string, cfg)
    | None =>
        match Run options with
        | Crawler.Err e =>
            ([], Some ("ServiceScout scan failed: " ++ e)%string, cfg)
        | Crawler.Val hosts => (parseScanResults hosts, None, cfg)
        end
    end.

(** The body of the goroutine of [scanHosts] for one address, up to the
    point where it takes the mutex: the hosts it will append. *)
Definition hostsOf `{ScoutEnv} `{Nmap} (cfg : ServiceScoutConfig)
    (platform : PlatformInfo) (ip : string)
  : list HostInfo * ServiceScoutConfig :=
  let '(hosts, _, cfg) := scanHost cfg platform ip in
  let hosts :=
    if Z.of_nat (length hosts) =? 0 then
      let IPInfoItem :=
        mkIPInfoDetails ip
          (if CheckIPVersion ip =? 6 then "ipv6" else "ipv4") "unknown" in
      hosts ++ [mkHostInfo [IPInfoItem] [] [] [] [] []]
    else hosts in
  (hosts, cfg).

(** [scanHosts]: one goroutine per address; [order] lists the addresses in
    the order in which the goroutines run (each builds its options from the
    configuration the goroutines before it have left, and appends its hosts
    under the mutex).  The error it returns is always nil. *)
Fixpoint scanHosts `{ScoutEnv} `{Nmap} (cfg : ServiceScoutConfig)
    (platform : PlatformInfo) (order : list string) (fHosts : list HostInfo)
  : list HostInfo :=
  match order with
  | [] => fHosts
  | ip :: rest =>
      let '(hosts, cfg) := hostsOf cfg platform ip in
      scanHosts cfg platform rest (fHosts ++ hosts)
  end.

End ServiceScout.

(** ** Package [crawler]: execution plans of action rules *)
Module Plans.
Import GoStr Ruleset Engine Crawler ActionRules.

(** A [cfg.ExecutionPlanItem]; [UrlPatterns] is the field of that name of
    its [Conditions]. *)
Record ExecutionPlanItem := mkExecutionPlanItem {
  Label : string;
  UrlPatterns : list string;
  AdditionalConditions : gmap string value;
  Rulesets : list string;
  RuleGroups : list string;
  Rules : list string
}.

(** What the code asks of the rule engine ([ctx.re]) about collections of
    action rules, and of the browser about its location.  A lookup by name
    gives [None] when the engine returns an error, and otherwise the rules
    the code takes from the collection: [rg.GetActionRules()] of a rule
    group, [rs.GetAllEnabledActionRules()] of a ruleset.  A lookup by URL
    returns a collection (which may be nil) or an error. *)
Class RuleBook (W : Type) := {
  GetRuleGroupByName : string -> W -> option (list ActionRule);
  GetRulesetByName : string -> W -> option (list ActionRule);
  GetRulesetByURL : string -> W -> res (option (list ActionRule));
  GetRuleGroupByURL : string -> W -> res (option (list ActionRule));
  CurrentURL : W -> (string * option string) * W
}.

Section WithRuleBook.
Context {W : Type} `{Session W} `{RuleBook W}.

(** [ctx.Status.TotalActions += n], as [n] increments. *)
Fixpoint addTotalActions (n : nat) : M W unit :=
  match n with
  | O => ret tt
  | S n' => let* _ := emit Counted in addTotalActions n'
  end.

(** [executePlannedRules], on [planned.Rules]. *)
Fixpoint executePlannedRules (names : list string) : M W unit :=
  match names with
  | [] => ret tt
  | ruleName :: rest =>
      let* _ :=
        if String.eqb ruleName "" then ret tt             (* continue *)
        else executeActionRuleByName ruleName in
      executePlannedRules rest
  end.

(** [executePlannedRuleGroups], on [planned.RuleGroups]. *)
Fixpoint executePlannedRuleGroups (names : list string) : M W unit :=
  match names with
  | [] => ret tt
  | ruleGroupName :: rest =>
      let* _ :=
        if String.eqb (TrimSpace ruleGroupName) "" then ret tt   (* continue *)
        else
          let* rg := ask (GetRuleGroupByName ruleGroupName) in
          match rg with
          | None => ret tt                                 (* logged *)
          | Some rules =>
              let* _ := executeActionRules rules in
              addTotalActions (length rules)
          end in
      executePlannedRuleGroups rest
  end.

(** [executePlannedRulesets], on [planned.Rulesets]. *)
Fixpoint executePlannedRulesets (names : list string) : M W unit :=
  match names with
  | [] => ret tt
  | rulesetName :: rest =>
      let* _ :=
        if String.eqb rulesetName "" then ret tt           (* continue *)
        else
          let* rs := ask (GetRulesetByName rulesetName) in
          match rs with
          | None => ret tt                                 (* logged *)
          | Some rules => executeActionRules rules
          end in
      executePlannedRulesets rest
  end.

(** The execution plan of [DefaultActionConfig(url)]. *)
Definition DefaultActionConfig (url : string) : list ExecutionPlanItem :=
  [mkExecutionPlanItem "Default Execution Plan" [url] ∅ []
     ["CookieAcceptanceRulesExtended"] []].

(** The loop of [runDefaultActionRules] over the execution plan. *)
Fixpoint runPlan (plan : list ExecutionPlanItem) (url : string) : M W unit :=
  match plan with
  | [] => ret tt
  | r :: rest =>
      let* _ :=
        if negb (checkActionPreConditions (UrlPatterns r) url) then ret tt
        else
          let* ok := checkActionConditions (AdditionalConditions r) in
          if negb ok then ret tt
          else
            let* _ :=
              if 0 <? Z.of_nat (length (Rulesets r))
              then executePlannedRulesets (Rulesets r) else ret tt in
            let* _ :=
              if 0 <? Z.of_nat (length (RuleGroups r))
              then executePlannedRuleGroups (RuleGroups r) else ret tt in
            if 0 <? Z.of_nat (length (Rules r))
            then executePlannedRules (Rules r) else ret tt in
      runPlan rest url
  end.

Definition runDefaultActionRules : M W unit :=
  let* cur := call CurrentURL in
  let url := match snd cur with Some _ => "" | None => fst cur end in
  let rs := DefaultActionConfig url in
  if Z.of_nat (length rs) =? 0 then ret tt
  else runPlan rs url.

(** [processURLRules]. *)
Definition processURLRules (url : string) : M W unit :=
  let* rs := ask (GetRulesetByURL url) in
  match rs with
  | Val (Some rules) => executeActionRules rules
  | Val None => ret tt
  | Err _ =>
      let* rg := ask (GetRuleGroupByURL url) in
      match rg with
      | Val (Some rules) => executeActionRules rules
      | _ => ret tt
      end
  end.

(** The JSON text that selects the default configuration. *)
Definition quote : string := String (ascii_of_nat 34) EmptyString.

Definition default_config : string :=
  ("{" ++ quote ++ "config" ++ quote ++ ":" ++ quote ++ "default" ++ quote ++ "}")%string.

(** [processActionRules]; [config] is [ctx.source.Config], [None] when the
    pointer is nil. *)
Definition processActionRules (config : option string) (url : string) : M W unit :=
  match config with
  | Some raw =>
      if String.eqb (TrimSpace raw) default_config
      then runDefaultActionRules
      else ret tt                                          (* logged *)
  | None => processURLRules url
  end.

End WithRuleBook.

End Plans.

(** ** Package [crawler]: the documents of [scraping_rules.go] *)
Module Documents.
Import GoStr.

(** A Go slice: [None] is the nil slice. *)
Definition slice (A : Type) : Type := option (list A).

(** What [range] goes through. *)
Definition elems {A : Type} (s : slice A) : list A :=
  match s with Some l => l | None => [] end.

(** [append(s, x)]. *)
Definition append_to {A : Type} (s : slice A) (x : A) : slice A :=
  Some (elems s ++ [x]).

(** A value of type [interface{}], by its dynamic type:
    [map[string]interface{}], [[]interface{}], [string], [float64] (by its
    bits), [bool], the nil interface, or a value of any other type.  A map
    stands for its entries: the code ranges over the maps it is given and
    makes the maps it returns. *)
#[warnings="-register-all"]
Inductive jvalue :=
| JMap (m : gmap string jvalue)
| JArr (v : slice jvalue)
| JStr (s : string)
| JNum (bits : Z)
| JBool (b : bool)
| JNil
| JOther (repr : string).

(** The body of the loop of [cleanJSONDocument] for one [value]: what is
    stored under the key, [None] when the key is skipped. *)
Fixpoint cleanValue (value : jvalue) : option jvalue :=
  match value with
  | JMap v => Some (JMap (omap cleanValue v))
  | JArr v =>
      let validArray :=
        match v with
        | Some v =>
            fold_left
              (fun (validArray : slice jvalue) item =>
                 match item with
                 | JMap item => append_to validArray (JMap (omap cleanValue item))
                 | JStr _ | JNum _ | JBool _ | JNil => append_to validArray item
                 | _ => validArray                           (* continue *)
                 end)
              v None
        | None => None                                       (* no iteration *)
        end in
      Some (JArr validArray)
  | JStr _ | JNum _ | JBool _ | JNil => Some value
  | _ => None                                                (* continue *)
  end.

(** [cleanJSONDocument]. *)
Definition cleanJSONDocument (doc : gmap string jvalue) : gmap string jvalue :=
  omap cleanValue doc.

(** *** HTML fragments *)

(** [html.NodeType] and [html.Node] of golang.org/x/net/html; [Children] is
    the list from [FirstChild] along [NextSibling]. *)
Inductive NodeType :=
| ErrorNode | TextNode | DocumentNode | ElementNode | CommentNode | DoctypeNode
| RawNode.

#[warnings="-register-all"]
Inductive Node :=
| mkNode (NType : NodeType) (Data : string) (Attr : list (string * string))
         (Children : list Node).

Definition NType (n : Node) : NodeType := let 'mkNode t _ _ _ := n in t.
Definition Data (n : Node) : string := let 'mkNode _ d _ _ := n in d.
Definition Attr (n : Node) : list (string * string) := let 'mkNode _ _ a _ := n in a.
Definition Children (n : Node) : list Node := let 'mkNode _ _ _ c := n in c.

Definition isElement (t : NodeType) : bool :=
  match t with ElementNode => true | _ => false end.

Definition isText (t : NodeType) : bool :=
  match t with TextNode => true | _ => false end.

(** The items that [parseNode] builds are Go maps, shared and updated in
    place after they have been stored: they live in a heap and are known by
    their address.  A value of an item is a string or, under "children", a
    [[]map[string]interface{}]. *)
Inductive ival :=
| IStr (s : string)
| IKids (refs : list nat).

Record Items := mkItems {
  heap : list (gmap string ival);
  items : slice nat
}.

Definition item_at (st : Items) (ref : nat) : gmap string ival :=
  default ∅ (heap st !! ref).

Definition update (ref : nat) (m : gmap string ival) (st : Items) : Items :=
  mkItems (<[ref := m]> (heap st)) (items st).

(** [createNewItem]: the map, before it is given an address. *)
Definition createNewItem (n : Node) : gmap string ival :=
  let newItem :=
    fold_left (fun (newItem : gmap string ival) a => <[fst a := IStr (snd a)]> newItem)
      (Attr n) ∅ in
  match Children n with
  | c :: _ =>
      if isText (NType c) then <["text" := IStr (TrimSpace (Data c))]> newItem
      else newItem
  | [] => newItem
  end.

(** [addChild]; [None] is the panic of the type assertion on
    [currentItem["children"]]. *)
Definition addChild (currentItem newItem : nat) (st : Items) : option Items :=
  let m := item_at st currentItem in
  let m := match m !! "children" with
           | Some _ => m
           | None => <["children" := IKids []]> m
           end in
  match m !! "children" with
  | Some (IKids kids) =>
      Some (update currentItem (<["children" := IKids (kids ++ [newItem])]> m) st)
  | _ => None
  end.

(** [addItem]. *)
Definition addItem (newItem : nat) (st : Items) : Items :=
  mkItems (heap st) (append_to (items st) newItem).

(** [parseNode]; [currentItem] is [None] for the nil map. *)
Fixpoint parseNode (n : Node) (currentItem : option nat) (st : Items)
  : option Items :=
  let 'mkNode t data _ children := n in
  if isElement t then
    let m := createNewItem n in
    let newItem := length (heap st) in
    let st := mkItems (heap st ++ [m]) (items st) in
    let st :=
      if 0 <? Z.of_nat (size m) then
        match currentItem with
        | Some currentItem => addChild currentItem newItem st
        | None => Some (addItem newItem st)
        end
      else Some st in
    fold_left
      (fun (st : option Items) c =>
         match st with
         | Some st => parseNode c (Some newItem) st
         | None => None
         end)
      children st
  else if isText t && negb (String.eqb (TrimSpace data) "") then
    match currentItem with
    | Some currentItem =>
        if Z.of_nat (size (item_at st currentItem)) =? 0
        then Some (update currentItem
                     (<["text" := IStr (TrimSpace data)]> (item_at st currentItem)) st)
        else Some st
    | None => Some st
    end
  else Some st.

(** The closure [f] of [StrIsHTML]: whether the flag is set in the tree
    of [n]. *)
Fixpoint hasElement (n : Node) : bool :=
  let 'mkNode t data _ children := n in
  (isElement t && negb (String.eqb data "html") && negb (String.eqb data "head")
   && negb (String.eqb data "body"))
  || existsb hasElement children.

(** What the code asks of golang.org/x/net/html and of encoding/json. *)
Class Codec := {
  (** [html.Parse(strings.NewReader(s))] *)
  Parse : string -> Crawler.res Node;
  (** [json.Valid([]byte(s))] *)
  Valid : string -> bool;
  (** [json.Unmarshal([]byte(s), &jsonData)] into an [interface{}] *)
  Unmarshal : string -> Crawler.res jvalue;
  (** [json.MarshalIndent(data, "", "    ")] of the items *)
  MarshalIndent : Items -> Crawler.res string
}.

Section WithCodec.
Context `{Codec}.

(** [parseHTML]; the outer [None] is a panic. *)
Definition parseHTML (htmlData : string) : option (Crawler.res Items) :=
  match Parse htmlData with
  | Crawler.Err e => Some (Crawler.Err e)
  | Crawler.Val doc =>
      match parseNode doc None (mkItems [] None) with
      | Some st => Some (Crawler.Val st)
      | None => None
      end
  end.

(** [toJSON]. *)
Definition toJSON (data : Items) : Crawler.res string := MarshalIndent data.

(** [ProcessHTMLToJSON]. *)
Definition ProcessHTMLToJSON (htmlData : string) : option (Crawler.res string) :=
  match parseHTML htmlData with
  | None => None
  | Some (Crawler.Err e) => Some (Crawler.Err e)
  | Some (Crawler.Val items) => Some (toJSON items)
  end.

(** [StrIsHTML]. *)
Definition StrIsHTML (s : string) : bool :=
  if negb (Contains s "<") && negb (Contains s ">") then false
  else
    match Parse s with
    | Crawler.Err _ => false
    | Crawler.Val doc => hasElement doc
    end.

(** The string case of [processExtractedData]: the value stored under the
    key, [None] for a panic. *)
Definition processString (v : string) : option jvalue :=
  let html := fun _ : unit =>
    if StrIsHTML v then
      match ProcessHTMLToJSON v with
      | None => None
      | Some (Crawler.Val jsonData) => Some (JStr jsonData)
      | Some (Crawler.Err _) => Some (JStr v)                (* raw string *)
      end
    else Some (JStr v) in
  if Valid v then
    match Unmarshal v with
    | Crawler.Val jsonData => Some jsonData                  (* continue *)
    | Crawler.Err _ => html tt
    end
  else html tt.

(** The keys that [processExtractedData] refuses. *)
Definition refused (key : string) : bool :=
  String.eqb key "" || String.eqb key "false" || String.eqb key "true".

(** The maps of a panic: a map of outcomes is a map of values unless one of
    the outcomes is a panic. *)
Definition unless_panic (m : gmap string (option jvalue))
  : option (gmap string jvalue) :=
  if decide (map_Forall (fun _ o => is_Some o) m) then Some (omap id m) else None.

(** The body of the loop of [processExtractedData] for the [data] of a key
    that is not refused: the value stored, [None] for a panic. *)
Fixpoint processValue (data : jvalue) : option jvalue :=
  match data with
  | JStr v => processString v
  | JMap v => Some (JMap v)
  | JArr v =>
      let processedArray :=
        match v with
        | Some v =>
            fold_left
              (fun (processedArray : option (slice jvalue)) item =>
                 match processedArray, item with
                 | Some processedArray, JMap item =>
                     match unless_panic
                             (map_imap (fun key data =>
                                          if refused key then None
                                          else Some (processValue data)) item) with
                     | Some processed =>
                         Some (append_to processedArray (JMap processed))
                     | None => None
                     end
                 | _, _ => processedArray                    (* continue *)
                 end)
              v (Some None)
        | None => Some None                                  (* no iteration *)
        end in
      match processedArray with
      | Some processedArray => Some (JArr processedArray)
      | None => None
      end
  | JBool v => Some (JBool v)
  | _ => Some data
  end.

(** [processExtractedData]; [None] is a panic. *)
Definition processExtractedData (extractedData : gmap string jvalue)
  : option (gmap string jvalue) :=
  unless_panic
    (map_imap (fun key data => if refused key then None else Some (processValue data))
       extractedData).

End WithCodec.

End Documents.

(** ** Package [crawler]: the scraping rules of a page *)
Module ScrapingPlans.
Import GoStr Ruleset Engine Crawler ScrapingRules Plans.

(** What the code asks of the rule engine ([ctx.re]) about scraping rules.
    A lookup by URL returns a collection (which may be nil) or an error; of
    the collection the code takes [rg.GetScrapingRules()] of a rule group
    and [rs.GetAllEnabledScrapingRules()] of a ruleset. *)
Class ScrapeBook (W : Type) := {
  GetScrapingRuleByName : string -> W -> res ScrapingRule;
  ScrapingRuleGroupByURL : string -> W -> res (option (list ScrapingRule));
  ScrapingRulesetByURL : string -> W -> res (option (list ScrapingRule))
}.

Section WithBooks.
Context {W : Type} `{Session W} `{RuleBook W} `{ScrapeBook W}.

(** The loop of [executeRulesInExecutionPlan] over [epi.Rules], with the
    current value of [scrapedDataDoc]. *)
Fixpoint planLoop (names : list string) (scrapedDataDoc : string) : M W string :=
  match names with
  | [] => ret scrapedDataDoc
  | ruleName :: rest =>
      if String.eqb ruleName "" then planLoop rest scrapedDataDoc   (* continue *)
      else
        let* rule := ask (GetScrapingRuleByName ruleName) in
        match rule with
        | Err _ => planLoop rest scrapedDataDoc              (* logged *)
        | Val rule =>
            let* r := executeScrapingRule rule in
            match snd r with
            | Some _ => planLoop rest scrapedDataDoc         (* logged *)
            | None => planLoop rest (scrapedDataDoc ++ fst r)%string
            end
        end
  end.

(** [executeRulesInExecutionPlan]. *)
Definition executeRulesInExecutionPlan (epi : ExecutionPlanItem) : M W string :=
  planLoop (Rules epi) "".

(** The execution plan of [DefaultCrawlingConfig(url)]. *)
Definition DefaultCrawlingConfig (url : string) : list ExecutionPlanItem :=
  [mkExecutionPlanItem "Default Execution Plan" [url] ∅ [] [] [""]].

(** The loop of [runDefaultScrapingRules] over the execution plan. *)
Fixpoint scrapePlan (plan : list ExecutionPlanItem) (url scrapedDataDoc : string)
  : M W string :=
  match plan with
  | [] => ret scrapedDataDoc
  | r :: rest =>
      if negb (checkScrapingPreConditions (UrlPatterns r) url)
      then scrapePlan rest url scrapedDataDoc                (* continue *)
      else
        let* data := executeRulesInExecutionPlan r in
        scrapePlan rest url (addScrapedDataToDocument scrapedDataDoc data)
  end.

(** [runDefaultScrapingRules]. *)
Definition runDefaultScrapingRules : M W string :=
  let* cur := call CurrentURL in
  let url := match snd cur with Some _ => "" | None => fst cur end in
  scrapePlan (DefaultCrawlingConfig url) url "".

(** Whether [executeScrapingRulesByURL] adds the data of the rule group. *)
Definition worth_adding (data : string) : bool :=
  negb (String.eqb data "") && negb (String.eqb data "{}")
  && negb (String.eqb data "false") && negb (String.eqb data "true").

(** [executeScrapingRulesByURL]. *)
Definition executeScrapingRulesByURL (url : string) : M W (string * option string) :=
  let scrapedDataDoc := "" in
  let* rg := ask (ScrapingRuleGroupByURL url) in
  let* r :=
    match rg with
    | Val (Some rules) =>
        let* r := executeScrapingRulesInRuleGroup rules in
        let data := TrimSpace (fst r) in
        ret (if worth_adding data
             then addScrapedDataToDocument scrapedDataDoc data
             else scrapedDataDoc, snd r)
    | Val None => ret (scrapedDataDoc, None)
    | Err e => ret (scrapedDataDoc, Some e)
    end in
  let '(scrapedDataDoc, err) := r in
  match err with
  | Some e => ret (scrapedDataDoc, Some e)
  | None =>
      let* rs := ask (ScrapingRulesetByURL url) in
      match rs with
      | Val (Some rules) =>
          let* r := executeScrapingRulesInRuleset rules in
          ret (addScrapedDataToDocument scrapedDataDoc (fst r), snd r)
      | Val None => ret (scrapedDataDoc, None)
      | Err e => ret (scrapedDataDoc, Some e)
      end
  end.

(** [processScrapingRules]; [config] is [ctx.source.Config], [None] when
    the pointer is nil. *)
Definition processScrapingRules (config : option string) (url : string)
  : M W (string * option string) :=
  let scrapedDataDoc := "" in
  let* scrapedDataDoc :=
    match config with
    | Some raw =>
        if String.eqb (TrimSpace raw) default_config then
          let* data := runDefaultScrapingRules in
          ret (addScrapedDataToDocument scrapedDataDoc data)
        else ret scrapedDataDoc                              (* logged *)
    | None => ret scrapedDataDoc
    end in
  let* r := executeScrapingRulesByURL url in
  ret (("{" ++ addScrapedDataToDocument scrapedDataDoc (fst r) ++ "}")%string, snd r).

End WithBooks.

End ScrapingPlans.

(* ===================================================================== *)
(** * Part II: vocabulary of the properties, and data for the examples    *)
(* ===================================================================== *)

Section ClaimDefs.
Import Sql.

(** A source that is due for a crawl, read off its row: it is enabled, and
    it was never updated, or not for three days, or it is in error and was
    not updated for fifteen minutes, or completed and not updated for a
    week, or pending, new or without a status. *)
Definition eligible (now : Z) (s : Source) : Prop :=
  disabled s = Some false /\
  (last_updated_at s = None \/
   (exists t, last_updated_at s = Some t /\ t < now - three_days) \/
   (status s = Some "error" /\
    exists t, last_updated_at s = Some t /\ t < now - fifteen_minutes) \/
   (status s = Some "completed" /\
    exists t, last_updated_at s = Some t /\ t < now - one_week) \/
   status s = Some "pending" \/ status s = Some "new" \/ status s = None).

(** The rows one call picks, and what it makes of a row. *)
Definition picked (now limit_val : Z) (tbl : list Source) : list Source :=
  firstn (Z.to_nat limit_val) (List.filter (fun s => holds (selectable now s)) tbl).

Definition claim (now : Z) (s : Source) : Source :=
  update_last_updated_at_column now (set_processing s).

End ClaimDefs.

Section DispatcherDefs.
Import Sql Dispatcher.

Definition pending_source : Source :=
  mkSource 1 None "http://a.test/" (Some "pending") None None None
    (Some 2) (Some false) (Some 0) None.

Definition disabled_source : Source :=
  mkSource 2 None "http://b.test/" (Some "completed") (Some 0) None None
    (Some 2) (Some true) (Some 0) None.

End DispatcherDefs.

Section ReleaseDefs.
Import Sql Crawler.

(** What the release leaves alone in a row it updates. *)
Definition identity_kept (s s' : Source) : Prop :=
  source_id s' = source_id s /\ url s' = url s /\
  restricted s' = restricted s /\ disabled s' = disabled s /\
  flags s' = flags s /\ config s' = config s.

(** A row before and after a release at time [now] with outcome
    [crawlError]. *)
Definition released (now : Z) (crawlError : option string) (s s' : Source) : Prop :=
  identity_kept s s' /\
  last_crawled_at s' = Some now /\
  last_updated_at s' = Some now /\
  match crawlError with
  | None =>
      status s' = Some "completed" /\
      last_error s' = last_error s /\ last_error_at s' = last_error_at s
  | Some msg =>
      status s' = Some "error" /\
      last_error s' = Some msg /\ last_error_at s' = Some now
  end.

Definition failed_source : Source :=
  mkSource 7 (Some 100) "http://a.test/" (Some "error") (Some 100)
    (Some "timeout") (Some 100) (Some 2) (Some false) (Some 0) None.

Definition catalog_with_failed_source : Handler :=
  mkHandler (mkTables [failed_source] [] [] [] [] []) 0 0 [] 5000 [].

End ReleaseDefs.

Section IndexDefs.
Import Sql Crawler.

(** What a call on the handle may change in the committed tables while a
    transaction is open: nothing, except that Keywords may have gained
    rows. *)
Definition only_keywords_added (t t' : Tables) : Prop :=
  Sources t' = Sources t /\ SearchIndex t' = SearchIndex t /\
  SourceSearchIndex t' = SourceSearchIndex t /\ MetaTags t' = MetaTags t /\
  KeywordIndex t' = KeywordIndex t /\
  exists added, Keywords t' = Keywords t ++ added.

(** The error is one that [insertKeywordWithRetries] retries. *)
Definition deadlock (e : string) : Prop :=
  GoStr.Contains e "deadlock detected" = true.

(** What [insertKeywordWithRetries] asks of the handle when it returns a
    keyword id: the connection check, then the upsert, which succeeds at the
    first attempt, or at the second after a deadlock and a pause of 0 ms, or
    at the third after a second deadlock and a pause of 100 ms. *)
Inductive keyword_stored : list db_event -> Prop :=
| first_attempt :
    keyword_stored [Called None; Called None]
| second_attempt (d1 : string) :
    deadlock d1 ->
    keyword_stored [Called None; Called (Some d1); Paused 0; Called None]
| third_attempt (d1 d2 : string) :
    deadlock d1 -> deadlock d2 ->
    keyword_stored [Called None; Called (Some d1); Paused 0;
                    Called (Some d2); Paused 100; Called None].

(** What it asks of the handle when it returns the error [e]: the
    connection check failed with [e]; or an attempt failed with [e], which
    is not a deadlock; or the third attempt failed with [e], deadlock or
    not.  Every attempt before the failing one ended in a deadlock. *)
Inductive keyword_refused (e : string) : list db_event -> Prop :=
| no_connection :
    keyword_refused e [Called (Some e)]
| first_refused :
    ~ deadlock e ->
    keyword_refused e [Called None; Called (Some e)]
| second_refused (d1 : string) :
    deadlock d1 -> ~ deadlock e ->
    keyword_refused e [Called None; Called (Some d1); Paused 0; Called (Some e)]
| third_refused (d1 d2 : string) :
    deadlock d1 -> deadlock d2 ->
    keyword_refused e [Called None; Called (Some d1); Paused 0;
                       Called (Some d2); Paused 100; Called (Some e)].

(** What [insertKeywords] asks of the handle when it returns no error on [n]
    keywords: for each keyword a stored upsert, then the INSERT of its
    posting, which succeeds. *)
Inductive postings_stored : nat -> list db_event -> Prop :=
| no_keyword : postings_stored 0 []
| one_more (n : nat) (t rest : list db_event) :
    keyword_stored t -> postings_stored n rest ->
    postings_stored (S n) (t ++ Called None :: rest).

End IndexDefs.

Section IndexData.
Import Sql Crawler.

(** A page with one keyword. *)
Definition hello_extractor : KeywordExtractor := fun _ => ["hello"].

Definition hello_page : PageInfo :=
  mkPageInfo "Hello" "" "hello" ∅ "en" "UNKNOWN" 1.

Definition empty_tables : Tables := mkTables [] [] [] [] [] [].

(** The connection check, BEGIN, the two statements of the page upsert, the
    keyword's connection check and its upsert succeed; the INSERT into
    KeywordIndex fails. *)
Definition posting_fails : Handler :=
  mkHandler empty_tables 0 0
    [None; None; None; None; None; None; Some "pq: connection reset"] 0 [].

(** The keyword upsert meets three deadlocks in a row. *)
Definition three_deadlocks : Handler :=
  mkHandler empty_tables 0 0
    [None; Some "pq: deadlock detected"; Some "pq: deadlock detected";
     Some "pq: deadlock detected"; None] 0 [].

(** The keyword upsert meets an error that is not a deadlock. *)
Definition disk_full : Handler :=
  mkHandler empty_tables 0 0 [None; Some "pq: disk full"; None] 0 [].

(** The keyword upsert meets one deadlock, then succeeds. *)
Definition one_deadlock : Handler :=
  mkHandler empty_tables 0 0 [None; None; None; None; None;
                              Some "pq: deadlock detected"] 42 [].

(** No call fails. *)
Definition healthy : Handler := mkHandler empty_tables 0 0 [] 42 [].

End IndexData.

Section LabelDefs.
Import GoStr.

(** The separator does not occur in [s]. *)
Fixpoint free_of (sep : ascii) (s : string) : bool :=
  match s with
  | EmptyString => true
  | String c t => negb (Ascii.eqb c sep) && free_of sep t
  end.

End LabelDefs.

Section ScopeDefs.
Import GoStr Links.

(** The last [k] labels of a host name. *)
Definition labels (k : nat) (host : string) : list string :=
  lastn k (Split "." host).

(** A URL parser that knows nothing, for statements that hold whatever the
    parser says. *)
Definition no_parser : NetURL :=
  {| url_Parse := fun _ => None; url_ParseRequestURI_ok := fun _ => true |}.

(** What [url.Parse] returns for the seed [http://a.test/] and the
    protocol-relative link [//other.test/x]. *)
Definition two_url_parser : NetURL :=
  {| url_Parse := fun u =>
       if String.eqb u "http://a.test/"
       then Some (mkURL "http" "a.test" "a.test" "http://a.test/")
       else if String.eqb u "//other.test/x"
       then Some (mkURL "" "other.test" "other.test" "//other.test/x")
       else None;
     url_ParseRequestURI_ok := fun _ => true |}.

End ScopeDefs.

Section LinkData.
Import GoStr Links.

(** A page of the site [http://a.test/] with one absolute and one relative
    link, and the tree the HTML parser builds for it. *)
Definition page_source : string :=
  "<html><head></head><body><a href='http://a.test/c'>next</a><a href='/b'>more</a></body></html>".

Definition page_tree : list node :=
  [ElementNode "html" []
     [ElementNode "head" [] [];
      ElementNode "body" []
        [ElementNode "a" [("href", "http://a.test/c")] [TextNode "next"];
         ElementNode "a" [("href", "/b")] [TextNode "more"]]]].

(** The HTML parser on the inputs of this example: the page, and text
    without markup, which it wraps into a body. *)
Definition page_parser : HtmlParser := fun s =>
  if String.eqb s page_source then page_tree
  else [ElementNode "html" []
          [ElementNode "head" [] []; ElementNode "body" [] [TextNode s]]].

(** [net/url] on the URLs of this example. *)
Definition site_urls : NetURL :=
  {| url_Parse := fun u =>
       if String.eqb u "http://a.test/"
       then Some (mkURL "http" "a.test" "a.test" "http://a.test/")
       else if String.eqb u "http://a.test/b"
       then Some (mkURL "http" "a.test" "a.test" "http://a.test/b")
       else if String.eqb u "http://a.test/c"
       then Some (mkURL "http" "a.test" "a.test" "http://a.test/c")
       else if String.eqb u "http://other.test/"
       then Some (mkURL "http" "other.test" "other.test" "http://other.test/")
       else None;
     url_ParseRequestURI_ok := fun u =>
       existsb (String.eqb u)
         ["http://a.test/"; "http://a.test/b"; "http://a.test/c";
          "http://other.test/"; "http:///b"] |}.

End LinkData.

Section LogDefs.
Import Ruleset Engine.
Context {W : Type}.

(** Whatever the outcome, [c] appends to the log, and only events that
    satisfy [P]. *)
Definition adds {A} (P : event -> Prop) (c : M W A) : Prop :=
  forall s, exists l, log (final (c s)) = log s ++ l /\ Forall P l.

End LogDefs.

Section GuardDefs.
Import GoStr Ruleset Engine.
Context {W : Type} `{Session W}.

Definition lang_script : string := "return document.documentElement.lang".

End GuardDefs.

Section RetryDefs.
Import GoStr Ruleset Engine ActionRules.
Context {W : Type} `{Session W}.

(** The state after the pause before a retry: [time.Sleep] is called only
    for a positive [RetryDelay]. *)
Definition pause (r : ActionRule) (s : St W) : St W :=
  if 0 <? RetryDelay (ErrHandling r)
  then mkSt (world s) (log s ++ [Slept (RetryDelay (ErrHandling r))])
  else s.

(** [attempts_from r s os s']: starting in [s], the rule is executed
    [length os] times with outcomes [os], every execution but the last
    returning an error and being followed by the pause; [s'] is the state
    after the last execution. *)
Inductive attempts_from (r : ActionRule) : St W -> list (option string) -> St W -> Prop :=
| attempts_last s o s1 :
    executeActionRule r s = Ret o s1 ->
    attempts_from r s [o] s1
| attempts_retry s e s1 os s2 :
    executeActionRule r s = Ret (Some e) s1 ->
    attempts_from r (pause r s1) os s2 ->
    attempts_from r s (Some e :: os) s2.

End RetryDefs.

Section EngineData.
Import GoStr Ruleset Engine.

(** A page with a language, a plugin registry, the values scripts return,
    the number of actions that are still going to fail, the scraping rules
    whose application reports an error, the action rules known by name, and
    the selectors that match an element. *)
Record Browser := mkBrowser {
  page_lang : string;
  registry : list (string * string);
  script_results : list (string * value);
  failing_actions : nat;
  scrape_errors : list (string * string);
  known_rules : list ActionRule;
  elements : list string
}.

Definition assoc {A} (k : string) (l : list (string * A)) : option A :=
  option_map snd (List.find (fun kv => String.eqb (fst kv) k) l).

#[global] Instance browser_session : Session Browser := {|
  FindElement := fun _ value w =>
    if existsb (String.eqb value) (elements w)
    then ((Some value, None), w)
    else ((None, Some "no such element"), w);
  GetAttribute := fun _ _ w => (("", None), w);
  Click := fun _ w => (None, w);
  matchValue := fun _ _ w => (false, w);
  ExecuteScript := fun js w =>
    if String.eqb js "return document.documentElement.lang"
    then ((VStr (page_lang w), None), w)
    else match assoc js (script_results w) with
         | Some v => ((v, None), w)
         | None => ((VNil, Some "javascript error"), w)
         end;
  GetPlugin := fun name w => assoc name (registry w);
  GetActionRuleByName := fun name w =>
    List.find (fun r => String.eqb (RuleName r) name) (known_rules w);
  performAction := fun _ _ w =>
    match failing_actions w with
    | O => (None, w)
    | S n => (Some "element not interactable",
              mkBrowser (page_lang w) (registry w) (script_results w) n
                (scrape_errors w) (known_rules w) (elements w))
    end;
  WaitForCondition := fun _ w => (None, w);
  scrape := fun r w =>
    match assoc (SRuleName r) (scrape_errors w) with
    | Some e => (("", [e]), w)
    | None => ((SRuleName r ++ ":1", [])%string, w)
    end
|}.

(** A French page; the plugin "always" returns the string "true". *)
Definition french_page : Browser :=
  mkBrowser "fr" [("always", "return 'true'")] [("return 'true'", VStr "true")]
    0 [] [] [].

Definition start (w : Browser) : St Browser := mkSt w [].

(** An action rule for English pages only, which also calls the plugin. *)
Definition english_only_click : ActionRule :=
  mkActionRule "accept-cookies" "click" [] "" []
    (<["language" := VStr "en"]>
       (<["plugin_call" := VStr "always"]> (<["selector" := VStr "always"]> ∅)))
    (mkErrorHandling true 0 0).

(** The same guard without the plugin call. *)
Definition english_only_click_plain : ActionRule :=
  mkActionRule "accept-cookies" "click" [] "" []
    (<["language" := VStr "en"]> ∅) (mkErrorHandling true 0 0).

Definition english_only_scrape : ScrapingRule :=
  mkScrapingRule "headline" [] (<["language" := VStr "en"]> ∅).

(** Two scraping rules; applying the first reports a critical error. *)
Definition broken_then_fine : list ScrapingRule :=
  [mkScrapingRule "price" [] ∅; mkScrapingRule "title" [] ∅].

Definition price_is_critical : Browser :=
  mkBrowser "en" [] [] 0 [("price", "Critical: selector engine crashed")] [] [].

(** A rule whose action fails as long as the browser says so, with two
    retries one second apart. *)
Definition stubborn_hover : ActionRule :=
  mkActionRule "open-menu" "mouse_hover" [] "" [] ∅ (mkErrorHandling false 2 1).

Definition menu_never_opens : Browser :=
  mkBrowser "en" [] [] 3 [] [stubborn_hover] [].

Definition menu_opens_late : Browser :=
  mkBrowser "en" [] [] 1 [] [stubborn_hover] [].

(** A click on a selector that matches nothing, with two retries; the page
    has one element, which another selector matches. *)
Definition click_on_absent : ActionRule :=
  mkActionRule "dismiss-banner" "click" [mkSelector "css" "#banner" "" "" ""] ""
    [] ∅ (mkErrorHandling false 2 1).

Definition page_without_banner : Browser :=
  mkBrowser "en" [] [] 0 [] [] ["#content"].

End EngineData.

(** ** Vocabulary and data for the rest of the code *)

Section LeaseDefs.
Import Sql.

(** The ids of the rows a call of [update_sources] returned. *)
Definition ids (ret : list Claimed) : list Z := map c_source_id ret.

(** Calls of [update_sources] one after the other, each given as its time
    and its limit and each run on the table the call before it has left:
    the rows every call returned, and the table after the last. *)
Fixpoint calls (reqs : list (Z * Z)) (tbl : list Source)
  : option (list (list Claimed) * list Source) :=
  match reqs with
  | [] => Some ([], tbl)
  | (now, limit_val) :: rest =>
      match update_sources now limit_val tbl with
      | None => None
      | Some (ret, tbl') =>
          match calls rest tbl' with
          | None => None
          | Some (rets, t) => Some (ret :: rets, t)
          end
      end
  end.

(** A row that a crawler holds: flipped to 'processing' at or after [lo]. *)
Definition leased (lo : Z) (s : Source) : Prop :=
  status s = Some "processing" /\
  exists t, last_updated_at s = Some t /\ lo <= t.

(** Three sources that are due, for the examples. *)
Definition three_new_sources : list Source :=
  [mkSource 1 None "http://a.test/" (Some "new") None None None
     (Some 2) (Some false) (Some 0) None;
   mkSource 2 None "http://b.test/" (Some "new") None None None
     (Some 2) (Some false) (Some 0) None;
   mkSource 3 None "http://c.test/" (Some "new") None None None
     (Some 2) (Some false) (Some 0) None].

End LeaseDefs.

Section StoreDefs.
Import Sql Crawler.

(** The rows of MetaTags and of KeywordIndex that one indexing of a page
    adds for the page with id [indexID]. *)
Definition tag_rows (indexID : Z) (tags : gmap string string)
  : list (Z * string * string) :=
  map (fun nc => (indexID, fst nc, snd nc)) (map_to_list tags).

Definition posting_rows (indexID : Z) (kids : list Z) : list (Z * Z) :=
  map (fun kid => (kid, indexID)) kids.

(** The row of SearchIndex that holds what was read off the page. *)
Definition holds_page (now : Z) (u : string) (p : PageInfo)
    (row : SearchIndexRow) : Prop :=
  page_url row = u /\ title row = Title p /\ summary row = Summary p /\
  content row = BodyText p /\
  detected_lang row = strLeft_value (DetectedLang p) 8 /\
  detected_type row = strLeft_value (DetectedType p) 8 /\
  si_last_updated_at row = now.

(** The keyword dictionary is sound: no keyword and no id occurs twice, and
    the sequence is not behind the ids handed out. *)
Definition dictionary_ok (db : Handler) : Prop :=
  List.NoDup (map snd (Keywords (tables db))) /\
  List.NoDup (map fst (Keywords (tables db))) /\
  Forall (fun r => fst r <= keyword_id_seq db) (Keywords (tables db)).

(** The handle's dictionary and its sequence are those of [db]. *)
Definition same_dictionary (db db' : Handler) : Prop :=
  Keywords (tables db') = Keywords (tables db) /\
  keyword_id_seq db' = keyword_id_seq db.

(** A page with two meta tags, and a catalogue in which it is indexed. *)
Definition tagged_page : PageInfo :=
  mkPageInfo "Hello" "" "hello" {["author" := "me"; "robots" := "all"]}
    "en" "UNKNOWN" 1.

Definition indexed_once : Handler :=
  snd (@indexPage hello_extractor healthy "http://a.test/" tagged_page).

End StoreDefs.

Section RoundDefs.
Import CrawlRounds.

(** From round number [k] on, the jobs of every round but the first are
    what the workers of the round before it left. *)
Fixpoint follows (round : Z -> list string -> list string) (k : Z)
    (rounds : list (list string)) : Prop :=
  match rounds with
  | jobs :: ((next :: _) as rest) => next = round k jobs /\ follows round (k + 1) rest
  | _ => True
  end.

(** The workers of the last round found no link. *)
Definition ended_dry (round : Z -> list string -> list string)
    (rounds : list (list string)) : Prop :=
  match last rounds with
  | Some jobs => round (Z.of_nat (length rounds) - 1) jobs = []
  | None => True
  end.

(** A site on which every page links to the next one, for ever. *)
Definition endless_site (depth : Z) (jobs : list string) : list string :=
  map (fun u => (u ++ "/next")%string) jobs.

End RoundDefs.

Section ShotDefs.
Import GoInt Ruleset Engine Crawler Screenshots.
Context {W : Type} `{Session W} `{Camera W}.

(** Screenshots taken at the scroll positions [ys], one after the other,
    up to the first error. *)
Fixpoint shoot_at (ys : list Z) (screenshots : list (list Byte.byte))
  : M W (res (list (list Byte.byte))) :=
  match ys with
  | [] => ret (Val screenshots)
  | y :: rest =>
      let* r := captureAt y in
      match r with
      | Err e => ret (Err e)
      | Val screenshot => shoot_at rest (screenshots ++ [screenshot])
      end
  end.

(** The number of windows of height [windowHeight] it takes to cover
    [totalHeight], and where each begins. *)
Definition windows (totalHeight windowHeight : Z) : nat :=
  Z.to_nat ((totalHeight + windowHeight - 1) / windowHeight).

Definition positions (from windowHeight : Z) (n : nat) : list Z :=
  map (fun k => from + Z.of_nat k * windowHeight) (seq 0 n).

(** The browser does what it is asked. *)
Definition obliging : Prop :=
  (forall script w, snd (fst (ExecuteScript script w)) = None) /\
  (forall w, snd (fst (Screenshot w)) = None).

End ShotDefs.

Section ShotData.
Import Ruleset Engine Screenshots.

(** A browser that counts the screenshots it has taken and never fails. *)
Definition counting_session : Session nat := {|
  FindElement := fun _ _ w => ((None, Some "no such element"), w);
  GetAttribute := fun _ _ w => (("", None), w);
  Click := fun _ w => (None, w);
  ExecuteScript := fun _ w => ((VNil, None), w);
  GetPlugin := fun _ _ => None;
  GetActionRuleByName := fun _ _ => None;
  matchValue := fun _ _ w => (false, w);
  performAction := fun _ _ w => (None, w);
  WaitForCondition := fun _ w => (None, w);
  scrape := fun _ w => (("", []), w)
|}.

#[global] Instance counting_camera : Camera nat := {|
  Screenshot := fun w => (([], None), S w)
|}.

End ShotData.

Section ServerDefs.

(** A Selenium server that is never there, and one that answers the third
    call. *)
Definition never_there (k : nat) : option string := Some "connection refused".

Definition there_at_third (k : nat) : option string :=
  if (k <? 2)%nat then Some "connection refused" else None.

End ServerDefs.

Section ScoutDefs.
Import GoStr ServiceScout.

Definition blank (s : string) : bool := String.eqb (TrimSpace s) "".

(** The servers that count, and whether the list goes on after the last of
    them. *)
Definition named (servers : list string) : list string :=
  map TrimSpace (List.filter (fun s => negb (blank s)) servers).

Definition dangling (servers : list string) : bool :=
  match last servers with Some s => blank s | None => false end
  && existsb (fun s => negb (blank s)) servers.

(** The value of the last element with key [key], [default] when there is
    none. *)
Definition last_value (key default : string) (elems : list (string * string))
  : string :=
  fold_left (fun v elem => if String.eqb (fst elem) key then snd elem else v)
    elems default.


Definition is_scripts (o : NmapOption) : bool :=
  match o with WithScripts _ => true | _ => false end.

Definition is_scan_delay (o : NmapOption) : bool :=
  match o with WithScanDelay _ => true | _ => false end.

(** A configuration that asks for everything, without scripts. *)
Definition full_scan : ServiceScoutConfig :=
  mkServiceScoutConfig true true true true true ["8.8.8.8"; " "] true []
    true 1024 "" true "30" "fast" "5" 3 true.

(** An environment in which numbers are read as written (whole numbers
    only). *)
Definition digits_value (s : string) : Z :=
  fold_left (fun n c => 10 * n + (Z.of_nat (nat_of_ascii c) - 48))
    (list_ascii_of_string s) 0.

Definition all_digits (s : string) : bool :=
  negb (String.eqb s "") &&
  forallb (fun c => (48 <=? nat_of_ascii c)%nat && (nat_of_ascii c <=? 57)%nat)
    (list_ascii_of_string s).

#[global] Instance plain_env : ScoutEnv := {|
  float64 := Z;
  CheckIPVersion := fun ip => if Contains ip ":" then 6 else 4;
  GetFloat := digits_value;
  Duration := fun f => f;
  below_one := fun f => f <? 1;
  plus_one := fun f => f + 1;
  ParseInt16 := fun s => if all_digits s then Some (digits_value s) else None
|}.

End ScoutDefs.

Section ScanDefs.
Import GoStr ServiceScout.

(** The entry [scanHosts] makes up for an address whose scan gave no
    host. *)
Definition placeholder `{ScoutEnv} (ip : string) : HostInfo :=
  mkHostInfo
    [mkIPInfoDetails ip (if CheckIPVersion ip =? 6 then "ipv6" else "ipv4") "unknown"]
    [] [] [] [] [].

(** An nmap that cannot be started. *)
Definition no_nmap : Nmap :=
  {| NewScanner := fun _ => Some "nmap binary was not found";
     Run := fun _ => Crawler.Val [] |}.

End ScanDefs.

Section PlanDefs.
Import GoStr Ruleset Engine ActionRules Plans.

(** The value of [ctx.Status.TotalActions] that a log stands for. *)
Definition TotalActions (l : list event) : nat :=
  length (List.filter (fun e => match e with Counted => true | _ => false end) l).

(** The event is not an increment of [ctx.Status.TotalActions]. *)
Definition uncounted (e : event) : Prop := e <> Counted.

(** The wait condition is of a type for which [executeWaitCondition] does
    nothing. *)
Definition idle_wait (wc : WaitCondition) : bool :=
  let t := ToLower (TrimSpace (ConditionType wc)) in
  String.eqb t "element" || String.eqb t "delay".

Definition without_waits (r : ActionRule) : ActionRule :=
  mkActionRule (RuleName r) (ActionType r) (Selectors r) (Value r) []
    (Conditions r) (ErrHandling r).

(** The selector with another [Value]. *)
Definition with_value (v : string) (sel : Selector) : Selector :=
  mkSelector (SelectorType sel) (SelectorText sel) (AttributeName sel)
    (AttributeValue sel) v.

(** The computation returns from every state: it never panics. *)
Definition returns {W A : Type} (c : M W A) : Prop :=
  forall s, exists a s', c s = Ret a s'.

End PlanDefs.

Section PlanData.
Import GoStr Ruleset Engine ActionRules Plans.

(** A rule book with one rule group of two rules and a ruleset of the same
    rules, on the scripted browser. *)
Definition two_clicks : list ActionRule :=
  [click_on_absent; click_on_absent].

#[global] Instance cookie_book : RuleBook Browser := {|
  GetRuleGroupByName := fun name _ =>
    if String.eqb name "CookieAcceptanceRulesExtended" then Some two_clicks else None;
  GetRulesetByName := fun name _ =>
    if String.eqb name "cookies" then Some two_clicks else None;
  GetRulesetByURL := fun _ _ => Crawler.Val None;
  GetRuleGroupByURL := fun _ _ => Crawler.Val None;
  CurrentURL := fun w => (("http://a.test/", None), w)
|}.

End PlanData.

Section DocumentDefs.
Import GoStr Documents.

(** A measure of a value, for induction through its maps and slices. *)
Fixpoint jsize (v : jvalue) : nat :=
  match v with
  | JMap m => S (map_fold (fun _ x n => (jsize x + n)%nat) O m)
  | JArr (Some l) => S (fold_right (fun x n => (jsize x + n)%nat) O l)
  | _ => 1%nat
  end.

(** A string, a number, a boolean or nil. *)
Definition primitive (v : jvalue) : bool :=
  match v with JStr _ | JNum _ | JBool _ | JNil => true | _ => false end.

Definition is_map (v : jvalue) : bool :=
  match v with JMap _ => true | _ => false end.

(** What a value of a cleaned document looks like: maps of such values,
    primitive values, and slices that are nil or hold, and then at least
    one, maps of such values and primitive values; no slice directly in a
    slice and no value of another type. *)
#[warnings="-register-all"]
Inductive cleaned : jvalue -> Prop :=
| cleaned_map (m : gmap string jvalue) :
    map_Forall (fun _ x => cleaned x) m -> cleaned (JMap m)
| cleaned_nil_slice : cleaned (JArr None)
| cleaned_slice (l : list jvalue) :
    l <> [] ->
    Forall (fun item => cleaned item /\ (is_map item || primitive item = true)) l ->
    cleaned (JArr (Some l))
| cleaned_primitive (v : jvalue) : primitive v = true -> cleaned v.

(** What the loop of [cleanJSONDocument] over a slice appends for an
    item, if anything. *)
Definition cleanItem (item : jvalue) : option jvalue :=
  match item with
  | JMap m => Some (JMap (cleanJSONDocument m))
  | JStr _ | JNum _ | JBool _ | JNil => Some item
  | _ => None
  end.

(** The nil slice for no item. *)
Definition slice_of {A : Type} (l : list A) : slice A :=
  match l with [] => None | _ => Some l end.

(** Every page that the parser returns is rooted in a document node, as
    those of [html.Parse] are. *)
Definition document_rooted `{Codec} : Prop :=
  forall s doc, Parse s = Crawler.Val doc -> NType doc = DocumentNode.

(** No items: the nil slice and an empty heap. *)
Definition no_items : Items := mkItems [] None.

(** The maps among the items of a slice. *)
Definition maps_of (v : slice jvalue) : list jvalue := List.filter is_map (elems v).

(** [x] is the map [item] after [processExtractedData]. *)
Definition processed `{Codec} (item x : jvalue) : Prop :=
  exists m m', item = JMap m /\ x = JMap m' /\ processExtractedData m = Some m'.

(** What is stored for a string that is taken for HTML. *)
Definition html_replacement `{Codec} (s : string) : string :=
  match MarshalIndent no_items with
  | Crawler.Val jsonData => jsonData
  | Crawler.Err _ => s
  end.

End DocumentDefs.

Section DocumentData.
Import GoStr Documents.

(** A parser that reads every string as one page, and a marshaller that
    tells the nil list of items from the others. *)
Definition one_page : Node :=
  mkNode DocumentNode "" []
    [mkNode ElementNode "html" []
       [mkNode ElementNode "head" [] [];
        mkNode ElementNode "body" []
          [mkNode ElementNode "p" [("class", "intro")]
             [mkNode TextNode " hello " [] [];
              mkNode ElementNode "a" [("href", "/next")] []]]]].

#[global] Instance page_codec : Codec := {|
  Parse := fun _ => Crawler.Val one_page;
  Valid := fun _ => false;
  Unmarshal := fun _ => Crawler.Err "invalid character";
  MarshalIndent := fun data =>
    match items data with
    | None => Crawler.Val "null"
    | Some _ => Crawler.Val "[...]"
    end
|}.

Definition a_paragraph : Node :=
  mkNode ElementNode "p" [("class", "intro")]
    [mkNode TextNode " hello " [] [];
     mkNode ElementNode "a" [("href", "/next")] []].

End DocumentData.

Section ScrapePlanData.
Import GoStr Ruleset Engine Crawler ScrapingRules Plans ScrapingPlans.

(** A rule engine that knows a rule group of two rules for every URL, and a
    ruleset of one rule; on [broken_page] the second rule of the group
    fails. *)
Definition price_rule : ScrapingRule := mkScrapingRule "price" [] ∅.
Definition stock_rule : ScrapingRule := mkScrapingRule "stock" [] ∅.
Definition title_rule : ScrapingRule := mkScrapingRule "title" [] ∅.

#[global] Instance shop_book : ScrapeBook Browser := {|
  GetScrapingRuleByName := fun name _ =>
    if String.eqb name "price" then Val price_rule
    else if String.eqb name "stock" then Val stock_rule
    else Err "rule not found";
  ScrapingRuleGroupByURL := fun _ _ => Val (Some [price_rule; stock_rule]);
  ScrapingRulesetByURL := fun _ _ => Val (Some [title_rule])
|}.

Definition broken_page : Browser :=
  mkBrowser "en" [] [] 0 [("stock", "no such element")] [] [].

End ScrapePlanData.

(* ===================================================================== *)
(** * Part III: properties                                                *)
(* ===================================================================== *)

(** ** UTF-8: decoding what was encoded *)
Section Utf8Props.
Import Utf8.

Local Ltac Zify.zify_post_hook ::= Z.to_euclidean_division_equations.

Lemma byte_of_range (c : ascii) : 0 <= byte_of c < 256.
Proof.
  unfold byte_of. pose proof (N_ascii_bounded c). lia.
Qed.

Lemma byte_of_ascii_of (b : Z) : 0 <= b < 256 -> byte_of (ascii_of b) = b.
Proof.
  intros Hb. unfold byte_of, ascii_of.
  rewrite N_ascii_embedding by lia. lia.
Qed.

(** Case analysis on every comparison left in the goal. *)
Ltac cmp_cases :=
  repeat match goal with
         | |- context [?a <? ?b] => destruct (Z.ltb_spec a b)
         | |- context [?a <=? ?b] => destruct (Z.leb_spec a b)
         | |- context [?a =? ?b] => destruct (Z.eqb_spec a b)
         end.

Lemma first_2 (b0 : Z) : 194 <= b0 <= 223 -> first b0 = Some (2, 128, 191).
Proof. intros; unfold first; cmp_cases; try lia; reflexivity. Qed.

Lemma first_3 (b0 : Z) :
  224 <= b0 <= 239 ->
  first b0 = Some (3, if b0 =? 224 then 160 else 128, if b0 =? 237 then 159 else 191).
Proof. intros; unfold first; cmp_cases; try lia; reflexivity. Qed.

Lemma first_4 (b0 : Z) :
  240 <= b0 <= 244 ->
  first b0 = Some (4, if b0 =? 240 then 144 else 128, if b0 =? 244 then 143 else 191).
Proof. intros; unfold first; cmp_cases; try lia; reflexivity. Qed.

Lemma runes_String (c0 : ascii) (t0 : string) :
  runes (String c0 t0) =
  let b0 := byte_of c0 in
  if b0 <? 128 then b0 :: runes t0
  else
    match first b0 with
    | None => RuneError :: runes t0
    | Some (n, lo, hi) =>
        match t0 with
        | EmptyString => RuneError :: runes t0
        | String c1 t1 =>
            let b1 := byte_of c1 in
            if negb ((lo <=? b1) && (b1 <=? hi)) then RuneError :: runes t0
            else if n =? 2 then ((b0 mod 32) * 64 + b1 mod 64) :: runes t1
            else
              match t1 with
              | EmptyString => RuneError :: runes t0
              | String c2 t2 =>
                  let b2 := byte_of c2 in
                  if negb (continuation b2) then RuneError :: runes t0
                  else if n =? 3 then
                    ((b0 mod 16) * 4096 + (b1 mod 64) * 64 + b2 mod 64) :: runes t2
                  else
                    match t2 with
                    | EmptyString => RuneError :: runes t0
                    | String c3 t3 =>
                        let b3 := byte_of c3 in
                        if negb (continuation b3) then RuneError :: runes t0
                        else ((b0 mod 8) * 262144 + (b1 mod 64) * 4096
                              + (b2 mod 64) * 64 + b3 mod 64) :: runes t3
                    end
              end
        end
    end.
Proof. reflexivity. Qed.

Lemma runes_encodeRune (r : rune) (rest : string) :
  ValidRune r -> runes (encodeRune r rest) = r :: runes rest.
Proof.
  intros [Hr Hs]. unfold encodeRune.
  destruct (Z.leb_spec 0 r); [|lia]. cbn [andb].
  destruct (Z.leb_spec r 127).
  { cbn [bytes fold_right]. rewrite runes_String. cbv beta iota zeta. rewrite byte_of_ascii_of by lia.
    destruct (Z.ltb_spec r 128); [reflexivity|lia]. }
  destruct (Z.leb_spec r 2047).
  { cbn [bytes fold_right]. rewrite runes_String. cbv beta iota zeta.
    rewrite !byte_of_ascii_of by lia.
    rewrite first_2 by lia.
    destruct (Z.ltb_spec (192 + r / 64) 128); [lia|].
    replace ((128 <=? 128 + r mod 64) && (128 + r mod 64 <=? 191)) with true
      by (symmetry; apply andb_true_intro; split; apply Z.leb_le; lia).
    cbn [negb Z.eqb Pos.eqb]. f_equal. lia. }
  destruct (Z.ltb_spec r 0); [lia|].
  destruct (Z.ltb_spec 1114111 r); [lia|].
  replace ((55296 <=? r) && (r <=? 57343)) with false
    by (symmetry; apply andb_false_iff; rewrite Z.leb_gt, Z.leb_gt; lia).
  cbn [orb].
  destruct (Z.leb_spec r 65535).
  { cbn [bytes fold_right]. rewrite runes_String. cbv beta iota zeta.
    rewrite !byte_of_ascii_of by lia.
    rewrite first_3 by lia.
    destruct (Z.ltb_spec (224 + r / 4096) 128); [lia|].
    replace (negb (((if 224 + r / 4096 =? 224 then 160 else 128) <=? 128 + (r / 64) mod 64)
                   && (128 + (r / 64) mod 64 <=? (if 224 + r / 4096 =? 237 then 159 else 191))))
      with false
      by (symmetry; apply negb_false_iff, andb_true_intro; split; apply Z.leb_le;
          cmp_cases; lia).
    cbn [Z.eqb Pos.eqb].
    replace (negb (continuation (128 + r mod 64))) with false
      by (symmetry; apply negb_false_iff, andb_true_intro; split; apply Z.leb_le; lia).
    f_equal. lia. }
  cbn [bytes fold_right]. rewrite runes_String. cbv beta iota zeta.
  rewrite !byte_of_ascii_of by lia.
  rewrite first_4 by lia.
  destruct (Z.ltb_spec (240 + r / 262144) 128); [lia|].
  replace (negb (((if 240 + r / 262144 =? 240 then 144 else 128) <=? 128 + (r / 4096) mod 64)
                 && (128 + (r / 4096) mod 64 <=? (if 240 + r / 262144 =? 244 then 143 else 191))))
    with false
    by (symmetry; apply negb_false_iff, andb_true_intro; split; apply Z.leb_le;
        cmp_cases; lia).
  cbn [Z.eqb Pos.eqb].
  replace (negb (continuation (128 + (r / 64) mod 64))) with false
    by (symmetry; apply negb_false_iff, andb_true_intro; split; apply Z.leb_le; lia).
  replace (negb (continuation (128 + r mod 64))) with false
    by (symmetry; apply negb_false_iff, andb_true_intro; split; apply Z.leb_le; lia).
  f_equal. lia.
Qed.

Lemma first_spec (b0 k lo hi : Z) :
  first b0 = Some (k, lo, hi) ->
  128 <= lo /\ hi <= 191 /\
  ((k = 2 /\ 194 <= b0 <= 223) \/
   (k = 3 /\ 224 <= b0 <= 239 /\ (b0 = 237 -> hi = 159)) \/
   (k = 4 /\ 240 <= b0 <= 244 /\ (b0 = 240 -> lo = 144) /\ (b0 = 244 -> hi = 143))).
Proof.
  unfold first; cmp_cases; intros E; inversion E; subst; lia.
Qed.

Lemma RuneError_valid : ValidRune RuneError.
Proof. unfold ValidRune, RuneError; lia. Qed.

Lemma runes_valid_upto (n : nat) (s : string) :
  (String.length s <= n)%nat -> Forall ValidRune (runes s).
Proof.
  revert s; induction n as [|n IH]; intros [|c0 t0] Hlen; cbn [String.length] in Hlen;
    try lia; try (cbn [runes]; constructor).
  rewrite runes_String; cbv zeta.
  pose proof (byte_of_range c0) as R0.
  pose proof RuneError_valid as Verr.
  assert (IH0 : Forall ValidRune (runes t0)) by (apply IH; lia).
  destruct (Z.ltb_spec (byte_of c0) 128).
  { constructor; [unfold ValidRune; lia | exact IH0]. }
  destruct (first (byte_of c0)) as [[[k lo] hi]|] eqn:Hf; [|constructor; assumption].
  apply first_spec in Hf. destruct Hf as (Hlo & Hhi & Hk).
  destruct t0 as [|c1 t1]; [constructor; assumption|].
  cbn [String.length] in Hlen.
  pose proof (byte_of_range c1) as R1.
  destruct (Z.leb_spec lo (byte_of c1)); cbn [andb negb]; [|constructor; assumption].
  destruct (Z.leb_spec (byte_of c1) hi); cbn [negb]; [|constructor; assumption].
  destruct (Z.eqb_spec k 2).
  { constructor; [unfold ValidRune; lia | apply IH; lia]. }
  destruct t1 as [|c2 t2]; [constructor; assumption|].
  cbn [String.length] in Hlen.
  pose proof (byte_of_range c2) as R2.
  unfold continuation.
  destruct (Z.leb_spec 128 (byte_of c2)); cbn [andb negb]; [|constructor; assumption].
  destruct (Z.leb_spec (byte_of c2) 191); cbn [negb]; [|constructor; assumption].
  destruct (Z.eqb_spec k 3).
  { constructor; [unfold ValidRune; lia | apply IH; lia]. }
  destruct t2 as [|c3 t3]; [constructor; assumption|].
  cbn [String.length] in Hlen.
  pose proof (byte_of_range c3) as R3.
  destruct (Z.leb_spec 128 (byte_of c3)); cbn [andb negb]; [|constructor; assumption].
  destruct (Z.leb_spec (byte_of c3) 191); cbn [negb]; [|constructor; assumption].
  constructor; [unfold ValidRune; lia | apply IH; lia].
Qed.

(** Every rune of [[]rune(s)] is a Unicode scalar value. *)
Lemma runes_valid (s : string) : Forall ValidRune (runes s).
Proof. apply (runes_valid_upto (String.length s)); lia. Qed.

(** [[]rune(string(rs)) = rs] on scalar values. *)
Lemma runes_encode (rs : list rune) :
  Forall ValidRune rs -> runes (encode rs) = rs.
Proof.
  induction 1 as [|r rs Hr _ IH]; [reflexivity|].
  cbn [encode fold_right]. rewrite runes_encodeRune by assumption.
  f_equal. exact IH.
Qed.

End Utf8Props.


(** ** [strLeft] and the two VARCHAR(8) columns of SearchIndex *)
Section StrLeftProps.
Import Utf8 Sql Crawler.

Lemma strLeft_inside (s : string) (x : Z) :
  0 <= x <= Z.of_nat (length (runes s)) ->
  strLeft s x = Some (encode (firstn (Z.to_nat x) (runes s))).
Proof.
  intros Hx. unfold strLeft, slice_to.
  destruct (Z.ltb_spec x 0); [lia|].
  destruct (Z.ltb_spec (Z.of_nat (length (runes s))) x); [lia|].
  destruct (Z.leb_spec 0 x); [|lia].
  destruct (Z.leb_spec x (Z.of_nat (length (runes s)))); [|lia].
  reflexivity.
Qed.

Lemma strLeft_outside (s : string) (x : Z) :
  x < 0 \/ Z.of_nat (length (runes s)) < x -> strLeft s x = Some s.
Proof.
  intros Hx. unfold strLeft.
  destruct (Z.ltb_spec x 0); [reflexivity|].
  destruct (Z.ltb_spec (Z.of_nat (length (runes s))) x); [reflexivity|lia].
Qed.

Lemma runes_strLeft_value (s : string) (x : Z) :
  0 <= x <= Z.of_nat (length (runes s)) ->
  runes (strLeft_value s x) = firstn (Z.to_nat x) (runes s).
Proof.
  intros Hx. unfold strLeft_value. rewrite strLeft_inside by assumption.
  apply runes_encode, Forall_take, runes_valid.
Qed.

Lemma strLeft_value_at_most (s : string) (x : Z) :
  0 <= x -> (length (runes (strLeft_value s x)) <= Z.to_nat x)%nat.
Proof.
  intros Hx.
  destruct (Z.le_gt_cases x (Z.of_nat (length (runes s)))) as [Hle|Hgt].
  - rewrite runes_strLeft_value by lia. rewrite length_firstn. lia.
  - unfold strLeft_value. rewrite strLeft_outside by lia. lia.
Qed.

Lemma upsert_page_columns (now newid : Z) (u : string) (p : PageInfo)
    (rows : list SearchIndexRow) (row : SearchIndexRow) :
  In row (snd (upsert_page now newid u p rows)) ->
  page_url row = u ->
  detected_lang row = strLeft_value (DetectedLang p) 8 /\
  detected_type row = strLeft_value (DetectedType p) 8.
Proof.
  unfold upsert_page, find_page. intros Hin Hu.
  destruct (List.find _ rows) as [r0|] eqn:Hfind; cbn [option_map snd] in Hin.
  - apply in_map_iff in Hin. destruct Hin as (r & Hr & _).
    destruct (String.eqb_spec (page_url r) u) as [_|Hne].
    + subst row. split; reflexivity.
    + subst row. contradiction.
  - apply in_app_or in Hin. destruct Hin as [Hin|[Hin|[]]].
    + pose proof (find_none _ _ Hfind _ Hin) as Hn. cbv beta in Hn.
      apply String.eqb_neq in Hn. contradiction.
    + subst row. split; reflexivity.
Qed.

(** C10.  [strLeft] never panics; for [0 <= x <= len([]rune(s))] its result
    decodes to the first [x] runes of [s], otherwise it is [s] itself; what
    [insertOrUpdateSearchIndex] stores in [detected_lang] and
    [detected_type] of the row of the page is [strLeft(_, 8)] of the page's
    values, and holds at most 8 runes. *)
Theorem strLeft_total_and_index_columns :
  (forall (s : string) (x : Z),
      exists r, strLeft s x = Some r /\
        (0 <= x <= Z.of_nat (length (runes s)) ->
         runes r = firstn (Z.to_nat x) (runes s)) /\
        (x < 0 \/ Z.of_nat (length (runes s)) < x -> r = s)) /\
  (forall db tx u p id db' tx' row,
      insertOrUpdateSearchIndex db tx u p = (Val id, db', tx') ->
      In row (SearchIndex tx') -> page_url row = u ->
      detected_lang row = strLeft_value (DetectedLang p) 8 /\
      detected_type row = strLeft_value (DetectedType p) 8 /\
      (length (runes (detected_lang row)) <= 8)%nat /\
      (length (runes (detected_type row)) <= 8)%nat).
Proof.
  split.
  - intros s x.
    destruct (Z.lt_ge_cases x 0) as [Hneg|Hpos];
      [|destruct (Z.le_gt_cases x (Z.of_nat (length (runes s)))) as [Hle|Hgt]].
    + exists s. split; [apply strLeft_outside; lia|].
      split; [intros ?; lia | intros _; reflexivity].
    + exists (encode (firstn (Z.to_nat x) (runes s))).
      split; [apply strLeft_inside; lia|].
      split; [|intros [?|?]; lia].
      intros _. apply runes_encode, Forall_take, runes_valid.
    + exists s. split; [apply strLeft_outside; lia|].
      split; [intros ?; lia | intros _; reflexivity].
  - intros db tx u p id db' tx' row Hrun Hin Hu.
    unfold insertOrUpdateSearchIndex in Hrun.
    destruct (call db) as [[e|] db1]; [discriminate|].
    destruct (upsert_page _ _ u p (SearchIndex tx)) as [indexID rows] eqn:Hup.
    destruct (call (bump_index_seq db1)) as [[e|] db2]; [discriminate|].
    injection Hrun as _ _ Htx. rewrite <- Htx in Hin. cbn [SearchIndex] in Hin.
    assert (Hrows : rows = snd (upsert_page (clock (bump_index_seq db1))
                                  (index_id_seq (bump_index_seq db1)) u p
                                  (SearchIndex tx)))
      by (rewrite Hup; reflexivity).
    rewrite Hrows in Hin.
    destruct (upsert_page_columns _ _ _ _ _ _ Hin Hu) as [El Et].
    rewrite El, Et.
    split; [reflexivity|]. split; [reflexivity|].
    split; apply (strLeft_value_at_most _ 8); lia.
Qed.

End StrLeftProps.


(** ** Claiming sources: [update_sources] and [checkSources] *)
Section ClaimProps.
Import Sql.

Lemma eq_text_true (a : option string) (lit : string) :
  eq_text a lit = TTrue <-> a = Some lit.
Proof.
  destruct a as [x|]; cbn; [|split; discriminate].
  destruct (String.eqb_spec x lit); split; intros E;
    try reflexivity; try discriminate; try congruence.
Qed.

Lemma lt_time_true (a : option Z) (t : Z) :
  lt_time a t = TTrue <-> exists x, a = Some x /\ x < t.
Proof.
  destruct a as [x|]; cbn.
  - destruct (Z.ltb_spec x t); split; intros E.
    + eauto.
    + reflexivity.
    + discriminate.
    + destruct E as (y & Ey & Hy). injection Ey as ->. lia.
  - split; [discriminate|intros (x & E & _); discriminate].
Qed.

Lemma is_null_true {A} (a : option A) : is_null a = TTrue <-> a = None.
Proof. destruct a; cbn; split; congruence. Qed.

Lemma tor_true (a b : tri) : tor a b = TTrue <-> a = TTrue \/ b = TTrue.
Proof. destruct a, b; cbn; split; intros; intuition congruence. Qed.

Lemma tand_true (a b : tri) : tand a b = TTrue <-> a = TTrue /\ b = TTrue.
Proof. destruct a, b; cbn; split; intros; intuition congruence. Qed.

Lemma holds_true (t : tri) : holds t = true <-> t = TTrue.
Proof. destruct t; cbn; split; congruence. Qed.

Lemma eq_bool_false_true (a : option bool) :
  eq_bool a false = TTrue <-> a = Some false.
Proof. destruct a as [[]|]; cbn; split; congruence. Qed.

(** The WHERE clause of the procedure is the eligibility predicate. *)
Lemma selectable_eligible (now : Z) (s : Source) :
  holds (selectable now s) = true <-> eligible now s.
Proof.
  unfold selectable, eligible.
  rewrite holds_true, tand_true, !tor_true, !tand_true, !eq_text_true,
    !lt_time_true, !is_null_true, eq_bool_false_true.
  tauto.
Qed.

Lemma id_in_In (i : Z) (ids : list Z) : id_in i ids = true <-> In i ids.
Proof.
  unfold id_in. rewrite existsb_exists. split.
  - intros (x & Hx & E). apply Z.eqb_eq in E. subst. assumption.
  - intros Hi. exists i. split; [assumption|apply Z.eqb_refl].
Qed.

Lemma SelectedSources_length (now limit_val : Z) (tbl : list Source) :
  0 <= limit_val ->
  Z.of_nat (length (SelectedSources now limit_val tbl)) <= limit_val.
Proof.
  intros Hl. unfold SelectedSources.
  rewrite length_map, length_firstn. lia.
Qed.

Lemma SelectedSources_In (now limit_val : Z) (tbl : list Source) (i : Z) :
  In i (SelectedSources now limit_val tbl) ->
  exists s, In s tbl /\ source_id s = i /\ eligible now s.
Proof.
  unfold SelectedSources. intros Hi.
  apply in_map_iff in Hi. destruct Hi as (s & Es & Hs).
  assert (Hf : In s (List.filter (fun s => holds (selectable now s)) tbl)).
  { rewrite <- (firstn_skipn (Z.to_nat limit_val)). apply in_or_app. left. exact Hs. }
  apply filter_In in Hf. destruct Hf as [Hin Hsel].
  exists s. split; [assumption|]. split; [assumption|].
  apply selectable_eligible. exact Hsel.
Qed.

(** A row the procedure has just claimed is not eligible again for three
    days: its status is 'processing' and the trigger has stamped it. *)
Lemma claimed_not_eligible (now1 now2 : Z) (s : Source) :
  now2 - now1 <= three_days ->
  ~ eligible now2 (update_last_updated_at_column now1 (set_processing s)).
Proof.
  intros Hd (_ & He). cbn in He. unfold fifteen_minutes, one_week, three_days in *.
  destruct He as [E|[(t & E & Ht)|[(E & _)|[(E & _)|[E|[E|E]]]]]];
    try discriminate.
  injection E as <-. lia.
Qed.

Lemma NoDup_map_inj {A B} (f : A -> B) (l : list A) (a b : A) :
  List.NoDup (map f l) -> In a l -> In b l -> f a = f b -> a = b.
Proof.
  induction l as [|x l IH]; cbn; intros Hnd Ha Hb E; [contradiction|].
  inversion Hnd as [|? ? Hnotin Hnd']; subst.
  destruct Ha as [->|Ha], Hb as [->|Hb]; try reflexivity.
  - exfalso. apply Hnotin. rewrite E. apply in_map. assumption.
  - exfalso. apply Hnotin. rewrite <- E. apply in_map. assumption.
  - apply IH; assumption.
Qed.

(** With [source_id] a key, the rows whose id the sub-select returned are
    the rows the sub-select picked. *)
Lemma filter_selected (P : Source -> bool) (tbl : list Source) :
  List.NoDup (map source_id tbl) ->
  forall n,
    List.filter
      (fun s => id_in (source_id s) (map source_id (firstn n (List.filter P tbl))))
      tbl
    = firstn n (List.filter P tbl).
Proof.
  induction tbl as [|x tbl IH]; intros Hnd n; [destruct n; reflexivity|].
  inversion Hnd as [|? ? Hnotin Hnd']; subst.
  assert (Hfresh : forall ids, (forall i, In i ids -> In i (map source_id tbl)) ->
                               id_in (source_id x) ids = false).
  { intros ids Hsub. destruct (id_in (source_id x) ids) eqn:E; [|reflexivity].
    apply id_in_In in E. exfalso. apply Hnotin, Hsub, E. }
  assert (Hsub : forall m i, In i (map source_id (firstn m (List.filter P tbl))) ->
                             In i (map source_id tbl)).
  { intros m i Hi. apply in_map_iff in Hi. destruct Hi as (s & <- & Hs).
    apply in_map.
    assert (Hf : In s (List.filter P tbl))
      by (rewrite <- (firstn_skipn m); apply in_or_app; left; exact Hs).
    apply filter_In in Hf. tauto. }
  cbn [List.filter]. destruct (P x) eqn:Px.
  - destruct n as [|n]; cbn [firstn map].
    + cbn [id_in existsb]. clear. induction tbl; [reflexivity|]. cbn. assumption.
    + cbn [List.filter]. unfold id_in at 1. cbn [existsb]. rewrite Z.eqb_refl. cbn [orb].
      f_equal. etransitivity; [|apply (IH Hnd' n)].
      apply filter_ext_in. intros s Hs. unfold id_in. cbn [existsb].
      destruct (Z.eqb_spec (source_id s) (source_id x)) as [E|_]; [|reflexivity].
      exfalso. apply Hnotin. rewrite <- E. apply in_map. exact Hs.
  - cbn [List.filter]. rewrite (Hfresh _ (Hsub n)). apply IH. exact Hnd'.
Qed.

(** One call of the stored procedure: it returns, and flips to 'processing',
    exactly the first [limit_val] eligible rows; every other row is left as
    it was. *)
Lemma update_sources_claims (now limit_val : Z) (tbl : list Source) :
  List.NoDup (map source_id tbl) -> 0 <= limit_val ->
  update_sources now limit_val tbl =
  Some (map returning (map (claim now) (picked now limit_val tbl)),
        map (fun s => if id_in (source_id s)
                           (map source_id (picked now limit_val tbl))
                      then claim now s else s) tbl).
Proof.
  intros Hnd Hl. unfold update_sources.
  destruct (Z.ltb_spec limit_val 0); [lia|].
  unfold SelectedSources. fold (picked now limit_val tbl).
  unfold picked at 2. rewrite filter_selected by assumption.
  fold (picked now limit_val tbl). f_equal. f_equal. f_equal.
  apply map_ext_in. intros s Hs.
  assert (Hid : id_in (source_id s) (map source_id (picked now limit_val tbl)) = true)
    by (apply id_in_In, in_map, Hs).
  rewrite Hid. reflexivity.
Qed.

Lemma picked_eligible (now limit_val : Z) (tbl : list Source) (s : Source) :
  In s (picked now limit_val tbl) -> In s tbl /\ eligible now s.
Proof.
  unfold picked. intros Hs.
  assert (Hf : In s (List.filter (fun s => holds (selectable now s)) tbl))
    by (rewrite <- (firstn_skipn (Z.to_nat limit_val)); apply in_or_app; left; exact Hs).
  apply filter_In in Hf. destruct Hf as [Hin Hsel].
  split; [assumption|]. apply selectable_eligible. exact Hsel.
Qed.

Lemma picked_at_most (now limit_val : Z) (tbl : list Source) :
  0 <= limit_val -> Z.of_nat (length (picked now limit_val tbl)) <= limit_val.
Proof. intros Hl. unfold picked. rewrite length_firstn. lia. Qed.

(** Two calls, the second running on the table the first has left (the row
    locks order them), within three days of each other: no source is
    returned by both. *)
Lemma update_sources_disjoint (now1 now2 limit1 limit2 : Z)
    (tbl tbl1 tbl2 : list Source) (ret1 ret2 : list Claimed) :
  List.NoDup (map source_id tbl) ->
  now2 - now1 <= three_days ->
  update_sources now1 limit1 tbl = Some (ret1, tbl1) ->
  update_sources now2 limit2 tbl1 = Some (ret2, tbl2) ->
  forall i, In i (map c_source_id ret1) -> ~ In i (map c_source_id ret2).
Proof.
  intros Hnd Hd H1 H2 i Hi1 Hi2.
  assert (Hl1 : 0 <= limit1)
    by (unfold update_sources in H1; destruct (Z.ltb_spec limit1 0); [discriminate|lia]).
  assert (Hl2 : 0 <= limit2)
    by (unfold update_sources in H2; destruct (Z.ltb_spec limit2 0); [discriminate|lia]).
  rewrite update_sources_claims in H1 by assumption.
  injection H1 as <- <-.
  set (upd := fun s => if id_in (source_id s) (map source_id (picked now1 limit1 tbl))
                       then claim now1 s else s) in *.
  assert (Hupd_id : forall s, source_id (upd s) = source_id s)
    by (intros s; unfold upd; destruct (id_in _ _); reflexivity).
  assert (Hnd1 : List.NoDup (map source_id (map upd tbl))).
  { rewrite map_map. erewrite map_ext; [exact Hnd|]. exact Hupd_id. }
  rewrite update_sources_claims in H2 by assumption.
  injection H2 as <- _.
  rewrite !map_map in Hi1, Hi2. cbn in Hi1, Hi2.
  apply in_map_iff in Hi1. destruct Hi1 as (s1 & <- & Hs1).
  apply in_map_iff in Hi2. destruct Hi2 as (s2 & E & Hs2).
  apply picked_eligible in Hs2. destruct Hs2 as [Hin2 Hel2].
  pose proof (picked_eligible _ _ _ _ Hs1) as [Hin1 _].
  assert (Hs2' : s2 = upd s1).
  { apply (NoDup_map_inj source_id (map upd tbl)); try assumption.
    - apply in_map. exact Hin1.
    - rewrite Hupd_id. exact E. }
  subst s2. unfold upd in Hel2.
  assert (Hid : id_in (source_id s1) (map source_id (picked now1 limit1 tbl)) = true)
    by (apply id_in_In, in_map, Hs1).
  rewrite Hid in Hel2. revert Hel2. apply claimed_not_eligible. exact Hd.
Qed.

End ClaimProps.


(** ** The dispatcher's own selection *)
Section DispatcherProps.
Import Sql Dispatcher.

Lemma insert_sorted_In (s x : Source) (l : list Source) :
  In x (insert_sorted s l) <-> x = s \/ In x l.
Proof.
  induction l as [|h t IH]; cbn.
  - intuition congruence.
  - destruct (crawled_before s h); cbn; rewrite ?IH; intuition congruence.
Qed.

Lemma order_by_In (x : Source) (l : list Source) :
  In x (order_by_last_crawled_at l) <-> In x l.
Proof.
  unfold order_by_last_crawled_at.
  induction l as [|h t IH]; cbn; [tauto|].
  rewrite insert_sorted_In, IH. intuition congruence.
Qed.

(** A pending source is handed out by every round of [checkSources] that
    reads the table while its status is still 'pending': the query is a plain
    SELECT and flips nothing. *)
Lemma pending_source_selected_every_round (now : Z) (tbl : list Source)
    (s : Source) (r : Z) :
  In s tbl -> status s = Some "pending" -> restricted s = Some r ->
  In (url s, r) (sourcesToCrawl now tbl).
Proof.
  intros Hin Hst Hr. unfold sourcesToCrawl.
  apply in_flat_map. exists s. split.
  - apply order_by_In, filter_In. split; [assumption|].
    unfold due. apply holds_true, tor_true. right.
    apply eq_text_true. exact Hst.
  - rewrite Hr. left. reflexivity.
Qed.

(** C1.  The selection [checkSources] runs is not the atomic claim: two
    rounds (two dispatchers, or one dispatcher twice) read the same rows,
    because nothing is flipped to 'processing'; there is no limit; and a
    disabled source is selected.  The stored procedure, run on the same
    table, hands the pending source to the first caller only and never
    returns the disabled one. *)
Theorem checkSources_does_not_claim :
  let tbl := [pending_source; disabled_source] in
  let now := 1000000 in
  sourcesToCrawl now tbl = [("http://b.test/", 2); ("http://a.test/", 2)] /\
  sourcesToCrawl (now + 1) tbl = [("http://b.test/", 2); ("http://a.test/", 2)] /\
  match update_sources now 5 tbl with
  | Some (ret1, tbl1) =>
      ret1 = [mkClaimed 1 "http://a.test/" (Some 2) (Some 0) None (Some now)] /\
      option_map fst (update_sources (now + 1) 5 tbl1) = Some []
  | None => False
  end.
Proof.
  vm_compute. repeat split.
Qed.

End DispatcherProps.


(** ** Releasing a source *)
Section ReleaseProps.
Import Sql Crawler.

Lemma call_tables (db : Handler) : tables (snd (call db)) = tables db.
Proof. unfold call. destruct (script db); reflexivity. Qed.

Lemma call_clock (db : Handler) : clock (snd (call db)) = clock db.
Proof. unfold call. destruct (script db); reflexivity. Qed.

Lemma update_where_url_rows (now : Z) (u : string) (set : Source -> Source)
    (rel : Source -> Source -> Prop) (t : Tables) :
  (forall s, rel s (update_last_updated_at_column now (set s))) ->
  Forall2 (fun s s' => if String.eqb (url s) u then rel s s' else s' = s)
    (Sources t) (Sources (update_sources_where_url now u set t)).
Proof.
  intros Hrel. cbn [update_sources_where_url Sources].
  induction (Sources t) as [|s l IH]; cbn [map]; constructor; [|exact IH].
  destruct (String.eqb (url s) u); [apply Hrel|reflexivity].
Qed.

(** C8, as the code has it.  A release whose two database calls succeed
    updates exactly the rows whose url is the source's: it sets
    [last_crawled_at] to now in both outcomes, the status to 'completed' on
    success and to 'error' (with [last_error] and [last_error_at]) on failure,
    and the trigger stamps [last_updated_at]; on success [last_error] and
    [last_error_at] keep their values.  No other column, row or table
    changes, and a release whose connection check or statement fails changes
    nothing. *)
Theorem updateSourceState_effect (db : Handler) (sourceURL : string)
    (crawlError : option string) :
  let db' := updateSourceState db sourceURL crawlError in
  let ok := match fst (call db), fst (call (snd (call db))) with
            | None, None => true
            | _, _ => false
            end in
  SearchIndex (tables db') = SearchIndex (tables db) /\
  SourceSearchIndex (tables db') = SourceSearchIndex (tables db) /\
  MetaTags (tables db') = MetaTags (tables db) /\
  Keywords (tables db') = Keywords (tables db) /\
  KeywordIndex (tables db') = KeywordIndex (tables db) /\
  Forall2 (fun s s' =>
             if ok && String.eqb (url s) sourceURL
             then released (clock db) crawlError s s' else s' = s)
    (Sources (tables db)) (Sources (tables db')).
Proof.
  cbv zeta. unfold updateSourceState.
  pose proof (call_tables db) as T1. pose proof (call_clock db) as C1.
  destruct (call db) as [e1 db1]. cbn [fst snd] in *.
  assert (Hsame : forall d, tables d = tables db ->
            Forall2 (fun s s' => s' = s) (Sources (tables db)) (Sources (tables d))).
  { intros d ->. induction (Sources (tables db)); constructor; auto. }
  destruct e1 as [e|].
  { rewrite T1. repeat (split; [reflexivity|]). cbn [andb]. apply Hsame. reflexivity. }
  pose proof (call_tables db1) as T2. pose proof (call_clock db1) as C2.
  destruct (call db1) as [e2 db2]. cbn [fst snd] in *.
  destruct e2 as [e|].
  { rewrite T2, T1. repeat (split; [reflexivity|]). cbn [andb]. apply Hsame. reflexivity. }
  cbn [andb]. rewrite C2, C1.
  destruct crawlError as [msg|]; cbn [with_tables tables update_sources_where_url
    SearchIndex SourceSearchIndex MetaTags Keywords KeywordIndex];
    rewrite T2, T1; repeat (split; [reflexivity|]).
  - apply (update_where_url_rows (clock db) sourceURL (mark_error (clock db) msg)
             (released (clock db) (Some msg)) (tables db)).
    intros s. unfold released, identity_kept. cbn. tauto.
  - apply (update_where_url_rows (clock db) sourceURL (mark_completed (clock db))
             (released (clock db) None) (tables db)).
    intros s. unfold released, identity_kept. cbn. tauto.
Qed.

(** A successful release of a source that failed before: the row is
    'completed', but [last_error] still holds the old message (it is not
    cleared), and [last_updated_at] has changed, by the trigger. *)
Lemma release_success_keeps_last_error :
  exists s',
    Sources (tables (updateSourceState catalog_with_failed_source
                       "http://a.test/" None)) = [s'] /\
    status s' = Some "completed" /\
    last_error s' = Some "timeout" /\ last_error s' <> None /\
    last_updated_at s' <> last_updated_at failed_source.
Proof.
  eexists. split; [vm_compute; reflexivity|]. cbn.
  repeat split; discriminate.
Qed.

(** A failed release also sets [last_crawled_at]. *)
Lemma release_failure_sets_last_crawled_at :
  Sources (tables (updateSourceState catalog_with_failed_source "http://a.test/"
                     (Some "no route")))
  = [mkSource 7 (Some 5000) "http://a.test/" (Some "error") (Some 5000)
       (Some "no route") (Some 5000) (Some 2) (Some false) (Some 0) None].
Proof. vm_compute. reflexivity. Qed.

End ReleaseProps.


(** ** Indexing a page *)
Section IndexProps.
Import Sql Crawler.
Context `{KeywordExtractor}.

Lemma only_keywords_added_refl (t : Tables) : only_keywords_added t t.
Proof.
  repeat split. exists []. symmetry. apply app_nil_r.
Qed.

Lemma only_keywords_added_trans (a b c : Tables) :
  only_keywords_added a b -> only_keywords_added b c -> only_keywords_added a c.
Proof.
  intros (A1 & A2 & A3 & A4 & A5 & x & A6) (B1 & B2 & B3 & B4 & B5 & y & B6).
  repeat split; try congruence.
  exists (x ++ y). rewrite B6, A6, app_assoc. reflexivity.
Qed.

Lemma call_frame (db : Handler) : only_keywords_added (tables db) (tables (snd (call db))).
Proof. rewrite call_tables. apply only_keywords_added_refl. Qed.

Lemma upsert_keyword_frame (db : Handler) (k : string) :
  only_keywords_added (tables db) (tables (snd (upsert_keyword db k))).
Proof.
  unfold upsert_keyword. destruct (find_keyword k _); cbn [snd tables].
  - apply only_keywords_added_refl.
  - repeat split. eexists. reflexivity.
Qed.

Lemma keywordAttempts_frame (left : nat) (i : Z) (db : Handler) (k : string) :
  only_keywords_added (tables db) (tables (snd (keywordAttempts left i db k))).
Proof.
  revert i db. induction left as [|left IH]; intros i db; cbn [keywordAttempts].
  - apply only_keywords_added_refl.
  - pose proof (call_frame db) as F. destruct (call db) as [[e|] db1]; cbn [snd] in F.
    + destruct (GoStr.Contains e "deadlock detected"); [|exact F].
      destruct (i =? maxRetries - 1); [exact F|].
      eapply only_keywords_added_trans; [exact F|].
      apply (IH (i + 1) (sleep (i * 100) db1)).
    + pose proof (upsert_keyword_frame db1 k) as F2.
      destruct (upsert_keyword db1 k) as [kid db2]. cbn [snd] in *.
      eapply only_keywords_added_trans; eassumption.
Qed.

Lemma insertKeywordWithRetries_frame (db : Handler) (k : string) :
  only_keywords_added (tables db) (tables (snd (insertKeywordWithRetries db k))).
Proof.
  unfold insertKeywordWithRetries.
  pose proof (call_frame db) as F. destruct (call db) as [[e|] db1]; cbn [snd] in *.
  - exact F.
  - eapply only_keywords_added_trans; [exact F|]. apply keywordAttempts_frame.
Qed.

Lemma insertOrUpdateSearchIndex_frame (db : Handler) (tx : Tx) (u : string)
    (p : PageInfo) :
  tables (snd (fst (insertOrUpdateSearchIndex db tx u p))) = tables db.
Proof.
  unfold insertOrUpdateSearchIndex.
  pose proof (call_tables db) as T1. destruct (call db) as [[e|] db1]; cbn [fst snd] in *.
  - exact T1.
  - destruct (upsert_page _ _ u p (SearchIndex tx)) as [indexID rows].
    pose proof (call_tables (bump_index_seq db1)) as T2.
    destruct (call (bump_index_seq db1)) as [[e|] db2]; cbn [fst snd] in *;
      rewrite T2; exact T1.
Qed.

Lemma insertMetaTagList_frame (tags : list (string * string)) (db : Handler)
    (tx : Tx) (indexID : Z) :
  tables (snd (fst (insertMetaTagList db tx indexID tags))) = tables db.
Proof.
  revert db tx. induction tags as [|[name content] rest IH]; intros db tx;
    cbn [insertMetaTagList]; [reflexivity|].
  pose proof (call_tables db) as T1. destruct (call db) as [[e|] db1]; cbn [fst snd] in *.
  - exact T1.
  - rewrite IH. exact T1.
Qed.

Lemma insertKeywordList_frame (keywords : list string) (db : Handler) (tx : Tx)
    (indexID : Z) :
  only_keywords_added (tables db)
    (tables (snd (fst (insertKeywordList db tx indexID keywords)))).
Proof.
  revert db tx. induction keywords as [|k rest IH]; intros db tx;
    cbn [insertKeywordList]; [apply only_keywords_added_refl|].
  pose proof (insertKeywordWithRetries_frame db k) as F1.
  destruct (insertKeywordWithRetries db k) as [[kid|e] db1]; cbn [fst snd] in *;
    [|exact F1].
  pose proof (call_frame db1) as F2. destruct (call db1) as [[e|] db2]; cbn [fst snd] in *.
  - eapply only_keywords_added_trans; eassumption.
  - eapply only_keywords_added_trans; [exact F1|].
    eapply only_keywords_added_trans; [exact F2|]. apply IH.
Qed.

(** A call of [indexPage] that does not commit leaves every table but
    Keywords as it found it. *)
Lemma indexPage_rollback (db : Handler) (u : string) (p : PageInfo) :
  fst (indexPage db u p) <> Committed ->
  only_keywords_added (tables db) (tables (snd (indexPage db u p))).
Proof.
  unfold indexPage, rollbackTransaction, insertMetaTags, insertKeywords.
  pose proof (call_frame db) as F1. destruct (call db) as [[e|] db1]; cbn [fst snd] in *;
    [intros _; exact F1|].
  pose proof (call_frame db1) as F2. destruct (call db1) as [[e|] db2]; cbn [fst snd] in *;
    [intros _; eapply only_keywords_added_trans; eassumption|].
  assert (F12 : only_keywords_added (tables db) (tables db2))
    by (eapply only_keywords_added_trans; eassumption).
  clear F1 F2.
  pose proof (insertOrUpdateSearchIndex_frame db2 (begin_tx db2) u p) as T3.
  destruct (insertOrUpdateSearchIndex db2 (begin_tx db2) u p) as [[[indexID|e] db3] tx3];
    cbn [fst snd] in *.
  2:{ intros _. rewrite call_tables, T3. exact F12. }
  pose proof (insertMetaTagList_frame (map_to_list (PageMetaTags p)) db3 tx3 indexID) as T4.
  destruct (insertMetaTagList db3 tx3 indexID _) as [[[e|] db4] tx4]; cbn [fst snd] in *.
  { intros _. rewrite call_tables, T4, T3. exact F12. }
  pose proof (insertKeywordList_frame (extractKeywords p) db4 tx4 indexID) as F5.
  rewrite T4, T3 in F5.
  destruct (insertKeywordList db4 tx4 indexID _) as [[[e|] db5] tx5]; cbn [fst snd] in *.
  { intros _. rewrite call_tables. eapply only_keywords_added_trans; eassumption. }
  pose proof (call_frame db5) as F6. destruct (call db5) as [[e|] db6]; cbn [fst snd] in *.
  - intros _. rewrite call_tables.
    eapply only_keywords_added_trans; [exact F12|].
    eapply only_keywords_added_trans; eassumption.
  - intros Hc. exfalso. apply Hc. reflexivity.
Qed.

(** *** What the handle was asked *)

Lemma call_trace (db : Handler) :
  trace (snd (call db)) = trace db ++ [Called (fst (call db))].
Proof. unfold call. destruct (script db); reflexivity. Qed.

Lemma upsert_keyword_trace (db : Handler) (k : string) :
  trace (snd (upsert_keyword db k)) = trace db.
Proof. unfold upsert_keyword. destruct (find_keyword k _); reflexivity. Qed.

Lemma deadlock_dec (e : string) : {deadlock e} + {~ deadlock e}.
Proof.
  unfold deadlock. destruct (GoStr.Contains e "deadlock detected");
    [left; reflexivity|right; discriminate].
Qed.

(** The loop of [insertKeywordWithRetries], after a successful connection
    check: at most three attempts, a pause of [100 * i] ms after the failed
    attempt [i] (from 0) when another follows, and the error of the last
    attempt returned. *)
Lemma keywordAttempts_trace (db : Handler) (k : string) :
  exists t,
    trace (snd (keywordAttempts 3 0 db k)) = trace db ++ t /\
    match fst (keywordAttempts 3 0 db k) with
    | Val _ => keyword_stored (Called None :: t)
    | Err e => keyword_refused e (Called None :: t)
    end.
Proof.
  cbn [keywordAttempts].
  change (0 =? maxRetries - 1) with false.
  change (0 + 1 =? maxRetries - 1) with false.
  change (0 + 1 + 1 =? maxRetries - 1) with true.
  change (0 * 100) with 0. change ((0 + 1) * 100) with 100. cbv iota.
  pose proof (call_trace db) as T1.
  destruct (call db) as [[e1|] db1]; cbn [fst snd] in T1.
  2:{ pose proof (upsert_keyword_trace db1 k) as U.
      destruct (upsert_keyword db1 k) as [kid db']. cbn [fst snd] in *.
      exists [Called None]. split; [congruence|constructor]. }
  destruct (deadlock_dec e1) as [D1|D1]; unfold deadlock in D1.
  2:{ apply not_true_is_false in D1. rewrite D1. cbn [fst snd].
      exists [Called (Some e1)]. split; [exact T1|].
      constructor. unfold deadlock. congruence. }
  rewrite D1.
  pose proof (call_trace (sleep 0 db1)) as T2.
  destruct (call (sleep 0 db1)) as [[e2|] db2]; cbn [fst snd sleep trace] in T2.
  2:{ pose proof (upsert_keyword_trace db2 k) as U.
      destruct (upsert_keyword db2 k) as [kid db']. cbn [fst snd] in *.
      exists [Called (Some e1); Paused 0; Called None]. split.
      - rewrite U, T2, T1, <- !app_assoc. reflexivity.
      - constructor. exact D1. }
  destruct (deadlock_dec e2) as [D2|D2]; unfold deadlock in D2.
  2:{ apply not_true_is_false in D2. rewrite D2. cbn [fst snd].
      exists [Called (Some e1); Paused 0; Called (Some e2)]. split.
      - rewrite T2, T1, <- !app_assoc. reflexivity.
      - constructor; [exact D1|]. unfold deadlock. congruence. }
  rewrite D2.
  pose proof (call_trace (sleep 100 db2)) as T3.
  destruct (call (sleep 100 db2)) as [[e3|] db3]; cbn [fst snd sleep trace] in T3.
  2:{ pose proof (upsert_keyword_trace db3 k) as U.
      destruct (upsert_keyword db3 k) as [kid db']. cbn [fst snd] in *.
      exists [Called (Some e1); Paused 0; Called (Some e2); Paused 100; Called None].
      split.
      - rewrite U, T3, T2, T1, <- !app_assoc. reflexivity.
      - constructor; assumption. }
  assert (R : exists t,
             trace db3 = trace db ++ t /\ keyword_refused e3 (Called None :: t)).
  { exists [Called (Some e1); Paused 0; Called (Some e2); Paused 100;
            Called (Some e3)]. split.
    - rewrite T3, T2, T1, <- !app_assoc. reflexivity.
    - constructor; assumption. }
  destruct (GoStr.Contains e3 "deadlock detected"); exact R.
Qed.

Lemma insertKeywordWithRetries_trace (db : Handler) (k : string) :
  exists t,
    trace (snd (insertKeywordWithRetries db k)) = trace db ++ t /\
    match fst (insertKeywordWithRetries db k) with
    | Val _ => keyword_stored t
    | Err e => keyword_refused e t
    end.
Proof.
  unfold insertKeywordWithRetries. change (Z.to_nat maxRetries) with 3%nat.
  pose proof (call_trace db) as T1.
  destruct (call db) as [[e|] db1]; cbn [fst snd] in *.
  - exists [Called (Some e)]. split; [exact T1|constructor].
  - destruct (keywordAttempts_trace db1 k) as (t & Ht & Hs).
    exists (Called None :: t). split; [|exact Hs].
    rewrite Ht, T1, <- app_assoc. reflexivity.
Qed.

Lemma insertOrUpdateSearchIndex_trace (db : Handler) (tx : Tx) (u : string)
    (p : PageInfo) (indexID : Z) :
  fst (fst (insertOrUpdateSearchIndex db tx u p)) = Val indexID ->
  trace (snd (fst (insertOrUpdateSearchIndex db tx u p)))
  = trace db ++ [Called None; Called None].
Proof.
  unfold insertOrUpdateSearchIndex.
  pose proof (call_trace db) as T1.
  destruct (call db) as [[e|] db1]; cbn [fst snd] in *; [discriminate|].
  destruct (upsert_page _ _ u p (SearchIndex tx)) as [id rows].
  pose proof (call_trace (bump_index_seq db1)) as T2.
  destruct (call (bump_index_seq db1)) as [[e|] db2]; cbn [fst snd] in *;
    [discriminate|].
  intros _. cbn [bump_index_seq trace] in T2.
  rewrite T2, T1, <- app_assoc. reflexivity.
Qed.

Lemma insertMetaTagList_trace (tags : list (string * string)) (db : Handler)
    (tx : Tx) (indexID : Z) :
  fst (fst (insertMetaTagList db tx indexID tags)) = None ->
  trace (snd (fst (insertMetaTagList db tx indexID tags)))
  = trace db ++ repeat (Called None) (length tags).
Proof.
  revert db tx. induction tags as [|[name content] rest IH]; intros db tx;
    cbn [insertMetaTagList length repeat].
  - intros _. cbn [fst snd]. symmetry. apply app_nil_r.
  - pose proof (call_trace db) as T1.
    destruct (call db) as [[e|] db1]; cbn [fst snd] in *; [discriminate|].
    intros Hok. rewrite (IH _ _ Hok), T1, <- app_assoc. reflexivity.
Qed.

Lemma insertKeywordList_trace (keywords : list string) (db : Handler) (tx : Tx)
    (indexID : Z) :
  fst (fst (insertKeywordList db tx indexID keywords)) = None ->
  exists kt,
    trace (snd (fst (insertKeywordList db tx indexID keywords))) = trace db ++ kt /\
    postings_stored (length keywords) kt.
Proof.
  revert db tx. induction keywords as [|k rest IH]; intros db tx;
    cbn [insertKeywordList length].
  - intros _. exists []. cbn [fst snd]. split; [symmetry; apply app_nil_r|constructor].
  - destruct (insertKeywordWithRetries_trace db k) as (t & Ht & Hs).
    destruct (insertKeywordWithRetries db k) as [[kid|e] db1]; cbn [fst snd] in *;
      [|discriminate].
    pose proof (call_trace db1) as T2.
    destruct (call db1) as [[e|] db2]; cbn [fst snd] in *; [discriminate|].
    intros Hok. destruct (IH _ _ Hok) as (kt & Hkt & Hp).
    exists (t ++ Called None :: kt). split.
    + rewrite Hkt, T2, Ht, <- !app_assoc. reflexivity.
    + constructor; assumption.
Qed.

(** A call of [indexPage] that commits has asked the handle for: the
    connection check, BEGIN, the two statements of the page upsert, one
    INSERT for each meta tag, the upsert and the posting of each keyword,
    and COMMIT; and every one of these succeeded, deadlocks of a keyword
    upsert that a retry overcame apart. *)
Lemma indexPage_commit_trace (db : Handler) (u : string) (p : PageInfo) :
  fst (indexPage db u p) = Committed ->
  exists kt,
    trace (snd (indexPage db u p))
    = trace db
      ++ repeat (Called None) (4 + length (map_to_list (PageMetaTags p)))
      ++ kt ++ [Called None] /\
    postings_stored (length (extractKeywords p)) kt.
Proof.
  unfold indexPage, rollbackTransaction, insertMetaTags, insertKeywords.
  pose proof (call_trace db) as T1.
  destruct (call db) as [[e|] db1]; cbn [fst snd] in *; [discriminate|].
  pose proof (call_trace db1) as T2.
  destruct (call db1) as [[e|] db2]; cbn [fst snd] in *; [discriminate|].
  pose proof (insertOrUpdateSearchIndex_trace db2 (begin_tx db2) u p) as T3.
  destruct (insertOrUpdateSearchIndex db2 (begin_tx db2) u p)
    as [[[indexID|e] db3] tx3]; cbn [fst snd] in *; [|discriminate].
  specialize (T3 indexID eq_refl).
  pose proof (insertMetaTagList_trace (map_to_list (PageMetaTags p)) db3 tx3 indexID)
    as T4.
  destruct (insertMetaTagList db3 tx3 indexID _) as [[[e|] db4] tx4];
    cbn [fst snd] in *; [discriminate|].
  specialize (T4 eq_refl).
  pose proof (insertKeywordList_trace (extractKeywords p) db4 tx4 indexID) as T5.
  destruct (insertKeywordList db4 tx4 indexID _) as [[[e|] db5] tx5];
    cbn [fst snd] in *; [discriminate|].
  destruct (T5 eq_refl) as (kt & Hkt & Hp).
  pose proof (call_trace db5) as T6.
  destruct (call db5) as [[e|] db6]; cbn [fst snd] in *; [discriminate|].
  intros _. exists kt. split; [|exact Hp].
  unfold install, with_tables. cbn [trace].
  rewrite T6, Hkt, T4, T3, T2, T1. cbn [Nat.add repeat].
  rewrite <- !app_assoc. reflexivity.
Qed.

(** C2, as the code has it.  A call of [indexPage] that does not commit
    leaves SearchIndex, SourceSearchIndex, MetaTags and KeywordIndex (and
    Sources) exactly as they were; Keywords, which is written on the handle
    and not through the transaction, may have gained rows.  A call that
    commits has made exactly the calls of the page upsert, the meta tags, the
    keywords with their postings and COMMIT, and each of them succeeded,
    deadlocks of a keyword upsert that a retry overcame apart: any other
    error ends without a commit.  A keyword upsert is attempted at most 3
    times, with a pause of [100 * i] ms after the failed attempt [i] (from 0)
    when another attempt follows; an error that is not a deadlock, or the
    error of the third attempt, is returned. *)
Theorem indexPage_transaction (db : Handler) (u : string) (p : PageInfo)
    (keyword : string) :
  let r := indexPage db u p in
  let a := insertKeywordWithRetries db keyword in
  (fst r <> Committed -> only_keywords_added (tables db) (tables (snd r))) /\
  (fst r = Committed ->
   exists kt,
     trace (snd r)
     = trace db
       ++ repeat (Called None) (4 + length (map_to_list (PageMetaTags p)))
       ++ kt ++ [Called None] /\
     postings_stored (length (extractKeywords p)) kt) /\
  (exists t,
     trace (snd a) = trace db ++ t /\
     match fst a with
     | Val _ => keyword_stored t
     | Err e => keyword_refused e t
     end).
Proof.
  cbv zeta. split; [apply indexPage_rollback|].
  split; [apply indexPage_commit_trace|apply insertKeywordWithRetries_trace].
Qed.

End IndexProps.

Section IndexExamples.
Import Sql Crawler.

(** The transaction is rolled back, and the keyword it upserted on the way
    is in the database all the same: a write of the call has persisted. *)
Lemma indexPage_rollback_keeps_keyword :
  fst (@indexPage hello_extractor posting_fails "http://a.test/" hello_page)
  = RolledBack /\
  SearchIndex (tables (snd (@indexPage hello_extractor posting_fails
                              "http://a.test/" hello_page))) = [] /\
  Keywords (tables (snd (@indexPage hello_extractor posting_fails
                           "http://a.test/" hello_page))) = [(1, "hello")] /\
  Keywords (tables (snd (@indexPage hello_extractor posting_fails
                           "http://a.test/" hello_page)))
  <> Keywords (tables posting_fails).
Proof.
  split; [vm_compute; reflexivity|]. split; [vm_compute; reflexivity|].
  split; [vm_compute; reflexivity|]. vm_compute. discriminate.
Qed.

(** Three deadlocks in a row: three attempts, pauses of 0 ms and 100 ms, the
    third error returned; the outcome scripted for a fourth attempt is not
    consumed, and no keyword is stored. *)
Lemma three_deadlocks_give_up :
  let a := insertKeywordWithRetries three_deadlocks "hello" in
  fst a = Err "pq: deadlock detected" /\
  trace (snd a)
  = [Called None; Called (Some "pq: deadlock detected"); Paused 0;
     Called (Some "pq: deadlock detected"); Paused 100;
     Called (Some "pq: deadlock detected")] /\
  script (snd a) = [None] /\
  Keywords (tables (snd a)) = [].
Proof. vm_compute. repeat split. Qed.

(** An error that is not a deadlock is returned at once. *)
Lemma other_error_is_not_retried :
  let a := insertKeywordWithRetries disk_full "hello" in
  fst a = Err "pq: disk full" /\
  trace (snd a) = [Called None; Called (Some "pq: disk full")] /\
  script (snd a) = [None].
Proof. vm_compute. repeat split. Qed.

(** A deadlock that the second attempt overcomes does not stop the
    indexing: the page is committed. *)
Lemma one_deadlock_is_overcome :
  let r := @indexPage hello_extractor one_deadlock "http://a.test/" hello_page in
  fst r = Committed /\
  trace (snd r)
  = [Called None; Called None; Called None; Called None;
     Called None; Called (Some "pq: deadlock detected"); Paused 0; Called None;
     Called None; Called None] /\
  Keywords (tables (snd r)) = [(1, "hello")] /\
  KeywordIndex (tables (snd r)) = [(1, 1)].
Proof. vm_compute. repeat split. Qed.

(** With no failure the page, its link and its posting are committed. *)
Lemma indexPage_commits :
  let r := @indexPage hello_extractor healthy "http://a.test/" hello_page in
  fst r = Committed /\
  SearchIndex (tables (snd r))
  = [mkSearchIndexRow 1 "http://a.test/" "Hello" "" "hello" "en" "UNKNOWN" None 42] /\
  SourceSearchIndex (tables (snd r)) = [(1, 1)] /\
  Keywords (tables (snd r)) = [(1, "hello")] /\
  KeywordIndex (tables (snd r)) = [(1, 1)].
Proof. vm_compute. repeat split. Qed.

End IndexExamples.

(** ** Host names as lists of labels *)
Section LabelProps.
Import GoStr.

Lemma Split_not_nil (sep : ascii) (s : string) : Split sep s <> [].
Proof.
  induction s as [|c t IH]; cbn [Split]; [discriminate|].
  destruct (Ascii.eqb c sep); [discriminate|].
  destruct (Split sep t); discriminate.
Qed.

Lemma Split_free (sep : ascii) (s : string) :
  Forall (fun p => free_of sep p = true) (Split sep s).
Proof.
  induction s as [|c t IH]; cbn [Split]; [repeat constructor|].
  destruct (Ascii.eqb c sep) eqn:E; [constructor; [reflexivity|exact IH]|].
  destruct (Split sep t) as [|h r]; [repeat constructor; cbn; rewrite E; reflexivity|].
  inversion IH; subst. constructor; [|assumption].
  cbn [free_of]. rewrite E. cbn. assumption.
Qed.

Lemma Split_free_one (sep : ascii) (p : string) :
  free_of sep p = true -> Split sep p = [p].
Proof.
  induction p as [|c t IH]; cbn [Split free_of]; [reflexivity|].
  intros Hf. apply andb_prop in Hf. destruct Hf as [Hc Ht].
  apply negb_true_iff in Hc. rewrite Hc, (IH Ht). reflexivity.
Qed.

Lemma Split_app_sep (sep : ascii) (p rest : string) :
  free_of sep p = true ->
  Split sep (p ++ String sep rest)%string = p :: Split sep rest.
Proof.
  induction p as [|c t IH]; intros Hf.
  - change (Split sep (String sep rest) = EmptyString :: Split sep rest).
    cbn [Split]. rewrite Ascii.eqb_refl. reflexivity.
  - change (Split sep (String c (t ++ String sep rest)) = String c t :: Split sep rest).
    cbn [free_of] in Hf. apply andb_prop in Hf. destruct Hf as [Hc Ht].
    apply negb_true_iff in Hc. cbn [Split]. rewrite Hc, (IH Ht). reflexivity.
Qed.

(** Splitting what was joined gives the parts back. *)
Lemma Split_Join (sep : ascii) (l : list string) :
  l <> [] -> Forall (fun p => free_of sep p = true) l ->
  Split sep (Join sep l) = l.
Proof.
  induction l as [|p l IH]; intros Hne Hf; [contradiction|].
  inversion Hf as [|? ? Hp Hl]; subst.
  destruct l as [|q r]; cbn [Join].
  - apply Split_free_one. exact Hp.
  - rewrite Split_app_sep by exact Hp. f_equal.
    apply IH; [discriminate|exact Hl].
Qed.

Lemma Join_inj (sep : ascii) (l1 l2 : list string) :
  l1 <> [] -> l2 <> [] ->
  Forall (fun p => free_of sep p = true) l1 ->
  Forall (fun p => free_of sep p = true) l2 ->
  Join sep l1 = Join sep l2 -> l1 = l2.
Proof.
  intros N1 N2 F1 F2 E.
  rewrite <- (Split_Join sep l1 N1 F1), <- (Split_Join sep l2 N2 F2), E.
  reflexivity.
Qed.

End LabelProps.

(** ** The domain-scope filter *)
Section ScopeProps.
Import GoStr Links.

Lemma lastn_not_nil {A} (k : nat) (l : list A) :
  l <> [] -> (1 <= k)%nat -> lastn k l <> [].
Proof.
  intros Hl Hk E. apply (f_equal (@length A)) in E.
  unfold lastn in E. rewrite length_skipn in E. cbn in E.
  destruct l; [contradiction|]. cbn in E. lia.
Qed.

Lemma lastn_all {A} (k : nat) (l : list A) :
  (length l <= k)%nat -> lastn k l = l.
Proof.
  intros Hk. unfold lastn. replace (length l - k)%nat with O by lia. reflexivity.
Qed.

Lemma lastn_Forall {A} (P : A -> Prop) (k : nat) (l : list A) :
  Forall P l -> Forall P (lastn k l).
Proof. intros Hf. unfold lastn. apply Forall_drop. exact Hf. Qed.

(** For the scopes 1, 2 and 3, [getDomainParts] joins the last 3, 2 and 1
    labels (all of them when there are fewer). *)
Lemma getDomainParts_lastn (parts : list string) (level : Z) :
  parts <> [] -> 1 <= level <= 3 ->
  getDomainParts parts level = Join "." (lastn (Z.to_nat (4 - level)) parts).
Proof.
  intros Hne Hl. unfold getDomainParts.
  assert (Hlen : (1 <= length parts)%nat) by (destruct parts; [contradiction|cbn; lia]).
  assert (level = 1 \/ level = 2 \/ level = 3) as [-> | [-> | ->]] by lia;
    [change (Z.to_nat (4 - 1)) with 3%nat | change (Z.to_nat (4 - 2)) with 2%nat
     | change (Z.to_nat (4 - 3)) with 1%nat]; cbn [Z.eqb Pos.eqb andb].
  - destruct (Z.leb_spec 3 (Z.of_nat (length parts))); [reflexivity|].
    rewrite lastn_all by lia. reflexivity.
  - destruct (Z.leb_spec 2 (Z.of_nat (length parts))); [reflexivity|].
    rewrite lastn_all by lia. reflexivity.
  - destruct (Z.leb_spec 1 (Z.of_nat (length parts))); [|lia].
    pose proof (lastn_not_nil 1 parts Hne (le_n 1)) as Hn.
    assert (Hone : (length (lastn 1 parts) <= 1)%nat)
      by (unfold lastn; rewrite length_skipn; lia).
    destruct (lastn 1 parts) as [|p [|q r]]; [contradiction|reflexivity|cbn in Hone; lia].
Qed.

Lemma getDomainParts_eq_labels (h1 h2 : string) (level : Z) :
  1 <= level <= 3 ->
  String.eqb (getDomainParts (Split "." h1) level)
             (getDomainParts (Split "." h2) level) = true
  <-> labels (Z.to_nat (4 - level)) h1 = labels (Z.to_nat (4 - level)) h2.
Proof.
  intros Hl. rewrite String.eqb_eq.
  rewrite !getDomainParts_lastn by (try apply Split_not_nil; lia).
  unfold labels. split; [|intros ->; reflexivity].
  apply Join_inj.
  - apply lastn_not_nil; [apply Split_not_nil|lia].
  - apply lastn_not_nil; [apply Split_not_nil|lia].
  - apply lastn_Forall, Split_free.
  - apply lastn_Forall, Split_free.
Qed.

(** C4, as the code has it.  Scope 4 filters nothing.  In every other scope
    a link that, once trimmed, starts with "/" is never external, nor is any
    link when the seed or the link does not parse.  Otherwise: in scope 0 the
    link is in scope exactly when the two parsed URLs serialise to the same
    string; in scopes 1, 2 and 3 it is external exactly when the last 3, 2
    and 1 dot-separated labels of its host name differ from the seed's. *)
Theorem isExternalLink_scope `{NetURL} (sourceURL linkURL : string) (level : Z) :
  (level = 4 -> isExternalLink sourceURL linkURL level = false) /\
  (level <> 4 -> HasPrefix (TrimSpace linkURL) "/" = true ->
   isExternalLink sourceURL linkURL level = false) /\
  (level <> 4 ->
   url_Parse sourceURL = None \/ url_Parse (TrimSpace linkURL) = None ->
   isExternalLink sourceURL linkURL level = false) /\
  (forall src lnk,
      HasPrefix (TrimSpace linkURL) "/" = false ->
      url_Parse sourceURL = Some src ->
      url_Parse (TrimSpace linkURL) = Some lnk ->
      (level = 0 ->
       (isExternalLink sourceURL linkURL level = false
        <-> UrlString src = UrlString lnk)) /\
      (1 <= level <= 3 ->
       (isExternalLink sourceURL linkURL level = true
        <-> labels (Z.to_nat (4 - level)) (Hostname lnk)
            <> labels (Z.to_nat (4 - level)) (Hostname src)))).
Proof.
  unfold isExternalLink. split; [intros ->; reflexivity|].
  split.
  { intros Hl Hp. destruct (Z.eqb_spec level 4); [contradiction|].
    rewrite Hp. reflexivity. }
  split.
  { intros Hl Hp. destruct (Z.eqb_spec level 4); [contradiction|].
    destruct (HasPrefix (TrimSpace linkURL) "/"); [reflexivity|].
    destruct Hp as [-> | Hp]; [reflexivity|].
    destruct (url_Parse sourceURL); [|reflexivity].
    rewrite Hp. reflexivity. }
  intros src lnk Hp Hs Hk. rewrite Hp, Hs, Hk. split.
  - intros ->. cbn [Z.eqb]. rewrite negb_false_iff. apply String.eqb_eq.
  - intros Hl.
    destruct (Z.eqb_spec level 4); [lia|]. destruct (Z.eqb_spec level 0); [lia|].
    rewrite negb_true_iff, <- not_true_iff_false.
    rewrite (getDomainParts_eq_labels (Hostname src) (Hostname lnk) level Hl).
    split; intros Hne E; apply Hne; congruence.
Qed.

(** In scope 0, "in scope" does not imply "string-equal to the seed": a link
    starting with "/" is passed whatever the seed is. *)
Lemma scope0_passes_relative_link :
  ~ (forall (N : NetURL) (sourceURL linkURL : string),
        @isExternalLink N sourceURL linkURL 0 = false -> linkURL = sourceURL).
Proof.
  intros C.
  specialize (C no_parser "http://a.test/" "/about" eq_refl). discriminate.
Qed.

(** In scope 2 a protocol-relative link to another domain is not external,
    although the last two labels of its host differ from the seed's. *)
Lemma scope2_passes_protocol_relative_link :
  @isExternalLink two_url_parser "http://a.test/" "//other.test/x" 2 = false /\
  labels 2 "other.test" <> labels 2 "a.test".
Proof. split; [reflexivity|vm_compute; discriminate]. Qed.

End ScopeProps.


(** ** Link extraction *)
Section LinkProps.
Import GoStr Links.
Context `{NetURL} `{HtmlParser}.

(** The links [extractLinks] returns are the trimmed, non-empty, valid
    [href] values of the [<a>] elements of the parsed input, as written in
    the page: nothing is resolved against the source. *)
Lemma extractLinks_hrefs (htmlContent link : string) :
  In link (extractLinks htmlContent) <->
  exists a, In a (Find "a" (html_Parse htmlContent)) /\
            link = TrimSpace (fst (Attr "href" a)) /\
            link <> "" /\ IsValidURL link = true.
Proof.
  unfold extractLinks. rewrite in_flat_map. unfold link_of.
  split.
  - intros (a & Ha & Hl). exists a. split; [exact Ha|].
    destruct (String.eqb_spec (TrimSpace (fst (Attr "href" a))) ""); cbn [negb andb] in Hl;
      [contradiction|].
    destruct (IsValidURL _) eqn:Ev; [|contradiction].
    destruct Hl as [<-|[]]. repeat split; assumption.
  - intros (a & Ha & -> & Hne & Hv). exists a. split; [exact Ha|].
    destruct (String.eqb_spec (TrimSpace (fst (Attr "href" a))) ""); [contradiction|].
    cbn [negb andb]. rewrite Hv. left. reflexivity.
Qed.

(** [processJob] parses the TEXT of the body: when that text has no [<a>]
    element of its own, the page contributes no link. *)
Lemma processJob_links_from_body_text (htmlContent : string) :
  Find "a" (html_Parse (pageBodyText htmlContent)) = [] ->
  processJob_extractedLinks htmlContent = [].
Proof.
  intros E. unfold processJob_extractedLinks, extractLinks. rewrite E. reflexivity.
Qed.

(** A job that is not skipped is fetched as it was enqueued. *)
Lemma worker_fetches_enqueued (sourceURL : string) (restricted : Z)
    (jobs : list string) (u : string) :
  In u (worker_fetches sourceURL restricted jobs) -> In u jobs.
Proof. unfold worker_fetches. intros Hu. apply filter_In in Hu. tauto. Qed.

End LinkProps.

Section LinkExamples.
Import GoStr Links.

(** C3.  The same page gives its links when it is the seed and none when a
    worker crawls it, because [processJob] extracts links from the text of
    the body ("nextmore") and not from the rendered HTML; and a relative link
    is neither resolved by [extractLinks] nor by the worker, which fetches
    "/b" as it stands. *)
Theorem worker_pages_yield_no_links :
  @initialLinks site_urls page_parser page_source = ["http://a.test/c"; "/b"] /\
  @pageBodyText page_parser page_source = "nextmore" /\
  @processJob_extractedLinks site_urls page_parser page_source = [] /\
  @skipURL site_urls "http://a.test/" 2 "/b" = false /\
  @worker_fetches site_urls "http://a.test/" 2 ["http://a.test/c"; "/b"]
  = ["http://a.test/c"; "/b"].
Proof. vm_compute. repeat split. Qed.

(** The scope filter at work on the same site (scope 2). *)
Lemma scope2_example :
  @isExternalLink site_urls "http://a.test/" "http://a.test/b" 2 = false /\
  @isExternalLink site_urls "http://a.test/" "http://other.test/" 2 = true /\
  @isExternalLink site_urls "http://a.test/" "http://other.test/" 4 = false /\
  @isExternalLink site_urls "http://a.test/" "http://a.test/b" 0 = true /\
  @isExternalLink site_urls "http://a.test/" " http://a.test/ " 0 = false.
Proof. vm_compute. repeat split. Qed.

End LinkExamples.


(** ** URL pre-conditions of an execution plan item *)
Section PreConditionProps.
Import GoStr.

(** The loop keeps only the verdict on the pattern it visited last. *)
Lemma overwrite_fold (url : string) (patterns : list string) (b : bool) :
  fold_left (fun (canProceed : bool) pattern =>
               if Contains url pattern then true else false) patterns b
  = match last patterns with
    | Some p => Contains url p
    | None => b
    end.
Proof.
  revert b. induction patterns as [|p rest IH]; intros b; [reflexivity|].
  cbn [fold_left]. rewrite IH.
  destruct rest as [|q rest']; [cbn; destruct (Contains url p); reflexivity|].
  change (last (p :: q :: rest')) with (last (q :: rest')).
  destruct (last (q :: rest')) eqn:E; [reflexivity|].
  apply last_None in E. discriminate.
Qed.

(** What [checkScrapingPreConditions] and [checkActionPreConditions]
    compute: true on an empty list, and otherwise whether the url contains
    the LAST pattern. *)
Lemma preconditions_last_pattern (patterns : list string) (url : string) :
  ScrapingRules.checkScrapingPreConditions patterns url
  = match last patterns with
    | Some p => Contains url p
    | None => true
    end /\
  ActionRules.checkActionPreConditions patterns url
  = ScrapingRules.checkScrapingPreConditions patterns url.
Proof.
  unfold ScrapingRules.checkScrapingPreConditions, ActionRules.checkActionPreConditions.
  split; [|reflexivity].
  destruct patterns as [|p rest]; [reflexivity|].
  change (0 <? Z.of_nat (length (p :: rest))) with (0 <? Z.pos (Pos.of_succ_nat (length rest))).
  cbn [Z.ltb Z.compare]. apply overwrite_fold.
Qed.

(** C9.  With the patterns ["/blog/"; "a.test"] the page
    [http://a.test/shop] passes both checks, although it does not contain the
    first pattern: the result is the match of the last pattern, not the
    conjunction over all of them.  On the empty list both return true. *)
Theorem preconditions_last_pattern_wins :
  let patterns := ["/blog/"; "a.test"] in
  let url := "http://a.test/shop" in
  Contains url "/blog/" = false /\
  forallb (Contains url) patterns = false /\
  ScrapingRules.checkScrapingPreConditions patterns url = true /\
  ActionRules.checkActionPreConditions patterns url = true /\
  ScrapingRules.checkScrapingPreConditions [] url = true /\
  ActionRules.checkActionPreConditions [] url = true.
Proof. vm_compute. repeat split. Qed.

End PreConditionProps.


(** ** The rule engine: what a computation adds to the log *)
Section LogProps.
Import Ruleset Engine.
Context {W : Type}.

Lemma adds_ret {A} (P : event -> Prop) (a : A) : adds (W:=W) P (ret a).
Proof. intros s. exists []. cbn. rewrite app_nil_r. split; [reflexivity|constructor]. Qed.

Lemma adds_panic {A} (P : event -> Prop) : adds P (@panic W A).
Proof. intros s. exists []. cbn. rewrite app_nil_r. split; [reflexivity|constructor]. Qed.

Lemma adds_emit (P : event -> Prop) (e : event) : P e -> adds (W:=W) P (emit e).
Proof. intros He s. exists [e]. cbn. split; [reflexivity|repeat constructor; exact He]. Qed.

Lemma adds_call {A} (P : event -> Prop) (f : W -> A * W) : adds P (call f).
Proof.
  intros s. exists []. unfold call. destruct (f (world s)). cbn.
  rewrite app_nil_r. split; [reflexivity|constructor].
Qed.

Lemma adds_ask {A} (P : event -> Prop) (f : W -> A) : adds P (ask f).
Proof. intros s. exists []. cbn. rewrite app_nil_r. split; [reflexivity|constructor]. Qed.

Lemma adds_bind {A B} (P : event -> Prop) (c : M W A) (k : A -> M W B) :
  adds P c -> (forall a, adds P (k a)) -> adds P (let* x := c in k x).
Proof.
  intros Hc Hk s. unfold bind. destruct (Hc s) as (l1 & E1 & F1).
  destruct (c s) as [a s1|s1]; cbn [final] in *.
  - destruct (Hk a s1) as (l2 & E2 & F2). exists (l1 ++ l2).
    rewrite E2, E1, app_assoc. split; [reflexivity|apply Forall_app; split; assumption].
  - exists l1. split; assumption.
Qed.

Lemma adds_weaken {A} (P Q : event -> Prop) (c : M W A) :
  (forall e, P e -> Q e) -> adds P c -> adds Q c.
Proof.
  intros HPQ Hc s. destruct (Hc s) as (l & E & F). exists l. split; [exact E|].
  eapply Forall_impl; eassumption.
Qed.

End LogProps.

(** Decompose an [adds] goal along the structure of the computation. *)
Ltac adds_step :=
  match goal with
  | |- adds _ (Engine.ret _) => apply adds_ret
  | |- adds _ Engine.panic => apply adds_panic
  | |- adds _ (Engine.call _) => apply adds_call
  | |- adds _ (Engine.ask _) => apply adds_ask
  | |- adds _ (Engine.emit _) => apply adds_emit
  | |- adds _ (Engine.bind _ _) => apply adds_bind; [|intros ?]
  | |- adds _ (match ?x with _ => _ end) => destruct x
  end.

(** ** Guards of action and scraping rules *)
Section GuardProps.
Import GoStr Ruleset Engine.
Context {W : Type} `{Session W}.

Lemma value_eqb_eq (a b : value) : value_eqb a b = true <-> a = b.
Proof.
  destruct a, b; cbn; split; intros E; try discriminate; try reflexivity.
  - apply String.eqb_eq in E. congruence.
  - injection E as ->. apply String.eqb_refl.
  - apply Bool.eqb_prop in E. congruence.
  - injection E as ->. apply Bool.eqb_reflx.
  - apply Z.eqb_eq in E. congruence.
  - injection E as ->. apply Z.eqb_refl.
Qed.

(** The guards and the wait conditions leave no trace of their own in the
    log. *)
Lemma checkScrapingConditions_silent (conditions : gmap string value) :
  adds (fun _ => False) (ScrapingRules.checkScrapingConditions conditions).
Proof.
  unfold ScrapingRules.checkScrapingConditions, ActionRules.assertString.
  repeat adds_step.
Qed.

Lemma checkActionConditions_silent (conditions : gmap string value) :
  adds (fun _ => False) (ActionRules.checkActionConditions conditions).
Proof.
  unfold ActionRules.checkActionConditions, ActionRules.assertString.
  repeat adds_step.
Qed.

Lemma executeWaitConditions_silent (wcs : list WaitCondition) :
  adds (fun _ => False) (ScrapingRules.executeWaitConditions wcs).
Proof.
  induction wcs as [|wc rest IH]; cbn [ScrapingRules.executeWaitConditions];
    repeat adds_step; exact IH.
Qed.

(** The verdict of [checkScrapingConditions] on a page whose language is
    not the one the rule asks for: never [true]. *)
Lemma checkScrapingConditions_language (conditions : gmap string value)
    (wanted : value) (s : St W) :
  conditions !! "language" = Some wanted ->
  (forall w, fst (fst (ExecuteScript lang_script w)) <> wanted) ->
  forall s', ScrapingRules.checkScrapingConditions conditions s <> Ret true s'.
Proof.
  intros Hl Hpage s'. unfold ScrapingRules.checkScrapingConditions.
  destruct (0 <? Z.of_nat (size conditions)) eqn:Hsz.
  2:{ exfalso. apply Z.ltb_ge in Hsz.
      assert (size conditions <> O) as Hn.
      { intros E. apply map_size_empty_iff in E. subst conditions.
        rewrite lookup_empty in Hl. discriminate. }
      lia. }
  rewrite Hl. unfold bind at 1.
  match goal with
  | |- match ?c s with Ret _ _ => _ | Panic _ => _ end <> _ =>
      destruct (c s) as [b s1|s1]; [|discriminate]
  end.
  unfold bind, call. fold lang_script.
  pose proof (Hpage (world s1)) as Hw.
  destruct (ExecuteScript lang_script (world s1)) as [[lang err] w1]. cbn [fst] in Hw.
  assert (value_eqb lang wanted = false) as Hne.
  { destruct (value_eqb lang wanted) eqn:E; [|reflexivity].
    apply value_eqb_eq in E. contradiction. }
  rewrite Hne. cbn [negb ret]. discriminate.
Qed.

(** A scraping rule that asks for a language is not applied to a page in
    another language: its run adds [Executed] to the log and nothing else,
    whatever its other conditions are. *)
Lemma executeScrapingRule_language (r : ScrapingRule) (wanted : value) (s : St W) :
  SConditions r !! "language" = Some wanted ->
  (forall w, fst (fst (ExecuteScript lang_script w)) <> wanted) ->
  log (final (ScrapingRules.executeScrapingRule r s))
  = log s ++ [Executed (SRuleName r)].
Proof.
  intros Hl Hpage. unfold ScrapingRules.executeScrapingRule.
  unfold bind at 1. cbn [emit].
  set (s0 := mkSt (world s) (log s ++ [Executed (SRuleName r)])).
  set (waits := if negb (Z.of_nat (length (SWaitConditions r)) =? 0)
                then ScrapingRules.executeWaitConditions (SWaitConditions r)
                else ret None).
  assert (Hw : adds (fun _ => False) waits).
  { unfold waits. destruct (negb _); [apply executeWaitConditions_silent|apply adds_ret]. }
  unfold bind at 1. destruct (Hw s0) as (l1 & E1 & F1).
  assert (l1 = []) as -> by (destruct l1; [reflexivity|inversion F1; contradiction]).
  rewrite app_nil_r in E1.
  destruct (waits s0) as [[e|] s1|s1]; cbn [final] in *;
    [exact E1| |exact E1].
  unfold bind at 1. unfold ScrapingRules.shouldExecuteScrapingRule.
  destruct (Z.eqb_spec (Z.of_nat (size (SConditions r))) 0) as [Hz|Hz].
  { exfalso. assert (size (SConditions r) = O) as E by lia.
    apply map_size_empty_iff in E. rewrite E, lookup_empty in Hl. discriminate. }
  pose proof (checkScrapingConditions_language _ _ s1 Hl Hpage) as Hno.
  destruct (checkScrapingConditions_silent (SConditions r) s1) as (l2 & E2 & F2).
  assert (l2 = []) as -> by (destruct l2; [reflexivity|inversion F2; contradiction]).
  rewrite app_nil_r in E2.
  destruct (ScrapingRules.checkScrapingConditions (SConditions r) s1) as [[|] s2|s2];
    cbn [final] in *.
  - exfalso. apply (Hno s2). reflexivity.
  - unfold bind, ret. cbn. change (0 <? Z.of_nat 0) with false. cbn.
    rewrite E2, E1. reflexivity.
  - rewrite E2, E1. reflexivity.
Qed.

(** In [checkActionConditions] the verdict of a "plugin_call" condition
    replaces what the conditions before it have found: when the plugin
    returns "true", the guard passes, whatever the language of the page. *)
Lemma checkActionConditions_plugin_overrides (conditions : gmap string value)
    (name code : string) (s : St W) :
  conditions !! "element" = None ->
  is_Some (conditions !! "plugin_call") ->
  conditions !! "selector" = Some (VStr name) ->
  (forall w, GetPlugin name w = Some code) ->
  (forall w, snd (fst (ExecuteScript code w)) = None /\
             ToLower (TrimSpace (sprint (fst (fst (ExecuteScript code w))))) = "true") ->
  exists s', ActionRules.checkActionConditions conditions s = Ret true s'.
Proof.
  intros He [v Hp] Hs Hg Hx. unfold ActionRules.checkActionConditions.
  destruct (0 <? Z.of_nat (size conditions)) eqn:Hsz.
  2:{ exfalso. apply Z.ltb_ge in Hsz.
      assert (size conditions = O) as E by lia.
      apply map_size_empty_iff in E. rewrite E, lookup_empty in Hs. discriminate. }
  rewrite He, Hp, Hs. unfold bind at 1. cbn [ret].
  unfold bind at 1.
  assert (Hlang : exists b s1,
             match conditions !! "language" with
             | Some wanted =>
                 let* rv := call (ExecuteScript "return document.documentElement.lang") in
                 let '(lang, err) := rv in
                 ret (if negb (value_eqb lang wanted) then false
                      else match err with Some _ => false | None => true end)
             | None => ret true
             end s = Ret b s1).
  { destruct (conditions !! "language"); [|eexists _, _; reflexivity].
    unfold bind, call. destruct (ExecuteScript _ (world s)) as [[lang err] w1].
    eexists _, _. reflexivity. }
  destruct Hlang as (b & s1 & ->).
  cbn [ActionRules.assertString]. unfold bind at 1. cbn [ret].
  unfold bind at 1. unfold ask. rewrite Hg.
  unfold bind, call. destruct (Hx (world s1)) as [Herr Htrue].
  destruct (ExecuteScript code (world s1)) as [[rval err] w2]. cbn [fst snd] in *.
  subst err. rewrite Htrue. cbn. eexists. reflexivity.
Qed.

End GuardProps.


(** ** Retries of an action rule *)
Section RetryProps.
Import GoStr Ruleset Engine ActionRules.
Context {W : Type} `{Session W}.

Lemma attempts_from_not_nil (r : ActionRule) (s s' : St W) (os : list (option string)) :
  attempts_from r s os s' -> os <> [].
Proof. destruct 1; discriminate. Qed.

Lemma attempts_from_outcomes (r : ActionRule) (s s' : St W) (os : list (option string)) :
  attempts_from r s os s' ->
  forall o, In o os -> exists sa sb, executeActionRule r sa = Ret o sb.
Proof.
  induction 1 as [s o s1 E|s e s1 os s2 E _ IH]; intros o' Ho.
  - destruct Ho as [<-|[]]. eauto.
  - destruct Ho as [<-|Ho]; [eauto|]. apply IH. exact Ho.
Qed.

Lemma retry_pause (r : ActionRule) (s : St W) :
  (if 0 <? RetryDelay (ErrHandling r)
   then emit (Slept (RetryDelay (ErrHandling r))) else ret tt) s
  = Ret tt (pause r s).
Proof. unfold pause. destruct (0 <? _); reflexivity. Qed.

(** The retry loop with [n >= 1] iterations to go: it executes the rule
    until an execution succeeds, at most [n] times, pausing before each. *)
Lemma retryLoop_attempts (r : ActionRule) (n : nat) (s : St W) :
  (forall s, exists o s1, executeActionRule r s = Ret o s1) ->
  (1 <= n)%nat ->
  exists os s',
    retryLoop n r s = Ret tt s' /\
    attempts_from r (pause r s) os s' /\
    (length os <= n)%nat /\
    (last os = Some None \/ length os = n).
Proof.
  intros Hnp. revert s. induction n as [|n IH]; intros s Hn; [lia|].
  cbn [retryLoop]. unfold bind at 1. rewrite retry_pause.
  unfold bind at 1. destruct (Hnp (pause r s)) as (o & s1 & E). rewrite E.
  destruct o as [e|].
  - destruct n as [|n].
    + exists [Some e], s1. cbn [retryLoop ret]. split; [reflexivity|].
      split; [apply attempts_last; exact E|]. split; [cbn; lia|right; reflexivity].
    + destruct (IH s1) as (os & s' & Hr & Ha & Hlen & Hlast); [lia|].
      exists (Some e :: os), s'. split; [exact Hr|].
      split; [eapply attempts_retry; eassumption|]. split; [cbn; lia|].
      pose proof (attempts_from_not_nil _ _ _ _ Ha) as Hne.
      destruct os as [|o os]; [contradiction|].
      destruct Hlast as [Hlast|Hlast]; [left; exact Hlast|right; cbn in *; lia].
  - exists [None], s1. split; [reflexivity|].
    split; [apply attempts_last; exact E|]. split; [cbn; lia|left; reflexivity].
Qed.

(** C6.  An action rule with [ignore = false] and [retry_count = N > 0]
    whose executions do not panic: [executeRule] executes it until an
    execution succeeds, at most [N + 1] times (an initial attempt and up to
    [N] retries), pausing [retry_delay] seconds before each retry; it executes
    it exactly [N + 1] times when every execution fails.  It returns normally
    whatever the outcomes, and [executeActionRules] goes on with the rules
    that follow; [executeActionRuleByName] does the same for the rule it
    finds. *)
Theorem executeRule_attempts (r : ActionRule) (s : St W) :
  Ignore (ErrHandling r) = false ->
  0 < RetryCount (ErrHandling r) ->
  (forall s, exists o s1, executeActionRule r s = Ret o s1) ->
  exists os s',
    executeRule r s = Ret tt s' /\
    attempts_from r s os s' /\
    (length os <= Z.to_nat (RetryCount (ErrHandling r)) + 1)%nat /\
    (last os = Some None \/
     length os = (Z.to_nat (RetryCount (ErrHandling r)) + 1)%nat) /\
    ((forall sa sb, executeActionRule r sa <> Ret None sb) ->
     length os = (Z.to_nat (RetryCount (ErrHandling r)) + 1)%nat) /\
    (forall rest,
        executeActionRules (r :: rest) s
        = executeActionRules rest (mkSt (world s') (log s' ++ [Counted]))) /\
    (forall name,
        GetActionRuleByName name (world s) = Some r ->
        executeActionRuleByName name s = Ret tt s').
Proof.
  intros Hi Hn Hnp.
  assert (Hcore : exists os s',
             executeRule r s = Ret tt s' /\ attempts_from r s os s' /\
             (length os <= Z.to_nat (RetryCount (ErrHandling r)) + 1)%nat /\
             (last os = Some None \/
              length os = (Z.to_nat (RetryCount (ErrHandling r)) + 1)%nat)).
  { unfold executeRule, bind. destruct (Hnp s) as (o & s1 & E). rewrite E.
    destruct o as [e|]; cbn [handleRuleError].
    - rewrite Hi. cbn [negb]. destruct (Z.ltb_spec 0 (RetryCount (ErrHandling r))); [|lia].
      destruct (retryLoop_attempts r (Z.to_nat (RetryCount (ErrHandling r))) s1 Hnp)
        as (os & s' & Hr & Ha & Hlen & Hlast); [lia|].
      (* the first pause belongs to the loop *)
      exists (Some e :: os), s'. split; [exact Hr|].
      split; [eapply attempts_retry; eassumption|]. split; [cbn; lia|].
      pose proof (attempts_from_not_nil _ _ _ _ Ha) as Hne.
      destruct os as [|o os]; [contradiction|].
      destruct Hlast as [Hlast|Hlast]; [left; exact Hlast|right; cbn in *; lia].
    - exists [None], s1. split; [reflexivity|].
      split; [apply attempts_last; exact E|]. split; [cbn; lia|left; reflexivity]. }
  destruct Hcore as (os & s' & Hrun & Ha & Hlen & Hlast).
  exists os, s'. repeat (split; [assumption|]). split; [|split].
  - intros Hfail. destruct Hlast as [Hlast|Hlast]; [|exact Hlast].
    exfalso. apply last_Some in Hlast. destruct Hlast as (l' & ->).
    destruct (attempts_from_outcomes _ _ _ _ Ha None) as (sa & sb & E).
    + apply in_or_app. right. left. reflexivity.
    + exact (Hfail sa sb E).
  - intros rest. cbn [executeActionRules]. unfold bind at 1. rewrite Hrun.
    unfold bind at 1. reflexivity.
  - intros name Hfind. unfold executeActionRuleByName, bind at 1, ask.
    rewrite Hfind. exact Hrun.
Qed.

End RetryProps.


(** ** A click on a selector that matches nothing *)
Section ClickProps.
Import GoStr Ruleset Engine ActionRules.
Context {W : Type} `{Session W}.

Lemma findElementByType_nothing (selectorType selector : string) (s : St W) :
  (forall by_ value w, fst (fst (FindElement by_ value w)) = None) ->
  exists err s',
    findElementByType selectorType selector s = Ret (None, err) s' /\
    log s' = log s.
Proof.
  intros Hnone. unfold findElementByType.
  assert (Hcall : forall by_, exists err s',
             call (FindElement by_ selector) s = Ret (None, err) s' /\ log s' = log s).
  { intros by_. unfold call. pose proof (Hnone by_ selector (world s)) as E.
    destruct (FindElement by_ selector (world s)) as [[wdf err] w]. cbn [fst] in E.
    subst wdf. eexists _, _. split; reflexivity. }
  repeat match goal with
         | |- context [if ?b then _ else _] => destruct b; [apply Hcall|]
         end.
  eexists _, _. split; reflexivity.
Qed.

Lemma findElementLoop_nothing (selectors : list Selector) (selector : Selector)
    (err : option string) (s : St W) :
  (forall by_ value w, fst (fst (FindElement by_ value w)) = None) ->
  exists selector' err' s',
    findElementLoop selectors None selector err s = Ret (None, selector', err') s' /\
    log s' = log s.
Proof.
  intros Hnone. revert selector err s.
  induction selectors as [|sel rest IH]; intros selector err s; cbn [findElementLoop].
  - eexists _, _, _. split; reflexivity.
  - unfold bind at 1.
    destruct (findElementByType_nothing (SelectorType sel) (SelectorText sel) s Hnone)
      as (err1 & s1 & -> & L1).
    destruct (IH sel err1 s1) as (sel' & err' & s' & E & L).
    destruct err1; rewrite E; eexists _, _, _; (split; [reflexivity|congruence]).
Qed.

(** [executeActionClick] returns nil when no selector finds an element. *)
Lemma executeActionClick_nothing_found (r : ActionRule) (s : St W) :
  (forall by_ value w, fst (fst (FindElement by_ value w)) = None) ->
  exists s', executeActionClick r s = Ret None s' /\ log s' = log s.
Proof.
  intros Hnone. unfold executeActionClick, findElementBySelectorType, bind.
  destruct (findElementLoop_nothing (Selectors r) (mkSelector "" "" "" "" "") None s Hnone)
    as (sel' & err' & s' & -> & L).
  exists s'. split; [|exact L]. destruct err'; reflexivity.
Qed.

(** Hence a click rule without wait conditions and conditions, on a page
    where its selectors match nothing, is executed once by [executeRule],
    whatever its [retry_count]. *)
Lemma click_on_nothing_runs_once (r : ActionRule) (s : St W) :
  ToLower (TrimSpace (ActionType r)) = "click" ->
  WaitConditions r = [] -> Conditions r = ∅ ->
  (forall by_ value w, fst (fst (FindElement by_ value w)) = None) ->
  exists s',
    executeRule r s = Ret tt s' /\
    log s' = log s ++ [Attempted (RuleName r); Applied (RuleName r)].
Proof.
  intros Ht Hw Hc Hnone.
  unfold executeRule, executeActionRule, dispatchAction.
  rewrite Hw, Hc, Ht, map_size_empty. cbn [executeWaitLoop].
  unfold bind at 1. unfold bind at 1. cbn [emit]. unfold bind at 1. cbn [ret].
  change (Z.of_nat 0 =? 0) with true. cbn [String.eqb Ascii.eqb Bool.eqb].
  unfold bind at 1. cbn [emit].
  match goal with
  | |- context [executeActionClick r ?s0] =>
      destruct (executeActionClick_nothing_found r s0 Hnone) as (s' & E & L)
  end.
  unfold bind. rewrite E. cbn [handleRuleError ret]. exists s'. split; [reflexivity|].
  rewrite L. cbn [log]. rewrite <- app_assoc. reflexivity.
Qed.

End ClickProps.

(** ** Rulesets and rule groups *)
Section CollectionProps.
Import GoStr Ruleset Engine ScrapingRules.
Context {W : Type} `{Session W}.

(** A ruleset stops at a rule whose error mentions "Critical": the rules
    after it are not executed, the document is dropped and the error is
    returned. *)
Lemma ruleset_aborts_on_critical (r : ScrapingRule) (rest : list ScrapingRule)
    (doc : string) (s s1 : St W) (data e : string) :
  executeScrapingRule r s = Ret (data, Some e) s1 ->
  Contains e "Critical" = true ->
  rulesetLoop (r :: rest) doc s = Ret (inl e) s1.
Proof.
  intros E Hc. cbn [rulesetLoop]. unfold bind. rewrite E, Hc. reflexivity.
Qed.

(** A rule group consults no error: whatever a rule returns, the loop goes
    on with the next rule. *)
Lemma ruleGroup_continues (r : ScrapingRule) (rest : list ScrapingRule)
    (doc : string) (err0 : option string) (s s1 : St W) (data : string)
    (err : option string) :
  executeScrapingRule r s = Ret (data, err) s1 ->
  ruleGroupLoop (r :: rest) doc err0 s
  = ruleGroupLoop rest (addScrapedDataToDocument doc data) err s1.
Proof.
  intros E. cbn [ruleGroupLoop]. unfold bind. rewrite E. reflexivity.
Qed.

End CollectionProps.

(** ** A scripted browser session, to run the engine on *)
Section EngineExamples.
Import GoStr Ruleset Engine.

(** C5.  On a French page the action rule that asks for English is applied
    all the same, because the verdict of its "plugin_call" condition, checked
    last, replaces the verdict of the language check.  Without the plugin
    call the rule is not applied, and a scraping rule with the same language
    condition is not applied either. *)
Theorem language_guard_overridden_by_plugin :
  ActionRules.checkActionConditions (Conditions english_only_click) (start french_page)
  = Ret true (start french_page) /\
  log (final (ActionRules.executeActionRule english_only_click (start french_page)))
  = [Attempted "accept-cookies"; Applied "accept-cookies"] /\
  log (final (ActionRules.executeActionRule english_only_click_plain (start french_page)))
  = [Attempted "accept-cookies"] /\
  log (final (ScrapingRules.executeScrapingRule english_only_scrape (start french_page)))
  = [Executed "headline"].
Proof. vm_compute. repeat split. Qed.

(** C7.  As a ruleset the two rules stop at the critical error of the first:
    the second is not executed and the error is returned.  As a rule group
    the second rule is executed after the critical error, its data is
    returned, and the error is lost. *)
Theorem rule_group_ignores_critical :
  Contains "executing scraping rule: Critical: selector engine crashed" "Critical"
  = true /\
  (exists e,
      ScrapingRules.executeScrapingRulesInRuleset broken_then_fine (start price_is_critical)
      = Ret ("", Some e)
          (mkSt price_is_critical [EnvSet; Executed "price"; Scraped "price"])) /\
  ScrapingRules.executeScrapingRulesInRuleGroup broken_then_fine (start price_is_critical)
  = Ret ("title:1", None)
      (mkSt price_is_critical
         [EnvSet; Executed "price"; Scraped "price";
          Executed "title"; Scraped "title"; EnvCleared]).
Proof.
  split; [vm_compute; reflexivity|]. split.
  - eexists. vm_compute. reflexivity.
  - vm_compute. reflexivity.
Qed.

(** A rule that does fail: three executions, a pause of one second before
    each retry; two executions when the first retry succeeds. *)
Lemma stubborn_hover_three_attempts :
  ActionRules.executeRule stubborn_hover (start menu_never_opens)
  = Ret tt (mkSt (mkBrowser "en" [] [] 0 [] [stubborn_hover] [])
              [Attempted "open-menu"; Applied "open-menu"; Slept 1;
               Attempted "open-menu"; Applied "open-menu"; Slept 1;
               Attempted "open-menu"; Applied "open-menu"]) /\
  log (final (ActionRules.executeRule stubborn_hover (start menu_opens_late)))
  = [Attempted "open-menu"; Applied "open-menu"; Slept 1;
     Attempted "open-menu"; Applied "open-menu"] /\
  ActionRules.executeActionRuleByName "open-menu" (start menu_never_opens)
  = ActionRules.executeRule stubborn_hover (start menu_never_opens).
Proof. vm_compute. repeat split. Qed.

(** A click on a selector that matches nothing is no error: the rule is
    executed once and never retried, whatever its retry settings. *)
Lemma click_on_absent_single_attempt :
  ActionRules.executeRule click_on_absent (start page_without_banner)
  = Ret tt (mkSt page_without_banner
              [Attempted "dismiss-banner"; Applied "dismiss-banner"]).
Proof. vm_compute. reflexivity. Qed.

End EngineExamples.

Section RetryWitness.
Import GoStr Ruleset Engine ActionRules.

Lemma stubborn_hover_never_panics (s : St Browser) :
  exists o s1, executeActionRule stubborn_hover s = Ret o s1.
Proof.
  destruct s as [[pl reg sr [|n] se kr el] l]; vm_compute; eexists _, _; reflexivity.
Qed.

(** The theorem on the retries, at the rule whose action keeps failing. *)
Lemma executeRule_attempts_witness :
  Ignore (ErrHandling stubborn_hover) = false /\
  0 < RetryCount (ErrHandling stubborn_hover) /\
  exists os s',
    executeRule stubborn_hover (start menu_never_opens) = Ret tt s' /\
    attempts_from stubborn_hover (start menu_never_opens) os s' /\
    (length os <= Z.to_nat (RetryCount (ErrHandling stubborn_hover)) + 1)%nat /\
    (last os = Some None \/
     length os = (Z.to_nat (RetryCount (ErrHandling stubborn_hover)) + 1)%nat) /\
    ((forall sa sb, executeActionRule stubborn_hover sa <> Ret None sb) ->
     length os = (Z.to_nat (RetryCount (ErrHandling stubborn_hover)) + 1)%nat) /\
    (forall rest,
        executeActionRules (stubborn_hover :: rest) (start menu_never_opens)
        = executeActionRules rest (mkSt (world s') (log s' ++ [Counted]))) /\
    (forall name,
        GetActionRuleByName name (world (start menu_never_opens)) = Some stubborn_hover ->
        executeActionRuleByName name (start menu_never_opens) = Ret tt s').
Proof.
  split; [reflexivity|]. split; [reflexivity|].
  apply (executeRule_attempts stubborn_hover (start menu_never_opens)).
  - reflexivity.
  - reflexivity.
  - exact stubborn_hover_never_panics.
Defined.

End RetryWitness.

(** ** The stored procedure as a lease on sources *)
Section LeaseProps.
Import Sql Dispatcher Crawler.

Lemma NoDup_map_firstn {A B} (f : A -> B) (n : nat) (l : list A) :
  List.NoDup (map f l) -> List.NoDup (map f (firstn n l)).
Proof.
  intros Hnd. rewrite <- (firstn_skipn n l), map_app in Hnd.
  exact (List.NoDup_app_remove_r _ _ Hnd).
Qed.

Lemma NoDup_map_filter {A B} (f : A -> B) (P : A -> bool) (l : list A) :
  List.NoDup (map f l) -> List.NoDup (map f (List.filter P l)).
Proof.
  induction l as [|x l IH]; cbn [List.filter map]; intros Hnd; [constructor|].
  inversion Hnd as [|? ? Hnotin Hnd']; subst.
  destruct (P x); [|apply IH; assumption].
  cbn [map]. constructor; [|apply IH; assumption].
  intros Hin. apply Hnotin. apply in_map_iff in Hin.
  destruct Hin as (y & E & Hy). apply filter_In in Hy.
  rewrite <- E. apply in_map. tauto.
Qed.

Lemma picked_NoDup (now limit_val : Z) (tbl : list Source) :
  List.NoDup (map source_id tbl) ->
  List.NoDup (map source_id (picked now limit_val tbl)).
Proof.
  intros Hnd. unfold picked. apply NoDup_map_firstn, NoDup_map_filter, Hnd.
Qed.

Lemma ids_returning (f : Source -> Source) (l : list Source) :
  (forall s, source_id (f s) = source_id s) ->
  ids (map returning (map f l)) = map source_id l.
Proof.
  intros Hf. unfold ids. rewrite !map_map. apply map_ext. intros s. cbn. apply Hf.
Qed.

Lemma claim_id (now : Z) (s : Source) : source_id (claim now s) = source_id s.
Proof. reflexivity. Qed.

(** X1.  One call of [update_sources], on a table whose [source_id] is a
    key and with a limit that is not negative: it returns
    [min limit_val (number of rows whose condition is TRUE)] rows, no id
    twice; each returned row was eligible, is now 'processing' in the table
    with [last_updated_at] set to the time of the call, and is returned with
    that new [last_updated_at]; every other row is in the table as it was,
    and the table holds nothing else. *)
Theorem update_sources_atomic_claim (now limit_val : Z) (tbl : list Source) :
  List.NoDup (map source_id tbl) -> 0 <= limit_val ->
  exists ret tbl',
    update_sources now limit_val tbl = Some (ret, tbl') /\
    Z.of_nat (length ret)
    = Z.min limit_val
        (Z.of_nat (length (List.filter (fun s => holds (selectable now s)) tbl))) /\
    List.NoDup (ids ret) /\
    (forall c, In c ret ->
       exists s, In s tbl /\ eligible now s /\ c = returning (claim now s) /\
                 In (claim now s) tbl' /\ c_last_updated_at c = Some now) /\
    (forall s, In s tbl -> ~ In (source_id s) (ids ret) -> In s tbl') /\
    (forall s', In s' tbl' ->
       In s' tbl \/
       exists s, In s tbl /\ In (source_id s) (ids ret) /\ s' = claim now s) /\
    map source_id tbl' = map source_id tbl.
Proof.
  intros Hnd Hl. rewrite update_sources_claims by assumption.
  eexists _, _. split; [reflexivity|].
  set (P := picked now limit_val tbl).
  assert (Hids : ids (map returning (map (claim now) P)) = map source_id P)
    by (apply ids_returning, claim_id).
  rewrite Hids.
  set (upd := fun s => if id_in (source_id s) (map source_id P) then claim now s else s).
  split; [|split; [|split; [|split; [|split]]]].
  - rewrite !length_map. subst P. unfold picked. rewrite length_firstn. lia.
  - apply picked_NoDup, Hnd.
  - intros c Hc. apply in_map_iff in Hc. destruct Hc as (s' & <- & Hs').
    apply in_map_iff in Hs'. destruct Hs' as (s & <- & Hs).
    destruct (picked_eligible _ _ _ _ Hs) as [Hin Hel].
    exists s. split; [exact Hin|]. split; [exact Hel|]. split; [reflexivity|].
    split; [|reflexivity].
    apply in_map_iff. exists s. split; [|exact Hin].
    assert (E : id_in (source_id s) (map source_id P) = true)
      by (apply id_in_In, in_map, Hs).
    unfold upd. rewrite E. reflexivity.
  - intros s Hin Hnot. apply in_map_iff. exists s. split; [|exact Hin].
    unfold upd.
    destruct (id_in (source_id s) (map source_id P)) eqn:E; [|reflexivity].
    apply id_in_In in E. contradiction.
  - intros s' Hs'. apply in_map_iff in Hs'. destruct Hs' as (s & <- & Hin).
    unfold upd.
    destruct (id_in (source_id s) (map source_id P)) eqn:E.
    + right. exists s. apply id_in_In in E. repeat split; assumption.
    + left. exact Hin.
  - rewrite map_map. apply map_ext. intros s. unfold upd.
    destruct (id_in (source_id s) (map source_id P)); reflexivity.
Qed.

Lemma update_sources_atomic_claim_witness :
  exists ret tbl',
    update_sources 1000 2 three_new_sources = Some (ret, tbl') /\
    ids ret = [1; 2] /\ map status tbl'
    = [Some "processing"; Some "processing"; Some "new"].
Proof.
  destruct (update_sources_atomic_claim 1000 2 three_new_sources)
    as (ret & tbl' & E & _).
  - vm_compute. repeat constructor; intros H; cbn in H; intuition discriminate.
  - lia.
  - exists ret, tbl'. split; [exact E|].
    vm_compute in E. injection E as <- <-. split; reflexivity.
Defined.

Lemma leased_not_eligible (lo now : Z) (s : Source) :
  leased lo s -> now <= lo + three_days -> ~ eligible now s.
Proof.
  intros (Hst & t & Ht & Hlo) Hn (_ & He).
  rewrite Hst, Ht in He. unfold fifteen_minutes, one_week, three_days in *.
  destruct He as [E|[(x & E & Hx)|[(E & _)|[(E & _)|[E|[E|E]]]]]];
    try discriminate.
  injection E as <-. lia.
Qed.

Lemma calls_never_twice (lo : Z) (reqs : list (Z * Z)) :
  forall (tbl : list Source) (held : list Z) rets tbl',
    List.NoDup (map source_id tbl) ->
    (forall s, In s tbl -> In (source_id s) held -> leased lo s) ->
    Forall (fun r => lo <= fst r <= lo + three_days) reqs ->
    calls reqs tbl = Some (rets, tbl') ->
    List.NoDup (concat (map ids rets)) /\
    (forall i, In i (concat (map ids rets)) -> ~ In i held).
Proof.
  induction reqs as [|[now limit_val] reqs IH]; intros tbl held rets tbl' Hnd Hheld Hreqs Hc.
  - injection Hc as <- <-. cbn. split; [constructor|tauto].
  - cbn [calls] in Hc.
    destruct (update_sources now limit_val tbl) as [[ret tbl1]|] eqn:E; [|discriminate].
    destruct (calls reqs tbl1) as [[rets1 t1]|] eqn:E1; [|discriminate].
    injection Hc as <- <-.
    inversion Hreqs as [|? ? Hnow Hrest]; subst. cbn [fst] in Hnow.
    assert (Hl : 0 <= limit_val)
      by (unfold update_sources in E; destruct (Z.ltb_spec limit_val 0);
          [discriminate|lia]).
    rewrite update_sources_claims in E by assumption. injection E as <- <-.
    set (P := picked now limit_val tbl) in *.
    set (upd := fun s => if id_in (source_id s) (map source_id P)
                         then claim now s else s) in *.
    assert (Hids : ids (map returning (map (claim now) P)) = map source_id P)
      by (apply ids_returning, claim_id).
    assert (Hupd_id : forall s, source_id (upd s) = source_id s)
      by (intros s; unfold upd; destruct (id_in _ _); reflexivity).
    assert (Hnd1 : List.NoDup (map source_id (map upd tbl)))
      by (rewrite map_map; erewrite map_ext; [exact Hnd|exact Hupd_id]).
    assert (Hfresh : forall i, In i (map source_id P) -> ~ In i held).
    { intros i Hi Hh. apply in_map_iff in Hi. destruct Hi as (s & <- & Hs).
      destruct (picked_eligible _ _ _ _ Hs) as [Hin Hel].
      exact (leased_not_eligible lo now s (Hheld s Hin Hh) (proj2 Hnow) Hel). }
    destruct (IH (map upd tbl) (held ++ map source_id P) rets1 t1 Hnd1) as [N1 D1];
      [|exact Hrest|exact E1|].
    { intros s' Hs' Hh. apply in_map_iff in Hs'. destruct Hs' as (s & <- & Hin).
      rewrite Hupd_id in Hh. apply in_app_or in Hh. unfold upd.
      destruct (id_in (source_id s) (map source_id P)) eqn:Ei.
      - split; [reflexivity|]. exists now. split; [reflexivity|lia].
      - destruct Hh as [Hh|Hh]; [exact (Hheld s Hin Hh)|].
        apply id_in_In in Hh. congruence. }
    cbn [map concat]. rewrite Hids. split.
    + apply List.NoDup_app.
      * subst P. apply picked_NoDup, Hnd.
      * exact N1.
      * intros i Hi Hi'. apply (D1 i Hi'). apply in_or_app. right. exact Hi.
    + intros i Hi. apply in_app_or in Hi. destruct Hi as [Hi|Hi].
      * apply Hfresh, Hi.
      * intros Hh. apply (D1 i Hi). apply in_or_app. left. exact Hh.
Qed.

(** X2.  Any number of calls of [update_sources], by one crawler or by
    several, each running on the table the call before it has left and all
    made within three days of the first: no source is returned twice, by
    the same call or by two of them. *)
Theorem update_sources_never_twice (lo : Z) (reqs : list (Z * Z))
    (tbl tbl' : list Source) (rets : list (list Claimed)) :
  List.NoDup (map source_id tbl) ->
  Forall (fun r => lo <= fst r <= lo + three_days) reqs ->
  calls reqs tbl = Some (rets, tbl') ->
  List.NoDup (concat (map ids rets)).
Proof.
  intros Hnd Hreqs Hc.
  apply (calls_never_twice lo reqs tbl [] rets tbl' Hnd); [|exact Hreqs|exact Hc].
  intros s _ [].
Qed.

Lemma update_sources_never_twice_witness :
  exists rets tbl',
    calls [(1000, 2); (1001, 2); (1002, 2)] three_new_sources = Some (rets, tbl') /\
    map ids rets = [[1; 2]; [3]; []] /\
    List.NoDup (concat (map ids rets)).
Proof.
  destruct (calls [(1000, 2); (1001, 2); (1002, 2)] three_new_sources)
    as [[rets tbl']|] eqn:E; [|vm_compute in E; discriminate].
  exists rets, tbl'. split; [reflexivity|]. split.
  - vm_compute in E. injection E as <- _. reflexivity.
  - apply (update_sources_never_twice 1000 [(1000, 2); (1001, 2); (1002, 2)]
             three_new_sources tbl' rets).
    + vm_compute. repeat constructor; intros H; cbn in H; intuition discriminate.
    + repeat constructor; cbn; unfold three_days; lia.
    + exact E.
Defined.

(** X3.  When a source comes up again.  A row that is not disabled and was
    claimed by [update_sources] at time [t] and left alone is selected again
    by the procedure once three days have passed; a row released by
    [updateSourceState] at [t] is selected again, by the procedure and by
    the query of [checkSources] alike, once three days have passed if the
    crawl succeeded (the clause "completed and older than one week" never
    decides anything: three days come first) and once fifteen minutes have
    passed if it failed.  A disabled row is never selected by the
    procedure. *)
Theorem source_comes_up_again (now t : Z) (s : Source) (msg : string) :
  let claimed := claim t s in
  let completed := update_last_updated_at_column t (mark_completed t s) in
  let failed := update_last_updated_at_column t (mark_error t msg s) in
  (disabled s = Some false ->
   holds (selectable now claimed) = (t <? now - three_days) /\
   holds (selectable now completed) = (t <? now - three_days) /\
   holds (selectable now failed) = (t <? now - fifteen_minutes)) /\
  (disabled s <> Some false ->
   holds (selectable now claimed) = false /\
   holds (selectable now completed) = false /\
   holds (selectable now failed) = false) /\
  holds (due now completed) = (t <? now - three_days) /\
  holds (due now failed) = (t <? now - fifteen_minutes).
Proof.
  cbv zeta. unfold selectable, due, claim. cbn.
  unfold three_days, fifteen_minutes, one_week.
  split; [|split; [|split]].
  - intros ->. cbn.
    destruct (Z.ltb_spec t (now - 259200)), (Z.ltb_spec t (now - 900)),
      (Z.ltb_spec t (now - 604800)); try lia; repeat split; reflexivity.
  - intros Hd. destruct (disabled s) as [[]|]; [|congruence|]; cbn;
      destruct (t <? now - 259200), (t <? now - 900), (t <? now - 604800);
      repeat split; reflexivity.
  - destruct (Z.ltb_spec t (now - 259200)), (Z.ltb_spec t (now - 604800));
      try lia; reflexivity.
  - destruct (Z.ltb_spec t (now - 259200)), (Z.ltb_spec t (now - 900));
      try lia; reflexivity.
Qed.

End LeaseProps.

(** ** What a committed indexing stores *)
Section StoreProps.
Import Sql Crawler.
Context `{KeywordExtractor}.

Lemma find_keyword_app (k : string) (l added : list (Z * string)) (id : Z) :
  find_keyword k l = Some id -> find_keyword k (l ++ added) = Some id.
Proof.
  unfold find_keyword. induction l as [|x l IH]; cbn [List.find app]; [discriminate|].
  destruct (String.eqb (snd x) k); [trivial|exact IH].
Qed.

Lemma find_keyword_new (k : string) (l : list (Z * string)) (id : Z) :
  find_keyword k l = None -> find_keyword k (l ++ [(id, k)]) = Some id.
Proof.
  unfold find_keyword. induction l as [|x l IH]; cbn [List.find app snd].
  - rewrite String.eqb_refl. reflexivity.
  - destruct (String.eqb (snd x) k); [discriminate|exact IH].
Qed.

Lemma find_keyword_None (k : string) (l : list (Z * string)) :
  find_keyword k l = None -> ~ In k (map snd l).
Proof.
  unfold find_keyword. induction l as [|x l IH]; cbn [List.find map]; [tauto|].
  destruct (String.eqb_spec (snd x) k) as [E|N]; [discriminate|].
  intros Hf [E|Hin]; [congruence|exact (IH Hf Hin)].
Qed.

Lemma upsert_keyword_lookup (db : Handler) (k : string) :
  find_keyword k (Keywords (tables (snd (upsert_keyword db k))))
  = Some (fst (upsert_keyword db k)) /\
  (forall id, find_keyword k (Keywords (tables db)) = Some id ->
              fst (upsert_keyword db k) = id /\
              tables (snd (upsert_keyword db k)) = tables db).
Proof.
  unfold upsert_keyword.
  destruct (find_keyword k (Keywords (tables db))) as [id|] eqn:E; cbn [fst snd tables Keywords].
  - split; [exact E|]. intros id' E'. injection E' as <-. split; reflexivity.
  - split; [apply find_keyword_new, E|discriminate].
Qed.

Lemma keywordAttempts_lookup (left : nat) (i : Z) (db : Handler) (k : string) (id : Z) :
  fst (keywordAttempts left i db k) = Val id ->
  find_keyword k (Keywords (tables (snd (keywordAttempts left i db k)))) = Some id /\
  (forall id', find_keyword k (Keywords (tables db)) = Some id' ->
               id = id' /\ tables (snd (keywordAttempts left i db k)) = tables db).
Proof.
  revert i db. induction left as [|left IH]; intros i db; cbn [keywordAttempts];
    [discriminate|].
  pose proof (call_tables db) as T. destruct (call db) as [[e|] db1]; cbn [fst snd] in *.
  - destruct (GoStr.Contains e "deadlock detected"); [|discriminate].
    destruct (i =? maxRetries - 1); [discriminate|].
    intros Hv. destruct (IH (i + 1) (sleep (i * 100) db1) Hv) as [L S].
    split; [exact L|]. intros id' E'. cbn [sleep tables] in S.
    rewrite T in S. exact (S id' E').
  - destruct (upsert_keyword_lookup db1 k) as [L S].
    destruct (upsert_keyword db1 k) as [kid db2]. cbn [fst snd] in *.
    intros Hv. injection Hv as Hv. subst kid. split; [exact L|].
    intros id' E'. rewrite T in S. exact (S id' E').
Qed.

Lemma insertKeywordWithRetries_lookup (db : Handler) (k : string) (id : Z) :
  fst (insertKeywordWithRetries db k) = Val id ->
  find_keyword k (Keywords (tables (snd (insertKeywordWithRetries db k)))) = Some id /\
  (forall id', find_keyword k (Keywords (tables db)) = Some id' ->
               id = id' /\ tables (snd (insertKeywordWithRetries db k)) = tables db).
Proof.
  unfold insertKeywordWithRetries.
  pose proof (call_tables db) as T. destruct (call db) as [[e|] db1]; cbn [fst snd] in *;
    [discriminate|].
  intros Hv. destruct (keywordAttempts_lookup _ _ _ _ _ Hv) as [L S].
  split; [exact L|]. intros id' E'. rewrite T in S. exact (S id' E').
Qed.

(** The fields of a transaction's copy that [insertKeywordList] leaves
    alone, what it appends to KeywordIndex, and where the handle's
    dictionary has each keyword afterwards; keywords that the dictionary
    already has keep their ids. *)
Lemma insertKeywordList_stores (keywords : list string) (db : Handler) (tx : Tx)
    (indexID : Z) :
  fst (fst (insertKeywordList db tx indexID keywords)) = None ->
  let db' := snd (fst (insertKeywordList db tx indexID keywords)) in
  let tx' := snd (insertKeywordList db tx indexID keywords) in
  exists kids,
    SearchIndex tx' = SearchIndex tx /\
    SourceSearchIndex tx' = SourceSearchIndex tx /\
    MetaTags tx' = MetaTags tx /\
    KeywordIndex tx' = KeywordIndex tx ++ posting_rows indexID kids /\
    Forall2 (fun k kid => find_keyword k (Keywords (tables db')) = Some kid)
      keywords kids /\
    (forall kids0,
       Forall2 (fun k kid => find_keyword k (Keywords (tables db)) = Some kid)
         keywords kids0 -> kids = kids0).
Proof.
  revert db tx. induction keywords as [|k rest IH]; intros db tx;
    cbn [insertKeywordList].
  - intros _. exists []. cbn. rewrite app_nil_r. repeat split; [constructor|].
    intros kids0 F0. inversion F0. reflexivity.
  - pose proof (insertKeywordWithRetries_lookup db k) as L.
    destruct (insertKeywordWithRetries db k) as [[kid|e] db1]; cbn [fst snd] in *;
      [|discriminate].
    destruct (L kid eq_refl) as [Lk Lold]. clear L.
    pose proof (call_tables db1) as T2.
    destruct (call db1) as [[e|] db2]; cbn [fst snd] in *; [discriminate|].
    intros Hok. cbv zeta.
    destruct (IH _ _ Hok) as (kids & S1 & S2 & S3 & S4 & F & D).
    cbv zeta in S1, S2, S3, S4, F, D.
    cbn [SearchIndex SourceSearchIndex MetaTags KeywordIndex] in S1, S2, S3, S4.
    exists (kid :: kids). rewrite S1, S2, S3, S4.
    split; [reflexivity|]. split; [reflexivity|]. split; [reflexivity|].
    split; [cbn [posting_rows map]; rewrite <- app_assoc; reflexivity|].
    split.
    + constructor; [|exact F].
      pose proof (insertKeywordList_frame rest db2
                    (mkTables (Sources tx) (SearchIndex tx) (SourceSearchIndex tx)
                       (MetaTags tx) (Keywords tx)
                       (KeywordIndex tx ++ [(kid, indexID)])) indexID) as Fr.
      destruct Fr as (_ & _ & _ & _ & _ & added & Ea).
      rewrite Ea, T2. apply find_keyword_app, Lk.
    + intros kids0 F0. inversion F0 as [|? kid0 ? kids0' Hk0 Hrest0]; subst.
      destruct (Lold kid0 Hk0) as [-> Et]. f_equal.
      apply D. rewrite T2, Et. exact Hrest0.
Qed.

Lemma insertMetaTagList_stores (tags : list (string * string)) (db : Handler)
    (tx : Tx) (indexID : Z) :
  fst (fst (insertMetaTagList db tx indexID tags)) = None ->
  let tx' := snd (insertMetaTagList db tx indexID tags) in
  SearchIndex tx' = SearchIndex tx /\
  SourceSearchIndex tx' = SourceSearchIndex tx /\
  KeywordIndex tx' = KeywordIndex tx /\
  MetaTags tx' = MetaTags tx ++ map (fun nc => (indexID, fst nc, snd nc)) tags.
Proof.
  revert db tx. induction tags as [|[name content] rest IH]; intros db tx;
    cbn [insertMetaTagList].
  - intros _. cbn. rewrite app_nil_r. repeat split.
  - destruct (call db) as [[e|] db1]; cbn [fst snd]; [discriminate|].
    intros Hok. destruct (IH _ _ Hok) as (S1 & S2 & S3 & S4).
    cbv zeta in *. cbn [SearchIndex SourceSearchIndex MetaTags KeywordIndex] in *.
    rewrite S1, S2, S3, S4. repeat split.
    cbn [map fst snd]. rewrite <- app_assoc. reflexivity.
Qed.

Lemma find_page_insert (u : string) (rows : list SearchIndexRow) (new : SearchIndexRow) :
  find_page u rows = None -> page_url new = u ->
  find_page u (rows ++ [new]) = Some (index_id new).
Proof.
  unfold find_page. intros Hn Hu.
  induction rows as [|x rows IH]; cbn [List.find app] in *.
  - rewrite Hu, String.eqb_refl. reflexivity.
  - destruct (String.eqb (page_url x) u); [discriminate|exact (IH Hn)].
Qed.

Lemma find_page_update (u : string) (rows : list SearchIndexRow)
    (f : SearchIndexRow -> SearchIndexRow) (id : Z) :
  (forall r, page_url (f r) = u /\ index_id (f r) = index_id r) ->
  find_page u rows = Some id ->
  find_page u (map (fun r => if String.eqb (page_url r) u then f r else r) rows)
  = Some id /\
  exists r, In r rows /\ page_url r = u /\ index_id r = id /\
            In (f r) (map (fun r => if String.eqb (page_url r) u then f r else r) rows).
Proof.
  unfold find_page. intros Hf.
  induction rows as [|x rows IH]; cbn [List.find map]; [discriminate|].
  destruct (String.eqb_spec (page_url x) u) as [E|N].
  - cbn [option_map]. intros Hid. injection Hid as Hid.
    destruct (Hf x) as [Hu Hi]. rewrite Hu, String.eqb_refl. cbn [option_map].
    split; [congruence|]. exists x.
    split; [left; reflexivity|]. split; [exact E|]. split; [exact Hid|].
    left. reflexivity.
  - intros Hid. destruct (String.eqb_spec (page_url x) u); [contradiction|].
    destruct (IH Hid) as (F & r & Hr & Hu & Hi & Hin).
    split; [exact F|]. exists r.
    split; [right; exact Hr|]. split; [exact Hu|]. split; [exact Hi|].
    right. exact Hin.
Qed.

(** [upsert_page]: the id it returns is the one under which the URL is found
    afterwards, the row found there holds the page, rows of other URLs are
    kept, and the ids of the rows that were there are kept in order. *)
Lemma upsert_page_stores (now newid : Z) (u : string) (p : PageInfo)
    (rows : list SearchIndexRow) :
  let id := fst (upsert_page now newid u p rows) in
  let rows' := snd (upsert_page now newid u p rows) in
  find_page u rows' = Some id /\
  (exists row, In row rows' /\ index_id row = id /\ holds_page now u p row) /\
  (forall row, In row rows -> page_url row <> u -> In row rows') /\
  (forall old, find_page u rows = Some old ->
               id = old /\ map index_id rows' = map index_id rows) /\
  (find_page u rows = None -> id = newid /\ length rows' = S (length rows)).
Proof.
  cbv zeta. unfold upsert_page.
  destruct (find_page u rows) as [old|] eqn:E; cbn [fst snd].
  - set (f := fun r : SearchIndexRow =>
                mkSearchIndexRow (index_id r) u (Title p) (Summary p) (BodyText p)
                  (strLeft_value (DetectedLang p) 8) (strLeft_value (DetectedType p) 8)
                  (snapshot_url r) now).
    destruct (find_page_update u rows f old) as (F & r & Hr & Hu & Hi & Hin);
      [intros r; split; reflexivity|exact E|].
    split; [exact F|]. split; [|split; [|split]].
    + exists (f r). split; [exact Hin|]. split; [exact Hi|].
      unfold holds_page. cbn. repeat split.
    + intros row Hrow Hne. apply in_map_iff. exists row. split; [|exact Hrow].
      destruct (String.eqb_spec (page_url row) u); [contradiction|reflexivity].
    + intros old' E'. injection E' as <-. split; [reflexivity|].
      rewrite map_map. apply map_ext. intros x.
      destruct (String.eqb (page_url x) u); reflexivity.
    + discriminate.
  - split.
    { exact (find_page_insert u rows
               (mkSearchIndexRow newid u (Title p) (Summary p) (BodyText p)
                  (strLeft_value (DetectedLang p) 8)
                  (strLeft_value (DetectedType p) 8) None now) E eq_refl). }
    split; [|split; [|split]].
    + eexists. split; [apply in_or_app; right; left; reflexivity|].
      split; [reflexivity|]. unfold holds_page. cbn. repeat split.
    + intros row Hrow _. apply in_or_app. left. exact Hrow.
    + discriminate.
    + intros _. split; [reflexivity|]. rewrite length_app. cbn. lia.
Qed.

Lemma pair_in_app (a b : Z) (l l' : list (Z * Z)) :
  pair_in a b (l ++ l') = pair_in a b l || pair_in a b l'.
Proof. unfold pair_in. apply existsb_app. Qed.

Lemma pair_in_self (a b : Z) : pair_in a b [(a, b)] = true.
Proof. unfold pair_in. cbn. rewrite !Z.eqb_refl. reflexivity. Qed.

Lemma insertOrUpdateSearchIndex_clock (db : Handler) (tx : Tx) (u : string)
    (p : PageInfo) :
  clock (snd (fst (insertOrUpdateSearchIndex db tx u p))) = clock db.
Proof.
  unfold insertOrUpdateSearchIndex.
  pose proof (call_clock db) as C1. destruct (call db) as [[e|] db1]; cbn [fst snd] in *;
    [exact C1|].
  destruct (upsert_page _ _ u p (SearchIndex tx)) as [indexID rows].
  pose proof (call_clock (bump_index_seq db1)) as C2.
  destruct (call (bump_index_seq db1)) as [[e|] db2]; cbn [fst snd] in *;
    rewrite C2; exact C1.
Qed.

Lemma insertMetaTagList_clock (tags : list (string * string)) (db : Handler)
    (tx : Tx) (indexID : Z) :
  clock (snd (fst (insertMetaTagList db tx indexID tags))) = clock db.
Proof.
  revert db tx. induction tags as [|[name content] rest IH]; intros db tx;
    cbn [insertMetaTagList]; [reflexivity|].
  pose proof (call_clock db) as C1. destruct (call db) as [[e|] db1]; cbn [fst snd] in *.
  - exact C1.
  - rewrite IH. exact C1.
Qed.

Lemma upsert_keyword_clock (db : Handler) (k : string) :
  clock (snd (upsert_keyword db k)) = clock db.
Proof. unfold upsert_keyword. destruct (find_keyword k _); reflexivity. Qed.

Lemma keywordAttempts_clock (left : nat) (i : Z) (db : Handler) (k : string) :
  clock (snd (keywordAttempts left i db k)) = clock db.
Proof.
  revert i db. induction left as [|left IH]; intros i db; cbn [keywordAttempts];
    [reflexivity|].
  pose proof (call_clock db) as C1. destruct (call db) as [[e|] db1]; cbn [snd] in *.
  - destruct (GoStr.Contains e "deadlock detected"); [|exact C1].
    destruct (i =? maxRetries - 1); [exact C1|].
    rewrite IH. exact C1.
  - pose proof (upsert_keyword_clock db1 k) as C2.
    destruct (upsert_keyword db1 k) as [kid db2]. cbn [snd] in *. congruence.
Qed.

Lemma insertKeywordList_clock (keywords : list string) (db : Handler) (tx : Tx)
    (indexID : Z) :
  clock (snd (fst (insertKeywordList db tx indexID keywords))) = clock db.
Proof.
  revert db tx. induction keywords as [|k rest IH]; intros db tx;
    cbn [insertKeywordList]; [reflexivity|].
  assert (C0 : clock (snd (insertKeywordWithRetries db k)) = clock db).
  { unfold insertKeywordWithRetries. pose proof (call_clock db) as C1.
    destruct (call db) as [[e|] db1]; cbn [snd] in *; [exact C1|].
    rewrite keywordAttempts_clock. exact C1. }
  destruct (insertKeywordWithRetries db k) as [[kid|e] db1]; cbn [fst snd] in *;
    [|exact C0].
  pose proof (call_clock db1) as C2. destruct (call db1) as [[e|] db2]; cbn [fst snd] in *.
  - congruence.
  - rewrite IH. congruence.
Qed.

Lemma call_seqs (db : Handler) :
  index_id_seq (snd (call db)) = index_id_seq db /\
  keyword_id_seq (snd (call db)) = keyword_id_seq db.
Proof. unfold call. destruct (script db); split; reflexivity. Qed.

(** [insertOrUpdateSearchIndex] on a transaction's copy. *)
Lemma insertOrUpdateSearchIndex_stores (db : Handler) (tx : Tx) (u : string)
    (p : PageInfo) (indexID : Z) :
  fst (fst (insertOrUpdateSearchIndex db tx u p)) = Val indexID ->
  let tx' := snd (insertOrUpdateSearchIndex db tx u p) in
  let up := upsert_page (clock db) (index_id_seq db + 1) u p (SearchIndex tx) in
  indexID = fst up /\ SearchIndex tx' = snd up /\
  pair_in (sourceID p) indexID (SourceSearchIndex tx') = true /\
  (pair_in (sourceID p) indexID (SourceSearchIndex tx) = true ->
   SourceSearchIndex tx' = SourceSearchIndex tx) /\
  (exists added, SourceSearchIndex tx' = SourceSearchIndex tx ++ added) /\
  MetaTags tx' = MetaTags tx /\ KeywordIndex tx' = KeywordIndex tx.
Proof.
  unfold insertOrUpdateSearchIndex.
  pose proof (call_clock db) as C1. pose proof (proj1 (call_seqs db)) as Q1.
  destruct (call db) as [[e|] db1]; cbn [fst snd] in *; [discriminate|].
  cbn [bump_index_seq clock index_id_seq]. rewrite C1, Q1.
  destruct (upsert_page (clock db) (index_id_seq db + 1) u p (SearchIndex tx))
    as [id rows] eqn:Eu.
  destruct (call _) as [[e|] db2]; cbn [fst snd]; [discriminate|].
  intros Hv. injection Hv as <-. cbv zeta. cbn [fst snd SearchIndex SourceSearchIndex
                                                    MetaTags KeywordIndex].
  split; [reflexivity|]. split; [reflexivity|].
  destruct (pair_in (sourceID p) id (SourceSearchIndex tx)) eqn:Ep.
  - repeat split; auto. exists []. symmetry. apply app_nil_r.
  - repeat split; try discriminate.
    + rewrite pair_in_app, pair_in_self. apply orb_true_r.
    + eexists. reflexivity.
Qed.

(** The tables after a committed [indexPage], in terms of the tables
    before. *)
Lemma indexPage_commit_effect (db : Handler) (u : string) (p : PageInfo) :
  fst (indexPage db u p) = Committed ->
  let t := tables db in
  let t' := tables (snd (indexPage db u p)) in
  let up := upsert_page (clock db) (index_id_seq db + 1) u p (SearchIndex t) in
  exists kids,
    SearchIndex t' = snd up /\
    pair_in (sourceID p) (fst up) (SourceSearchIndex t') = true /\
    (pair_in (sourceID p) (fst up) (SourceSearchIndex t) = true ->
     SourceSearchIndex t' = SourceSearchIndex t) /\
    MetaTags t' = MetaTags t ++ tag_rows (fst up) (PageMetaTags p) /\
    KeywordIndex t' = KeywordIndex t ++ posting_rows (fst up) kids /\
    Forall2 (fun k kid => find_keyword k (Keywords t') = Some kid)
      (extractKeywords p) kids /\
    (forall kids0,
       Forall2 (fun k kid => find_keyword k (Keywords t) = Some kid)
         (extractKeywords p) kids0 -> kids = kids0) /\
    Sources t' = Sources t /\
    clock (snd (indexPage db u p)) = clock db.
Proof.
  unfold indexPage, rollbackTransaction, insertMetaTags, insertKeywords.
  pose proof (call_tables db) as T1. pose proof (call_clock db) as C1.
  pose proof (proj1 (call_seqs db)) as Q1.
  destruct (call db) as [[e|] db1]; cbn [fst snd] in *; [discriminate|].
  pose proof (call_tables db1) as T2. pose proof (call_clock db1) as C2.
  pose proof (proj1 (call_seqs db1)) as Q2.
  destruct (call db1) as [[e|] db2]; cbn [fst snd] in *; [discriminate|].
  pose proof (insertOrUpdateSearchIndex_stores db2 (begin_tx db2) u p) as S3.
  pose proof (insertOrUpdateSearchIndex_frame db2 (begin_tx db2) u p) as T3.
  pose proof (insertOrUpdateSearchIndex_clock db2 (begin_tx db2) u p) as C3.
  destruct (insertOrUpdateSearchIndex db2 (begin_tx db2) u p)
    as [[[indexID|e] db3] tx3]; cbn [fst snd] in *; [|discriminate].
  specialize (S3 indexID eq_refl). cbv zeta in S3.
  destruct S3 as (Eid & ESI & Hlink & Hsame & _ & EMT & EKI).
  pose proof (insertMetaTagList_stores (map_to_list (PageMetaTags p)) db3 tx3 indexID)
    as S4.
  pose proof (insertMetaTagList_frame (map_to_list (PageMetaTags p)) db3 tx3 indexID)
    as T4.
  pose proof (insertMetaTagList_clock (map_to_list (PageMetaTags p)) db3 tx3 indexID)
    as C4.
  destruct (insertMetaTagList db3 tx3 indexID _) as [[[e|] db4] tx4];
    cbn [fst snd] in *; [discriminate|].
  specialize (S4 eq_refl). cbv zeta in S4. destruct S4 as (S41 & S42 & S43 & S44).
  pose proof (insertKeywordList_stores (extractKeywords p) db4 tx4 indexID) as S5.
  pose proof (insertKeywordList_frame (extractKeywords p) db4 tx4 indexID) as F5.
  pose proof (insertKeywordList_clock (extractKeywords p) db4 tx4 indexID) as C5.
  destruct (insertKeywordList db4 tx4 indexID _) as [[[e|] db5] tx5];
    cbn [fst snd] in *; [discriminate|].
  specialize (S5 eq_refl). cbv zeta in S5.
  destruct S5 as (kids & S51 & S52 & S53 & S54 & F & D).
  pose proof (call_tables db5) as T6. pose proof (call_clock db5) as C6.
  destruct (call db5) as [[e|] db6]; cbn [fst snd] in *; [discriminate|].
  intros _. cbv zeta. unfold install, with_tables.
  cbn [tables clock Sources SearchIndex SourceSearchIndex MetaTags Keywords
         KeywordIndex].
  unfold begin_tx in *. rewrite T2, T1 in *. rewrite C2, C1, Q2, Q1 in *.
  subst indexID.
  exists kids. rewrite T6.
  split; [rewrite S51, S41; exact ESI|].
  split; [rewrite S52, S42; exact Hlink|].
  split; [intros Hp; rewrite S52, S42; exact (Hsame Hp)|].
  split; [rewrite S53, S44, EMT; reflexivity|].
  split; [rewrite S54, S43, EKI; reflexivity|].
  split; [exact F|].
  split; [intros kids0 F0; apply D; rewrite T4, T3; exact F0|].
  destruct F5 as (Es & _).
  split; [rewrite Es, T4, T3; reflexivity|].
  rewrite C6, C5, C4, C3. reflexivity.
Qed.

(** X4.  What a committed [indexPage] has stored.  The URL is found in
    SearchIndex under one id, in a row that holds the title, the summary,
    the body text and the language and type cut to 8 characters, stamped with
    the time of the call; rows of other URLs are kept; the source is linked
    to that id; one MetaTags row is appended for each meta tag of the page
    and one KeywordIndex row for each keyword, under the id the dictionary
    has for the keyword; Sources is not touched. *)
Theorem indexPage_commit_stores (db : Handler) (u : string) (p : PageInfo) :
  fst (indexPage db u p) = Committed ->
  let t := tables db in
  let t' := tables (snd (indexPage db u p)) in
  exists indexID kids,
    find_page u (SearchIndex t') = Some indexID /\
    (exists row, In row (SearchIndex t') /\ index_id row = indexID /\
                 holds_page (clock db) u p row) /\
    (forall row, In row (SearchIndex t) -> page_url row <> u ->
                 In row (SearchIndex t')) /\
    pair_in (sourceID p) indexID (SourceSearchIndex t') = true /\
    MetaTags t' = MetaTags t ++ tag_rows indexID (PageMetaTags p) /\
    KeywordIndex t' = KeywordIndex t ++ posting_rows indexID kids /\
    Forall2 (fun k kid => find_keyword k (Keywords t') = Some kid)
      (extractKeywords p) kids /\
    Sources t' = Sources t.
Proof.
  intros Hc. cbv zeta.
  destruct (indexPage_commit_effect db u p Hc)
    as (kids & ESI & Hlink & _ & EMT & EKI & F & _ & ES & _).
  cbv zeta in ESI, Hlink, EMT, EKI, F, ES.
  destruct (upsert_page_stores (clock db) (index_id_seq db + 1) u p
              (SearchIndex (tables db))) as (U1 & U2 & U3 & _).
  cbv zeta in U1, U2, U3. rewrite <- ESI in U1, U2, U3.
  eexists _, kids. repeat split; eassumption.
Qed.

(** X5.  Nothing in [indexPage] removes what an earlier indexing of the
    page stored: when the same page is indexed twice and both calls commit,
    SearchIndex has no more rows after the second call than after the first
    and the page keeps its id, but MetaTags holds every meta tag of the page
    twice and KeywordIndex every posting twice. *)
Theorem indexing_twice_duplicates (db : Handler) (u : string) (p : PageInfo) :
  let r1 := indexPage db u p in
  let r2 := indexPage (snd r1) u p in
  fst r1 = Committed -> fst r2 = Committed ->
  exists indexID kids,
    find_page u (SearchIndex (tables (snd r1))) = Some indexID /\
    find_page u (SearchIndex (tables (snd r2))) = Some indexID /\
    map index_id (SearchIndex (tables (snd r2)))
    = map index_id (SearchIndex (tables (snd r1))) /\
    SourceSearchIndex (tables (snd r2)) = SourceSearchIndex (tables (snd r1)) /\
    MetaTags (tables (snd r2))
    = MetaTags (tables db) ++ tag_rows indexID (PageMetaTags p)
                           ++ tag_rows indexID (PageMetaTags p) /\
    KeywordIndex (tables (snd r2))
    = KeywordIndex (tables db) ++ posting_rows indexID kids
                               ++ posting_rows indexID kids /\
    length kids = length (extractKeywords p).
Proof.
  cbv zeta. intros H1 H2.
  destruct (indexPage_commit_effect db u p H1)
    as (kids & ESI & Hlink & _ & EMT & EKI & F & _ & _ & EC).
  destruct (indexPage_commit_effect (snd (indexPage db u p)) u p H2)
    as (kids2 & ESI2 & _ & Hsame2 & EMT2 & EKI2 & _ & D2 & _ & _).
  cbv zeta in *.
  set (r1 := indexPage db u p) in *. set (r2 := indexPage (snd r1) u p) in *.
  destruct (upsert_page_stores (clock db) (index_id_seq db + 1) u p
              (SearchIndex (tables db))) as (U1 & _).
  cbv zeta in U1. rewrite <- ESI in U1.
  set (indexID := fst (upsert_page (clock db) (index_id_seq db + 1) u p
                         (SearchIndex (tables db)))) in *.
  destruct (upsert_page_stores (clock (snd r1)) (index_id_seq (snd r1) + 1) u p
              (SearchIndex (tables (snd r1)))) as (V1 & _ & _ & V4 & _).
  cbv zeta in V1, V4. destruct (V4 indexID U1) as [Eid Eids].
  rewrite <- ESI2 in V1, Eids. rewrite Eid in *.
  pose proof (D2 kids F) as ->.
  exists indexID, kids.
  split; [exact U1|]. split; [exact V1|]. split; [exact Eids|].
  split; [exact (Hsame2 Hlink)|].
  split; [rewrite EMT2, EMT, <- app_assoc; reflexivity|].
  split; [rewrite EKI2, EKI, <- app_assoc; reflexivity|].
  symmetry. eapply Forall2_length. exact F.
Qed.

End StoreProps.

Section StoreWitnesses.
Import Sql Crawler.

Lemma indexPage_commit_stores_witness :
  exists indexID kids,
    find_page "http://a.test/" (SearchIndex (tables indexed_once)) = Some indexID /\
    MetaTags (tables indexed_once) = tag_rows indexID (PageMetaTags tagged_page) /\
    KeywordIndex (tables indexed_once) = posting_rows indexID kids.
Proof.
  destruct (@indexPage_commit_stores hello_extractor healthy "http://a.test/"
              tagged_page) as (indexID & kids & E1 & _ & _ & _ & E2 & E3 & _).
  - vm_compute. reflexivity.
  - exists indexID, kids. split; [exact E1|]. split; [exact E2|exact E3].
Defined.

Lemma indexing_twice_duplicates_witness :
  MetaTags (tables (snd (@indexPage hello_extractor indexed_once "http://a.test/"
                           tagged_page)))
  = [(1, "author", "me"); (1, "robots", "all");
     (1, "author", "me"); (1, "robots", "all")] /\
  exists indexID kids,
    KeywordIndex (tables (snd (@indexPage hello_extractor indexed_once
                                 "http://a.test/" tagged_page)))
    = posting_rows indexID kids ++ posting_rows indexID kids.
Proof.
  split; [vm_compute; reflexivity|].
  destruct (@indexing_twice_duplicates hello_extractor healthy "http://a.test/"
              tagged_page) as (indexID & kids & _ & _ & _ & _ & _ & E & _).
  - vm_compute. reflexivity.
  - vm_compute. reflexivity.
  - exists indexID, kids. exact E.
Defined.

End StoreWitnesses.

(** ** The keyword dictionary *)
Section DictionaryProps.
Import Sql Crawler.
Context `{KeywordExtractor}.

Lemma dictionary_ok_same (db db' : Handler) :
  same_dictionary db db' -> dictionary_ok db -> dictionary_ok db'.
Proof. intros [E1 E2]. unfold dictionary_ok. rewrite E1, E2. trivial. Qed.

Lemma call_same_dictionary (db : Handler) : same_dictionary db (snd (call db)).
Proof. split; [rewrite call_tables; reflexivity|apply call_seqs]. Qed.

Lemma upsert_keyword_dictionary (db : Handler) (k : string) :
  dictionary_ok db -> dictionary_ok (snd (upsert_keyword db k)).
Proof.
  intros (N1 & N2 & B). unfold upsert_keyword, dictionary_ok.
  destruct (find_keyword k (Keywords (tables db))) eqn:E;
    cbn [snd tables keyword_id_seq Keywords].
  - split; [exact N1|]. split; [exact N2|].
    eapply List.Forall_impl; [|exact B]. cbn. intros r Hr. lia.
  - rewrite !map_app. cbn [map fst snd]. split; [|split].
    + apply List.NoDup_app; [exact N1|repeat constructor; tauto|].
      intros a Ha [<-|[]]. exact (find_keyword_None k _ E Ha).
    + apply List.NoDup_app; [exact N2|repeat constructor; tauto|].
      intros a Ha [<-|[]]. apply in_map_iff in Ha. destruct Ha as (r & Er & Hr).
      rewrite List.Forall_forall in B. specialize (B r Hr). cbn in B. lia.
    + apply Forall_app. split.
      * eapply List.Forall_impl; [|exact B]. cbn. intros r Hr. lia.
      * repeat constructor. cbn. lia.
Qed.

Lemma keywordAttempts_dictionary (left : nat) (i : Z) (db : Handler) (k : string) :
  dictionary_ok db -> dictionary_ok (snd (keywordAttempts left i db k)).
Proof.
  revert i db. induction left as [|left IH]; intros i db Hd; cbn [keywordAttempts];
    [exact Hd|].
  pose proof (dictionary_ok_same _ _ (call_same_dictionary db) Hd) as H1.
  destruct (call db) as [[e|] db1]; cbn [snd] in *.
  - destruct (GoStr.Contains e "deadlock detected"); [|exact H1].
    destruct (i =? maxRetries - 1); [exact H1|].
    apply IH. exact H1.
  - pose proof (upsert_keyword_dictionary db1 k H1) as H2.
    destruct (upsert_keyword db1 k) as [kid db2]. exact H2.
Qed.

Lemma insertKeywordWithRetries_dictionary (db : Handler) (k : string) :
  dictionary_ok db -> dictionary_ok (snd (insertKeywordWithRetries db k)).
Proof.
  intros Hd. unfold insertKeywordWithRetries.
  pose proof (dictionary_ok_same _ _ (call_same_dictionary db) Hd) as H1.
  destruct (call db) as [[e|] db1]; cbn [snd] in *; [exact H1|].
  apply keywordAttempts_dictionary, H1.
Qed.

Lemma insertKeywordList_dictionary (keywords : list string) (db : Handler) (tx : Tx)
    (indexID : Z) :
  dictionary_ok db ->
  dictionary_ok (snd (fst (insertKeywordList db tx indexID keywords))).
Proof.
  revert db tx. induction keywords as [|k rest IH]; intros db tx Hd;
    cbn [insertKeywordList]; [exact Hd|].
  pose proof (insertKeywordWithRetries_dictionary db k Hd) as H1.
  destruct (insertKeywordWithRetries db k) as [[kid|e] db1]; cbn [fst snd] in *;
    [|exact H1].
  pose proof (dictionary_ok_same _ _ (call_same_dictionary db1) H1) as H2.
  destruct (call db1) as [[e|] db2]; cbn [fst snd] in *; [exact H2|].
  apply IH, H2.
Qed.

Lemma insertOrUpdateSearchIndex_dictionary (db : Handler) (tx : Tx) (u : string)
    (p : PageInfo) :
  same_dictionary db (snd (fst (insertOrUpdateSearchIndex db tx u p))).
Proof.
  unfold insertOrUpdateSearchIndex.
  pose proof (call_same_dictionary db) as D1.
  destruct (call db) as [[e|] db1]; cbn [fst snd] in *; [exact D1|].
  destruct (upsert_page _ _ u p (SearchIndex tx)) as [indexID rows].
  pose proof (call_same_dictionary (bump_index_seq db1)) as D2.
  destruct (call (bump_index_seq db1)) as [[e|] db2]; cbn [fst snd] in *;
    destruct D1 as [A1 A2], D2 as [B1 B2]; cbn [bump_index_seq tables keyword_id_seq] in *;
    split; congruence.
Qed.

Lemma insertMetaTagList_dictionary (tags : list (string * string)) (db : Handler)
    (tx : Tx) (indexID : Z) :
  same_dictionary db (snd (fst (insertMetaTagList db tx indexID tags))).
Proof.
  revert db tx. induction tags as [|[name content] rest IH]; intros db tx;
    cbn [insertMetaTagList]; [split; reflexivity|].
  pose proof (call_same_dictionary db) as D1.
  destruct (call db) as [[e|] db1]; cbn [fst snd] in *; [exact D1|].
  destruct D1 as [A1 A2].
  destruct (IH db1 (mkTables (Sources tx) (SearchIndex tx) (SourceSearchIndex tx)
                      (MetaTags tx ++ [(indexID, name, content)]) (Keywords tx)
                      (KeywordIndex tx))) as [B1 B2].
  split; congruence.
Qed.

(** X6.  The keyword dictionary stays sound.  If no keyword and no id
    occurs twice in Keywords and the sequence is not behind the ids, the same
    holds after [insertKeywordWithRetries] and after [indexPage], however
    they end; and a keyword upsert that returns an id leaves the keyword in
    the dictionary under that id, which is the id it had if it was there
    before. *)
Theorem keyword_dictionary_sound (db : Handler) (u keyword : string)
    (p : PageInfo) :
  dictionary_ok db ->
  dictionary_ok (snd (indexPage db u p)) /\
  dictionary_ok (snd (insertKeywordWithRetries db keyword)) /\
  (forall id,
     fst (insertKeywordWithRetries db keyword) = Val id ->
     find_keyword keyword
       (Keywords (tables (snd (insertKeywordWithRetries db keyword)))) = Some id /\
     (forall old, find_keyword keyword (Keywords (tables db)) = Some old ->
                  id = old /\
                  tables (snd (insertKeywordWithRetries db keyword)) = tables db)).
Proof.
  intros Hd. split; [|split].
  - unfold indexPage, rollbackTransaction, insertMetaTags, insertKeywords.
    pose proof (dictionary_ok_same _ _ (call_same_dictionary db) Hd) as H1.
    destruct (call db) as [[e|] db1]; cbn [fst snd] in *; [exact H1|].
    pose proof (dictionary_ok_same _ _ (call_same_dictionary db1) H1) as H2.
    destruct (call db1) as [[e|] db2]; cbn [fst snd] in *; [exact H2|].
    pose proof (dictionary_ok_same _ _
                  (insertOrUpdateSearchIndex_dictionary db2 (begin_tx db2) u p) H2) as H3.
    destruct (insertOrUpdateSearchIndex db2 (begin_tx db2) u p)
      as [[[indexID|e] db3] tx3]; cbn [fst snd] in *.
    2:{ exact (dictionary_ok_same _ _ (call_same_dictionary db3) H3). }
    pose proof (dictionary_ok_same _ _
                  (insertMetaTagList_dictionary (map_to_list (PageMetaTags p))
                     db3 tx3 indexID) H3) as H4.
    destruct (insertMetaTagList db3 tx3 indexID _) as [[[e|] db4] tx4];
      cbn [fst snd] in *.
    { exact (dictionary_ok_same _ _ (call_same_dictionary db4) H4). }
    pose proof (insertKeywordList_dictionary (extractKeywords p) db4 tx4 indexID H4)
      as H5.
    destruct (insertKeywordList db4 tx4 indexID _) as [[[e|] db5] tx5];
      cbn [fst snd] in *.
    { exact (dictionary_ok_same _ _ (call_same_dictionary db5) H5). }
    pose proof (dictionary_ok_same _ _ (call_same_dictionary db5) H5) as H6.
    destruct (call db5) as [[e|] db6]; cbn [fst snd] in *.
    + exact (dictionary_ok_same _ _ (call_same_dictionary db6) H6).
    + exact H6.
  - apply insertKeywordWithRetries_dictionary, Hd.
  - intros id Hv. apply insertKeywordWithRetries_lookup, Hv.
Qed.

End DictionaryProps.

Section DictionaryWitness.
Import Sql Crawler.

Lemma keyword_dictionary_sound_witness :
  dictionary_ok healthy /\
  dictionary_ok (snd (@indexPage hello_extractor healthy "http://a.test/" hello_page)).
Proof.
  assert (Hd : dictionary_ok healthy) by (repeat constructor).
  split; [exact Hd|].
  exact (proj1 (@keyword_dictionary_sound hello_extractor healthy "http://a.test/"
                  "hello" hello_page Hd)).
Defined.

End DictionaryWitness.

(** ** The scope filter when it cannot judge *)
Section SkipProps.
Import GoStr Links.
Context `{NetURL}.

(** X7.  With scope 4, or when the URL of the source does not parse,
    [skipURL] skips the blank URLs and nothing else: a source whose own URL
    is unparsable is crawled without any domain restriction, whatever its
    [restricted] level. *)
Theorem skipURL_without_scope (sourceURL u : string) (restricted : Z) :
  restricted = 4 \/ url_Parse sourceURL = None ->
  skipURL sourceURL restricted u = String.eqb (TrimSpace u) "".
Proof.
  intros Hs. unfold skipURL.
  destruct (String.eqb (TrimSpace u) ""); [reflexivity|].
  destruct Hs as [->|Hp]; [reflexivity|].
  unfold isExternalLink. rewrite Hp.
  destruct (restricted =? 4); cbn [negb andb]; [reflexivity|].
  match goal with
  | |- context [HasPrefix (TrimSpace ?x) "/"] =>
      destruct (HasPrefix (TrimSpace x) "/")
  end; reflexivity.
Qed.

End SkipProps.

Section SkipWitness.
Import GoStr Links.

Lemma skipURL_without_scope_witness :
  @skipURL no_parser "http://[bad" 0 "http://elsewhere.test/" = false.
Proof.
  rewrite (@skipURL_without_scope no_parser "http://[bad" "http://elsewhere.test/" 0).
  - reflexivity.
  - right. reflexivity.
Defined.

End SkipWitness.

(** ** The rounds of a crawl *)
Section RoundProps.
Import GoInt CrawlRounds.
Variable round : Z -> list string -> list string.

Lemma wrap_small (z : Z) : min_int <= z <= max_int -> wrap z = z.
Proof.
  unfold wrap, min_int, max_int. intros Hz.
  rewrite Z.mod_small by lia. lia.
Qed.

Lemma follows_cons (k : Z) (jobs : list string) (rest : list (list string)) :
  (forall next tl, rest = next :: tl -> next = round k jobs) ->
  follows round (k + 1) rest -> follows round k (jobs :: rest).
Proof.
  intros Hn Hf. destruct rest as [|next tl]; cbn [follows]; [exact I|].
  split; [apply (Hn next tl eq_refl)|exact Hf].
Qed.

(** The loop with a fixed bound [d]: it ends within [d - c] rounds. *)
Lemma crawlLoop_bounded (d : Z) (fuel : nat) :
  forall (c : Z) (jobs : list string),
    d <> 0 -> d <= max_int -> 0 <= c -> d - c <= Z.of_nat fuel ->
    exists rounds,
      crawlLoop round fuel d jobs c d (Z.of_nat (length jobs)) = Some rounds /\
      Z.of_nat (length rounds) <= Z.max 0 (d - c) /\
      Forall (fun r => r <> []) rounds /\
      (forall first tl, rounds = first :: tl -> first = jobs) /\
      follows round c rounds /\
      (Z.of_nat (length rounds) < d - c ->
       match last rounds with
       | Some l => round (c + Z.of_nat (length rounds) - 1) l = []
       | None => jobs = []
       end).
Proof.
  induction fuel as [|fuel IH]; intros c jobs Hd Hmax Hc Hf.
  - cbn [crawlLoop]. destruct (Z.ltb_spec c d); [lia|]. cbn [andb].
    exists []. cbn. repeat split; try lia; try constructor; try discriminate.
  - cbn [crawlLoop]. destruct (Z.ltb_spec c d) as [Hlt|Hge]; cbn [andb].
    2:{ exists []. cbn. repeat split; try lia; try constructor; try discriminate. }
    destruct (Z.ltb_spec 0 (Z.of_nat (length jobs))) as [Hj|Hj].
    2:{ exists []. cbn. destruct jobs; [|cbn in Hj; lia].
        repeat split; try lia; try constructor; try discriminate. }
    destruct (Z.eqb_spec d 0) as [|_]; [contradiction|].
    rewrite wrap_small by (unfold min_int; lia).
    set (newLinks := round c jobs).
    destruct (Z.ltb_spec 0 (Z.of_nat (length newLinks))) as [Hn|Hn].
    + destruct (IH (c + 1) newLinks Hd Hmax) as (rounds & E & L & N & F1 & Fo & Dry);
        [lia|lia|].
      rewrite E. cbn [option_map]. exists (jobs :: rounds).
      split; [reflexivity|]. split; [cbn [length]; lia|].
      split; [constructor; [destruct jobs; [cbn in Hj; lia|discriminate]|exact N]|].
      split; [intros first tl Ec; injection Ec as <- _; reflexivity|].
      split; [apply follows_cons; [|exact Fo]; intros next tl ->; apply (F1 next tl eq_refl)|].
      intros Hshort. cbn [length] in Hshort.
      destruct rounds as [|r1 rs].
      * cbn in Dry. cbn [length] in *.
        assert (Hnl : newLinks = []) by (apply Dry; lia).
        rewrite Hnl in Hn. cbn in Hn. lia.
      * change (last (jobs :: r1 :: rs)) with (last (r1 :: rs)).
        specialize (Dry ltac:(cbn [length] in *; lia)).
        destruct (last (r1 :: rs)) as [l|];
          [|rewrite Dry in Hn; cbn in Hn; lia].
        replace (c + Z.of_nat (length (jobs :: r1 :: rs)) - 1)
          with (c + 1 + Z.of_nat (length (r1 :: rs)) - 1) by (cbn [length]; lia).
        exact Dry.
    + assert (Hnl : newLinks = []) by (destruct newLinks; [reflexivity|cbn in Hn; lia]).
      assert (E : crawlLoop round fuel d jobs (c + 1) d 0 = Some []).
      { destruct fuel; cbn [crawlLoop]; rewrite andb_false_r; reflexivity. }
      rewrite E. cbn [option_map]. exists [jobs].
      split; [reflexivity|]. split; [cbn [length]; lia|].
      split; [repeat constructor; destruct jobs; [cbn in Hj; lia|discriminate]|].
      split; [intros first tl Ec; injection Ec as <- _; reflexivity|].
      split; [exact I|].
      intros _. cbn [last length].
      replace (c + Z.of_nat 1 - 1) with c by lia. exact Hnl.
Qed.

(** X8.  With a maximum depth [MaxDepth > 0] the crawl of a source ends
    after at most [MaxDepth] rounds, whatever the pages hold.  The first
    round works on the links of the seed page and every other round on the
    links the workers of the round before it collected (none of them is kept
    from being crawled again: no list of visited URLs is consulted); no round
    is started without jobs; and when fewer than [MaxDepth] rounds were run,
    the last one found no link. *)
Theorem crawl_bounded_by_max_depth (MaxDepth : Z) (initialLinks : list string) :
  0 < MaxDepth <= max_int ->
  exists rounds,
    crawlRounds round (Z.to_nat MaxDepth) MaxDepth initialLinks = Some rounds /\
    Z.of_nat (length rounds) <= MaxDepth /\
    Forall (fun jobs => jobs <> []) rounds /\
    (forall first tl, rounds = first :: tl -> first = initialLinks) /\
    follows round 0 rounds /\
    (Z.of_nat (length rounds) < MaxDepth -> ended_dry round rounds).
Proof.
  intros [Hpos Hmax]. unfold crawlRounds.
  destruct (Z.eqb_spec MaxDepth 0) as [|_]; [lia|].
  destruct (crawlLoop_bounded MaxDepth (Z.to_nat MaxDepth) 0 initialLinks)
    as (rounds & E & L & N & F1 & Fo & Dry); try lia.
  exists rounds. split; [exact E|]. split; [lia|]. split; [exact N|].
  split; [exact F1|]. split; [exact Fo|].
  intros Hs. unfold ended_dry. specialize (Dry ltac:(lia)).
  destruct (last rounds); [|exact I]. exact Dry.
Qed.

(** The loop when [MaxDepth] is 0: [maxDepth] is moved one ahead of
    [currentDepth] after every round. *)
Lemma crawlLoop_unbounded_runs (fuel : nat) :
  forall (c : Z) (jobs : list string),
    (forall k js, js <> [] -> round k js <> []) ->
    jobs <> [] -> 0 <= c -> c + Z.of_nat fuel < max_int ->
    crawlLoop round fuel 0 jobs c (c + 1) (Z.of_nat (length jobs)) = None.
Proof.
  induction fuel as [|fuel IH]; intros c jobs Hp Hj Hc Hf; cbn [crawlLoop].
  - destruct (Z.ltb_spec c (c + 1)); [|lia].
    destruct (Z.ltb_spec 0 (Z.of_nat (length jobs))); [reflexivity|].
    destruct jobs; [contradiction|cbn in *; lia].
  - destruct (Z.ltb_spec c (c + 1)); [|lia].
    destruct (Z.ltb_spec 0 (Z.of_nat (length jobs))) as [_|Hn];
      [|destruct jobs; [contradiction|cbn in *; lia]].
    cbn [andb]. change (0 =? 0) with true. cbv iota.
    rewrite !wrap_small by (unfold min_int; lia).
    pose proof (Hp c jobs Hj) as Hnew.
    destruct (Z.ltb_spec 0 (Z.of_nat (length (round c jobs)))) as [_|Hn];
      [|destruct (round c jobs); [contradiction|cbn in *; lia]].
    rewrite IH; [reflexivity|exact Hp|exact Hnew|lia|lia].
Qed.

Lemma crawlLoop_unbounded_dry (fuel : nat) :
  forall (c : Z) (jobs : list string) (rounds : list (list string)),
    0 <= c -> c + Z.of_nat fuel < max_int ->
    crawlLoop round fuel 0 jobs c (c + 1) (Z.of_nat (length jobs)) = Some rounds ->
    match last rounds with
    | Some l => round (c + Z.of_nat (length rounds) - 1) l = []
    | None => jobs = []
    end /\ follows round c rounds /\
    (forall first tl, rounds = first :: tl -> first = jobs).
Proof.
  induction fuel as [|fuel IH]; intros c jobs rounds Hc Hf; cbn [crawlLoop].
  - destruct (Z.ltb_spec c (c + 1)); [|lia].
    destruct (Z.ltb_spec 0 (Z.of_nat (length jobs))) as [|Hn]; [discriminate|].
    intros E. injection E as <-. cbn.
    destruct jobs; [repeat split; discriminate|cbn in Hn; lia].
  - destruct (Z.ltb_spec c (c + 1)); [|lia].
    destruct (Z.ltb_spec 0 (Z.of_nat (length jobs))) as [Hj|Hn].
    2:{ intros E. injection E as <-. cbn.
        destruct jobs; [repeat split; discriminate|cbn in Hn; lia]. }
    cbn [andb]. change (0 =? 0) with true. cbv iota.
    rewrite !wrap_small by (unfold min_int; lia).
    set (newLinks := round c jobs).
    destruct (Z.ltb_spec 0 (Z.of_nat (length newLinks))) as [Hn|Hn].
    + destruct (crawlLoop round fuel 0 newLinks (c + 1) (c + 1 + 1)
                  (Z.of_nat (length newLinks))) as [rs|] eqn:E; [|discriminate].
      cbn [option_map]. intros Er. injection Er as <-.
      destruct (IH (c + 1) newLinks rs) as (Dry & Fo & F1); [lia|lia|exact E|].
      split; [|split].
      * destruct rs as [|r1 rs'].
        -- cbn in Dry. rewrite Dry in Hn. cbn in Hn. lia.
        -- change (last (jobs :: r1 :: rs')) with (last (r1 :: rs')).
           destruct (last (r1 :: rs')) as [l|];
             [|rewrite Dry in Hn; cbn in Hn; lia].
           replace (c + Z.of_nat (length (jobs :: r1 :: rs')) - 1)
             with (c + 1 + Z.of_nat (length (r1 :: rs')) - 1) by (cbn [length]; lia).
           exact Dry.
      * apply follows_cons; [|exact Fo]. intros next tl ->. apply (F1 next tl eq_refl).
      * intros first tl Ec. injection Ec as <- _. reflexivity.
    + assert (Hnl : newLinks = []) by (destruct newLinks; [reflexivity|cbn in Hn; lia]).
      assert (E : crawlLoop round fuel 0 jobs (c + 1) (c + 1 + 1) 0 = Some []).
      { destruct fuel; cbn [crawlLoop]; rewrite andb_false_r; reflexivity. }
      rewrite E. cbn [option_map]. intros Er. injection Er as <-.
      split; [|split].
      * cbn [last length]. replace (c + Z.of_nat 1 - 1) with c by lia. exact Hnl.
      * exact I.
      * intros first tl Ec. injection Ec as <- _. reflexivity.
Qed.

(** X9.  With [MaxDepth = 0] the depth is not limited: the crawl goes on
    for as long as the workers of a round find a link.  It does not end
    within any number of rounds (below 2^63 - 1, where the round counter
    would wrap) on a site where every round finds one; and when it ends, the
    workers of its last round found none. *)
Theorem crawl_without_max_depth (fuel : nat) (initialLinks : list string) :
  Z.of_nat fuel < max_int ->
  ((forall k jobs, jobs <> [] -> round k jobs <> []) -> initialLinks <> [] ->
   crawlRounds round fuel 0 initialLinks = None) /\
  (forall rounds,
     crawlRounds round fuel 0 initialLinks = Some rounds ->
     ended_dry round rounds /\ follows round 0 rounds /\
     (forall first tl, rounds = first :: tl -> first = initialLinks)).
Proof.
  intros Hf. unfold crawlRounds. change (0 =? 0) with true. cbv iota. split.
  - intros Hp Hi. apply (crawlLoop_unbounded_runs fuel 0 initialLinks Hp Hi); lia.
  - intros rounds E.
    destruct (crawlLoop_unbounded_dry fuel 0 initialLinks rounds) as (Dry & Fo & F1);
      [lia|lia|exact E|].
    split; [|split; assumption]. unfold ended_dry.
    destruct (last rounds); [|exact I]. exact Dry.
Qed.

End RoundProps.

Section RoundWitness.
Import GoInt CrawlRounds.

Lemma crawl_bounded_by_max_depth_witness :
  exists rounds,
    crawlRounds endless_site 2 2 ["http://a.test/"] = Some rounds /\
    Z.of_nat (length rounds) <= 2 /\
    Forall (fun jobs => jobs <> []) rounds.
Proof.
  destruct (crawl_bounded_by_max_depth endless_site 2 ["http://a.test/"])
    as (rounds & E & L & N & _).
  - unfold max_int. lia.
  - exists rounds. split; [exact E|]. split; [exact L|exact N].
Defined.

Lemma crawl_without_max_depth_witness :
  crawlRounds endless_site 50 0 ["http://a.test/"] = None.
Proof.
  apply (crawl_without_max_depth endless_site 50 ["http://a.test/"]).
  - unfold max_int. cbn. lia.
  - intros k jobs Hj. destruct jobs; [contradiction|discriminate].
  - discriminate.
Defined.

End RoundWitness.

(** ** Screenshots of a whole page *)
Section ShotProps.
Import GoInt Ruleset Engine Crawler Screenshots.
Context {W : Type} `{Session W} `{Camera W}.

Lemma positions_cons (from windowHeight : Z) (n : nat) :
  positions from windowHeight (S n)
  = from :: positions (from + windowHeight) windowHeight n.
Proof.
  unfold positions. cbn [seq map]. f_equal; [lia|].
  rewrite <- seq_shift, map_map. apply map_ext. intros k. lia.
Qed.

Lemma windows_zero (totalHeight windowHeight : Z) :
  0 < windowHeight -> totalHeight <= 0 -> windows totalHeight windowHeight = O.
Proof.
  intros Hw Ht. unfold windows.
  assert ((totalHeight + windowHeight - 1) / windowHeight <= 0); [|lia].
  apply Z.lt_succ_r. apply Z.div_lt_upper_bound; lia.
Qed.

Lemma windows_step (totalHeight windowHeight : Z) :
  0 < windowHeight -> 0 < totalHeight ->
  windows totalHeight windowHeight
  = S (windows (totalHeight - windowHeight) windowHeight).
Proof.
  intros Hw Ht. unfold windows.
  replace (totalHeight + windowHeight - 1)
    with ((totalHeight - windowHeight + windowHeight - 1) + 1 * windowHeight) by lia.
  rewrite Z.div_add by lia.
  assert (0 <= (totalHeight - windowHeight + windowHeight - 1) / windowHeight)
    by (apply Z.div_pos; lia).
  lia.
Qed.

(** The loop, entered at a position [y] from which no addition overflows,
    takes the screenshots of the windows that cover what is left. *)
Lemma captureLoop_positions (fuel : nat) :
  forall (y totalHeight windowHeight : Z) (shots : list (list Byte.byte)) (s : St W),
    0 < windowHeight -> 0 <= y -> totalHeight + windowHeight <= max_int ->
    (windows (totalHeight - y) windowHeight <= fuel)%nat ->
    captureLoop fuel y totalHeight windowHeight shots s
    = (let* r := shoot_at (positions y windowHeight
                             (windows (totalHeight - y) windowHeight)) shots in
       ret (Some r)) s.
Proof.
  induction fuel as [|fuel IH]; intros y tH wH shots s Hw Hy Hmax Hf.
  - assert (E : windows (tH - y) wH = O) by lia.
    rewrite E. cbn [positions seq map shoot_at]. cbn [captureLoop].
    destruct (Z.ltb_spec y tH) as [Hlt|Hge]; [|reflexivity].
    rewrite windows_step in E by lia. discriminate.
  - cbn [captureLoop]. destruct (Z.ltb_spec y tH) as [Hlt|Hge].
    + rewrite windows_step in * by lia. rewrite positions_cons. cbn [shoot_at].
      unfold bind.
      destruct (captureAt y s) as [[shot|e] s1|s1]; [|reflexivity|reflexivity].
      rewrite wrap_small by (unfold min_int; lia).
      rewrite IH by (try lia;
                     replace (tH - (y + wH)) with (tH - y - wH) by lia; lia).
      replace (tH - (y + wH)) with (tH - y - wH) by lia. reflexivity.
    + rewrite windows_zero by lia. reflexivity.
Qed.

Lemma captureAt_obliging (y : Z) (s : St W) :
  obliging ->
  exists shot s', captureAt y s = Ret (Val shot) s' /\ log s' = log s ++ [Slept 1].
Proof.
  intros [Hs Hc]. unfold captureAt, bind, call, emit.
  match goal with
  | |- context [ExecuteScript ?sc (world s)] =>
      pose proof (Hs sc (world s)) as E1;
      destruct (ExecuteScript sc (world s)) as [[v e] w1]
  end.
  cbn [fst snd] in E1. subst e. cbn [snd world log].
  pose proof (Hc w1) as E2. destruct (Screenshot w1) as [[shot e] w2].
  cbn [fst snd] in E2. subst e. cbn [snd fst]. eexists _, _. split; reflexivity.
Qed.

Lemma shoot_at_obliging (ys : list Z) :
  obliging ->
  forall (shots : list (list Byte.byte)) (s : St W),
  exists more s',
    shoot_at ys shots s = Ret (Val (shots ++ more)) s' /\
    length more = length ys /\
    log s' = log s ++ repeat (Slept 1) (length ys).
Proof.
  intros Ho. induction ys as [|y ys IH]; intros shots s; cbn [shoot_at].
  - exists [], s. cbn. rewrite !app_nil_r. repeat split.
  - destruct (captureAt_obliging y s Ho) as (shot & s1 & E & L).
    unfold bind. rewrite E.
    destruct (IH (shots ++ [shot]) s1) as (more & s' & E' & Hl & L').
    exists (shot :: more), s'. rewrite E', <- app_assoc. split; [reflexivity|].
    split; [cbn; lia|]. rewrite L', L, <- app_assoc. reflexivity.
Qed.

(** X10.  [captureScreenshots], for a window of positive height (and
    heights that an [int] addition does not overflow): it scrolls to
    0, [windowHeight], 2 * [windowHeight], ... below [totalHeight], in this
    order, sleeps one second at each position and takes a screenshot there,
    one for each of the ceil([totalHeight] / [windowHeight]) windows; at the
    first failure of the browser it gives up and returns the error.  When
    the browser obliges it returns exactly that many screenshots. *)
Theorem captureScreenshots_positions (totalHeight windowHeight : Z) (s : St W) :
  0 < windowHeight -> totalHeight + windowHeight <= max_int ->
  let n := windows totalHeight windowHeight in
  captureScreenshots n totalHeight windowHeight s
  = (let* r := shoot_at (positions 0 windowHeight n) [] in ret (Some r)) s /\
  (obliging ->
   exists shots s',
     captureScreenshots n totalHeight windowHeight s = Ret (Some (Val shots)) s' /\
     length shots = n /\ log s' = log s ++ repeat (Slept 1) n).
Proof.
  intros Hw Hmax. cbv zeta. unfold captureScreenshots.
  assert (E : captureLoop (windows totalHeight windowHeight) 0 totalHeight
                windowHeight [] s
              = (let* r := shoot_at (positions 0 windowHeight
                                       (windows totalHeight windowHeight)) [] in
                 ret (Some r)) s).
  { rewrite captureLoop_positions by (try lia; rewrite Z.sub_0_r; lia).
    rewrite Z.sub_0_r. reflexivity. }
  split; [exact E|].
  intros Ho. rewrite E.
  destruct (shoot_at_obliging (positions 0 windowHeight
                                 (windows totalHeight windowHeight)) Ho [] s)
    as (more & s' & E' & Hl & L).
  unfold bind. rewrite E'. cbn [app]. exists more, s'.
  unfold positions in Hl, L. rewrite length_map, length_seq in Hl, L.
  split; [reflexivity|]. split; assumption.
Qed.

(** X11.  With a window of height 0 (what [window.innerHeight] is for a
    window without a viewport) and a page of positive height,
    [captureScreenshots] never returns while the browser obliges: whatever
    the number of iterations, it is still in its loop, at scroll position 0,
    and has taken one more screenshot in each. *)
Theorem captureScreenshots_zero_window (fuel : nat) (totalHeight : Z) (s : St W) :
  0 < totalHeight -> obliging ->
  exists s',
    captureScreenshots fuel totalHeight 0 s = Ret None s' /\
    log s' = log s ++ repeat (Slept 1) fuel.
Proof.
  intros Ht Ho. unfold captureScreenshots. generalize (@nil (list Byte.byte)).
  revert s. induction fuel as [|fuel IH]; intros s shots; cbn [captureLoop].
  - destruct (Z.ltb_spec 0 totalHeight); [|lia].
    exists s. cbn. rewrite app_nil_r. split; reflexivity.
  - destruct (Z.ltb_spec 0 totalHeight); [|lia].
    destruct (captureAt_obliging 0 s Ho) as (shot & s1 & E & L).
    unfold bind. rewrite E. change (wrap (0 + 0)) with 0.
    destruct (IH s1 (shots ++ [shot])) as (s' & E' & L').
    exists s'. split; [exact E'|]. rewrite L', L, <- app_assoc. reflexivity.
Qed.

End ShotProps.

Section ShotWitness.
Import GoInt Ruleset Engine Crawler Screenshots.

#[local] Existing Instance counting_session.

Lemma counting_obliging : @obliging nat counting_session counting_camera.
Proof. split; reflexivity. Defined.

Lemma captureScreenshots_positions_witness :
  exists shots s',
    captureScreenshots 3 2000 800 (mkSt 0%nat []) = Ret (Some (Val shots)) s' /\
    length shots = 3%nat /\ world s' = 3%nat.
Proof.
  destruct (@captureScreenshots_positions nat counting_session counting_camera
              2000 800 (mkSt 0%nat [])) as [_ Hc].
  - lia.
  - unfold max_int. lia.
  - destruct (Hc counting_obliging) as (shots & s' & E & Hl & _).
    exists shots, s'. split; [exact E|]. split; [exact Hl|].
    vm_compute in E. injection E as _ <-. reflexivity.
Defined.

Lemma captureScreenshots_zero_window_witness :
  exists s', captureScreenshots 100 2000 0 (mkSt 0%nat []) = Ret None s'.
Proof.
  destruct (@captureScreenshots_zero_window nat counting_session counting_camera
              100 2000 (mkSt 0%nat [])) as (s' & E & _).
  - lia.
  - exact counting_obliging.
  - exists s'. exact E.
Defined.

End ShotWitness.

(** ** Reaching Selenium *)
Section ServerProps.
Import Selenium.
Variable outcome : nat -> option string.

Lemma serviceLoop_spec (fuel : nat) :
  forall (retries : Z) (t : Tries),
    0 <= retries <= 5 -> 6 - retries <= Z.of_nat fuel ->
    exists err n,
      serviceLoop outcome fuel retries t
      = Some (err, mkTries (made t + n) (slept t ++ repeat 5 (n - 1))) /\
      (1 <= n)%nat /\ Z.of_nat n <= 6 - retries /\
      err = outcome (made t + n - 1) /\
      (forall k, (k < n - 1)%nat -> outcome (made t + k) <> None) /\
      (err <> None -> Z.of_nat n = 6 - retries).
Proof.
  induction fuel as [|fuel IH]; intros retries t Hr Hf; [lia|].
  cbn [serviceLoop made slept].
  destruct (outcome (made t)) as [e|] eqn:E.
  - destruct (Z.ltb_spec 5 (retries + 1)) as [Hlast|Hmore].
    + exists (Some e), 1%nat. cbn [repeat Nat.sub]. rewrite app_nil_r, Nat.add_1_r.
      split; [reflexivity|]. split; [lia|]. split; [lia|].
      split; [replace (S (made t) - 1)%nat with (made t) by lia; congruence|]. split; [intros k Hk; lia|]. lia.
    + destruct (IH (retries + 1) (mkTries (S (made t)) (slept t ++ [5])))
        as (err & n & Es & Hn1 & Hn2 & He & Hall & Hlast); [lia|lia|].
      cbn [made slept] in *. exists err, (S n). rewrite Es.
      split.
      { f_equal. f_equal. f_equal; [lia|].
        rewrite <- app_assoc. f_equal.
        destruct n as [|n]; [lia|]. cbn [Nat.sub repeat]. rewrite Nat.sub_0_r.
        reflexivity. }
      split; [lia|]. split; [lia|].
      split; [rewrite He; f_equal; lia|].
      split; [|intros Hne; specialize (Hlast Hne); lia].
      intros k Hk. destruct k as [|k].
      * rewrite Nat.add_0_r. congruence.
      * replace (made t + S k)%nat with (S (made t) + k)%nat by lia.
        apply Hall. lia.
  - exists None, 1%nat. cbn [repeat Nat.sub]. rewrite app_nil_r, Nat.add_1_r.
    split; [reflexivity|]. split; [lia|]. split; [lia|].
    split; [replace (S (made t) - 1)%nat with (made t) by lia; congruence|]. split; [intros k Hk; lia|].
    intros Hne. contradiction.
Qed.

(** X12.  [NewSeleniumService] with [UseService] set calls the constructor
    until it succeeds, six times at most, and sleeps five seconds between two
    calls; it returns when a call succeeds, without an error, or after the
    sixth failure, with the error of that call.  Without [UseService] it
    calls nothing and returns no error (and no service). *)
Theorem NewSeleniumService_tries (UseService : bool) :
  exists err n,
    NewSeleniumService outcome 6 UseService
    = Some (err, mkTries n (repeat 5 (n - 1))) /\
    (n <= 6)%nat /\
    (UseService = false -> n = O /\ err = None) /\
    (UseService = true ->
     (1 <= n)%nat /\ err = outcome (n - 1)%nat /\
     (forall k, (k < n - 1)%nat -> outcome k <> None) /\
     (err <> None -> n = 6%nat)).
Proof.
  unfold NewSeleniumService. destruct UseService.
  - destruct (serviceLoop_spec 6 0 (mkTries 0 [])) as (err & n & E & H1 & H2 & He & Ha & Hl);
      [lia|lia|].
    cbn [made slept app Nat.add] in *. exists err, n. split; [exact E|].
    split; [lia|]. split; [discriminate|]. intros _.
    split; [exact H1|]. split; [exact He|]. split; [exact Ha|].
    intros Hne. specialize (Hl Hne). lia.
  - exists None, O. cbn. split; [reflexivity|]. split; [lia|].
    split; [tauto|discriminate].
Qed.

Lemma connectLoop_fails (fuel : nat) :
  forall t : Tries,
    (forall k, (k < fuel)%nat -> outcome (made t + k) <> None) ->
    connectLoop outcome fuel t = None.
Proof.
  induction fuel as [|fuel IH]; intros t Hall; [reflexivity|].
  cbn [connectLoop made slept].
  pose proof (Hall O ltac:(lia)) as H0. rewrite Nat.add_0_r in H0.
  destruct (outcome (made t)); [|contradiction].
  apply IH. cbn [made]. intros k Hk.
  replace (S (made t) + k)%nat with (made t + S k)%nat by lia. apply Hall. lia.
Qed.

Lemma connectLoop_succeeds (n : nat) :
  forall (fuel : nat) (t : Tries),
    (n < fuel)%nat ->
    outcome (made t + n) = None ->
    (forall k, (k < n)%nat -> outcome (made t + k) <> None) ->
    connectLoop outcome fuel t
    = Some (None, mkTries (made t + S n) (slept t ++ repeat 5 n)).
Proof.
  induction n as [|n IH]; intros fuel t Hf Hn Hall;
    (destruct fuel as [|fuel]; [lia|]); cbn [connectLoop made slept].
  - rewrite Nat.add_0_r in Hn. rewrite Hn. cbn [repeat].
    rewrite app_nil_r, Nat.add_1_r. reflexivity.
  - pose proof (Hall O ltac:(lia)) as H0. rewrite Nat.add_0_r in H0.
    destruct (outcome (made t)); [|contradiction].
    rewrite IH; cbn [made slept].
    + f_equal. f_equal. f_equal; [lia|]. rewrite <- app_assoc. reflexivity.
    + lia.
    + rewrite <- Hn. f_equal. lia.
    + intros k Hk. replace (S (made t) + k)%nat with (made t + S k)%nat by lia.
      apply Hall. lia.
Qed.

(** X13.  [ConnectSelenium] returns only when a call of [selenium.NewRemote]
    has succeeded, and so never returns an error: if call number [n] is the
    first to succeed, it returns after [n + 1] calls and [n] sleeps of five
    seconds; for as long as the calls fail it stays in its loop, whatever the
    number of iterations. *)
Theorem ConnectSelenium_waits (fuel : nat) :
  (forall n,
     (n < fuel)%nat -> outcome n = None ->
     (forall k, (k < n)%nat -> outcome k <> None) ->
     ConnectSelenium outcome fuel = Some (None, mkTries (S n) (repeat 5 n))) /\
  ((forall k, (k < fuel)%nat -> outcome k <> None) ->
   ConnectSelenium outcome fuel = None) /\
  (forall err t, ConnectSelenium outcome fuel = Some (err, t) -> err = None).
Proof.
  unfold ConnectSelenium. split; [|split].
  - intros n Hf Hn Hall.
    rewrite (connectLoop_succeeds n fuel (mkTries 0 [])); [reflexivity|exact Hf|exact Hn|exact Hall].
  - intros Hall. apply connectLoop_fails. exact Hall.
  - generalize (mkTries 0 []). induction fuel as [|f IH]; intros t0 err t;
      cbn [connectLoop]; [discriminate|].
    destruct (outcome (made t0)).
    + apply IH.
    + intros E. injection E as <- _. reflexivity.
Qed.

End ServerProps.

Section ServerWitness.
Import Selenium.

Lemma ConnectSelenium_waits_witness :
  ConnectSelenium there_at_third 10 = Some (None, mkTries 3 [5; 5]) /\
  ConnectSelenium never_there 10 = None.
Proof.
  destruct (ConnectSelenium_waits there_at_third 10) as (Hs & _).
  destruct (ConnectSelenium_waits never_there 10) as (_ & Hn & _).
  split.
  - apply (Hs 2%nat); [lia|reflexivity|].
    intros k Hk. destruct k as [|[|k]]; [discriminate|discriminate|lia].
  - apply Hn. intros k _. discriminate.
Defined.

End ServerWitness.

(** ** The options of a ServiceScout scan *)
Section ScoutProps.
Import GoStr Ruleset ServiceScout.
Context `{ScoutEnv}.

Lemma append_assoc (a b c : string) : ((a ++ b) ++ c = a ++ (b ++ c))%string.
Proof.
  induction a as [|x a IH]; [reflexivity|].
  change (String x ((a ++ b) ++ c) = String x (a ++ (b ++ c)))%string.
  rewrite IH. reflexivity.
Qed.

Lemma append_empty_r (a : string) : (a ++ "")%string = a.
Proof.
  induction a as [|x a IH]; [reflexivity|].
  change (String x (a ++ "") = String x a)%string. rewrite IH. reflexivity.
Qed.

Lemma named_cons (x : string) (r : list string) :
  named (x :: r) = if blank x then named r else TrimSpace x :: named r.
Proof. unfold named. cbn [List.filter]. destruct (blank x); reflexivity. Qed.

Lemma dangling_one (x : string) : dangling [x] = false.
Proof. unfold dangling. cbn. destruct (blank x); reflexivity. Qed.

Lemma dangling_cons (x y : string) (r : list string) :
  dangling (x :: y :: r)
  = match last (y :: r) with Some s => blank s | None => false end
    && (negb (blank x) || existsb (fun s => negb (blank s)) (y :: r)).
Proof. reflexivity. Qed.

Lemma named_nil_existsb (servers : list string) :
  named servers = [] -> existsb (fun s => negb (blank s)) servers = false.
Proof.
  induction servers as [|x r IH]; [reflexivity|].
  rewrite named_cons. cbn [existsb]. destruct (blank x); [|discriminate].
  exact IH.
Qed.

Lemma named_cons_existsb (servers : list string) (a : string) (l : list string) :
  named servers = a :: l -> existsb (fun s => negb (blank s)) servers = true.
Proof.
  induction servers as [|x r IH]; [discriminate|].
  rewrite named_cons. cbn [existsb]. destruct (blank x); [|reflexivity].
  exact IH.
Qed.

Lemma all_blank_last (r : list string) :
  r <> [] -> named r = [] ->
  match last r with Some s => blank s | None => false end = true.
Proof.
  induction r as [|x r IH]; [contradiction|]. intros _.
  rewrite named_cons. destruct (blank x) eqn:B; [|discriminate].
  intros Hn. destruct r as [|y r']; [cbn; exact B|].
  change (last (x :: y :: r')) with (last (y :: r')). apply IH; [discriminate|exact Hn].
Qed.

Lemma Join_cons (sep : ascii) (a : string) (l : list string) :
  Join sep (a :: l)
  = (a ++ match l with [] => "" | _ :: _ => String sep (Join sep l) end)%string.
Proof. destruct l; cbn [Join]; [rewrite append_empty_r|]; reflexivity. Qed.

(** What the servers from some index on add to the list, given whether
    they are the whole list or its end. *)
Lemma dnsListLoop_closed (servers : list string) :
  forall (n i : Z) (acc : string),
    n = i + Z.of_nat (length servers) ->
    dnsListLoop n i servers acc
    = (acc ++ (Join "," (named servers)
               ++ (if dangling servers then "," else "")))%string.
Proof.
  induction servers as [|x r IH]; intros n i acc Hn.
  - cbn. rewrite append_empty_r. reflexivity.
  - cbn [dnsListLoop]. fold (blank x).
    rewrite (IH n (i + 1)) by (cbn [length] in Hn; lia).
    rewrite named_cons.
    destruct r as [|y r'].
    + assert (Hi : (i <? n - 1) = false)
        by (cbn [length] in Hn; destruct (Z.ltb_spec i (n - 1)); [lia|reflexivity]).
      rewrite Hi, dangling_one. cbn [named List.filter map Join dangling last existsb andb].
      destruct (blank x); cbn [negb Join]; rewrite ?append_empty_r; reflexivity.
    + assert (Hi : (i <? n - 1) = true)
        by (cbn [length] in Hn; destruct (Z.ltb_spec i (n - 1)); [reflexivity|lia]).
      rewrite Hi, dangling_cons.
      destruct (blank x) eqn:B; cbn [negb orb].
      * reflexivity.
      * rewrite andb_true_r, Join_cons.
        destruct (named (y :: r')) as [|a l] eqn:En.
        -- rewrite (all_blank_last (y :: r')) by (assumption || discriminate).
           unfold dangling. rewrite (named_nil_existsb _ En), andb_false_r.
           cbn [Join]. rewrite !append_assoc. reflexivity.
        -- unfold dangling. rewrite (named_cons_existsb _ _ _ En), andb_true_r.
           rewrite !append_assoc. reflexivity.
Qed.

(** X14.  The list that [appendDNSOptions] hands to [--dns-servers]: the
    servers that are not blank, trimmed and joined by commas, and one more
    comma at the end when the last entry of the configured list is blank
    (and some entry is not). *)
Theorem dnsServerList_commas (servers : list string) :
  dnsServerList servers
  = (Join "," (map TrimSpace (List.filter (fun s => negb (blank s)) servers))
     ++ (if match last servers with Some s => blank s | None => false end
            && existsb (fun s => negb (blank s)) servers
         then "," else ""))%string.
Proof.
  unfold dnsServerList. rewrite (dnsListLoop_closed servers _ 0 "") by lia.
  reflexivity.
Qed.

(** *** Each step appends to the options it is given *)

Ltac by_cases :=
  repeat match goal with
         | |- context [if ?b then _ else _] => destruct b
         | |- context [match ?x with Some _ => _ | None => _ end] => destruct x
         end;
  cbn [app]; rewrite <- ?app_assoc, ?app_nil_r; try reflexivity.

Lemma appendScanTypes_app (options : list NmapOption) (cfg : ServiceScoutConfig) :
  appendScanTypes options cfg = options ++ appendScanTypes [] cfg.
Proof. unfold appendScanTypes. by_cases. Qed.

Lemma appendDNSOptions_app (options : list NmapOption) (cfg : ServiceScoutConfig)
    (platform : PlatformInfo) :
  appendDNSOptions options cfg platform = options ++ appendDNSOptions [] cfg platform.
Proof. unfold appendDNSOptions. by_cases. Qed.

Lemma appendScripts_app (options : list NmapOption) (cfg : ServiceScoutConfig) :
  appendScripts options cfg
  = (options ++ fst (appendScripts [] cfg), snd (appendScripts [] cfg)).
Proof. unfold appendScripts. by_cases. Qed.

Lemma appendServiceDetection_app (options : list NmapOption)
    (cfg : ServiceScoutConfig) (platform : PlatformInfo) :
  appendServiceDetection options cfg platform
  = options ++ appendServiceDetection [] cfg platform.
Proof. unfold appendServiceDetection. by_cases. Qed.

Lemma appendOSDetection_app (options : list NmapOption) (cfg : ServiceScoutConfig) :
  appendOSDetection options cfg = options ++ appendOSDetection [] cfg.
Proof. unfold appendOSDetection. by_cases. Qed.

Lemma appendTimingOptions_app (options : list NmapOption) (cfg : ServiceScoutConfig) :
  appendTimingOptions options cfg = options ++ appendTimingOptions [] cfg.
Proof. unfold appendTimingOptions. by_cases. Qed.

Lemma appendLowNosingOptions_app (options : list NmapOption)
    (cfg : ServiceScoutConfig) (platform : PlatformInfo) :
  appendLowNosingOptions options cfg platform
  = options ++ appendLowNosingOptions [] cfg platform.
Proof. unfold appendLowNosingOptions. by_cases. Qed.

(** [buildNmapOptions] as the concatenation of what its steps add. *)
Lemma buildNmapOptions_parts (cfg : ServiceScoutConfig) (ip : string)
    (platform : PlatformInfo) :
  let cfg' := snd (appendScripts [] cfg) in
  buildNmapOptions cfg ip platform
  = ((if CheckIPVersion ip =? 6 then [WithIPv6Scanning] else [])
     ++ [WithTargets ip; WithContext]
     ++ appendScanTypes [] cfg
     ++ appendDNSOptions [] cfg platform
     ++ fst (appendScripts [] cfg)
     ++ appendServiceDetection [] cfg' platform
     ++ appendOSDetection [] cfg'
     ++ appendTimingOptions [] cfg'
     ++ appendLowNosingOptions [] cfg' platform
     ++ [WithVerbosity 2; WithDebugging 2]
     ++ (if negb (String.eqb (OSName platform) "darwin")
         then [WithPrivileged] else []),
     cfg').
Proof.
  cbv zeta. unfold buildNmapOptions.
  rewrite appendScanTypes_app, appendDNSOptions_app, appendScripts_app.
  rewrite appendServiceDetection_app, appendOSDetection_app,
    appendTimingOptions_app, appendLowNosingOptions_app.
  f_equal.
  destruct (CheckIPVersion ip =? 6), (negb (String.eqb (OSName platform) "darwin"));
    cbn [app]; rewrite <- ?app_assoc, ?app_nil_r; reflexivity.
Qed.

Lemma existsb_build (P : NmapOption -> bool) (cfg : ServiceScoutConfig)
    (ip : string) (platform : PlatformInfo) :
  let cfg' := snd (appendScripts [] cfg) in
  existsb P (fst (buildNmapOptions cfg ip platform))
  = existsb P (if CheckIPVersion ip =? 6 then [WithIPv6Scanning] else [])
    || existsb P [WithTargets ip; WithContext]
    || existsb P (appendScanTypes [] cfg)
    || existsb P (appendDNSOptions [] cfg platform)
    || existsb P (fst (appendScripts [] cfg))
    || existsb P (appendServiceDetection [] cfg' platform)
    || existsb P (appendOSDetection [] cfg')
    || existsb P (appendTimingOptions [] cfg')
    || existsb P (appendLowNosingOptions [] cfg' platform)
    || existsb P [WithVerbosity 2; WithDebugging 2]
    || existsb P (if negb (String.eqb (OSName platform) "darwin")
                  then [WithPrivileged] else []).
Proof.
  cbv zeta. rewrite buildNmapOptions_parts. cbn [fst].
  rewrite !existsb_app, !orb_assoc. reflexivity.
Qed.

Ltac piece :=
  repeat match goal with
         | |- context [if ?b then _ else _] => destruct b
         | |- context [match ?x with Some _ => _ | None => _ end] => destruct x
         end;
  reflexivity.

(** X15.  [appendScripts] writes to the configuration it is given: when no
    script is configured, the first scan built from a configuration gets no
    script option and leaves ["default"] in the configuration, so that every
    later scan built from the same configuration is run with the scripts
    ["default"]. *)
Theorem scripts_differ_between_scans (cfg : ServiceScoutConfig) (ip1 ip2 : string)
    (platform : PlatformInfo) :
  ScriptScan cfg = [] ->
  let first := buildNmapOptions cfg ip1 platform in
  let second := buildNmapOptions (snd first) ip2 platform in
  existsb is_scripts (fst first) = false /\
  ScriptScan (snd first) = ["default"] /\
  In (WithScripts ["default"]) (fst second) /\
  snd second = snd first.
Proof.
  intros Hs. cbv zeta.
  set (cfg1 := mkServiceScoutConfig (UDPScan cfg) (PingScan cfg) (SynScan cfg)
                  (ConnectScan cfg) (AggressiveScan cfg) (DNSServers cfg)
                  (NoDNSResolution cfg) ["default"] (ServiceDetection cfg)
                  (MaxPortNumber cfg) (ServiceDB cfg) (OSFingerprinting cfg)
                  (HostTimeout cfg) (TimingTemplate cfg) (ScanDelay cfg)
                  (MaxRetries cfg) (IPFragment cfg)).
  assert (E1 : appendScripts [] cfg = ([], cfg1))
    by (unfold appendScripts; rewrite Hs; reflexivity).
  assert (E2 : appendScripts [] cfg1 = ([WithScripts ["default"]], cfg1))
    by reflexivity.
  assert (Ec : snd (buildNmapOptions cfg ip1 platform) = cfg1)
    by (rewrite buildNmapOptions_parts; cbv zeta; rewrite E1; reflexivity).
  split; [|split; [|split]].
  - rewrite existsb_build. cbv zeta. rewrite E1. cbn [fst snd].
    assert (P1 : forall c, existsb is_scripts (appendScanTypes [] c) = false)
      by (intros c; unfold appendScanTypes; piece).
    assert (P2 : forall c, existsb is_scripts (appendDNSOptions [] c platform) = false)
      by (intros c; unfold appendDNSOptions; piece).
    assert (P3 : forall c, existsb is_scripts (appendServiceDetection [] c platform)
                           = false)
      by (intros c; unfold appendServiceDetection; piece).
    assert (P4 : forall c, existsb is_scripts (appendOSDetection [] c) = false)
      by (intros c; unfold appendOSDetection; piece).
    assert (P5 : forall c, existsb is_scripts (appendTimingOptions [] c) = false)
      by (intros c; unfold appendTimingOptions; piece).
    assert (P6 : forall c, existsb is_scripts (appendLowNosingOptions [] c platform)
                           = false)
      by (intros c; unfold appendLowNosingOptions; piece).
    rewrite P1, P2, P3, P4, P5, P6.
    destruct (CheckIPVersion ip1 =? 6), (negb (String.eqb (OSName platform) "darwin"));
      reflexivity.
  - rewrite Ec. reflexivity.
  - rewrite Ec, buildNmapOptions_parts. cbv zeta. rewrite E2. cbn [fst snd].
    rewrite !in_app_iff. do 4 right. left. left. reflexivity.
  - rewrite Ec, buildNmapOptions_parts. cbv zeta. rewrite E2. reflexivity.
Qed.


(** X17.  A timing template that is set but is not a number makes
    [appendTimingOptions] return at once: the scan then gets neither a
    timing template nor the configured scan delay. *)
Theorem bad_timing_template_drops_scan_delay (cfg : ServiceScoutConfig)
    (ip : string) (platform : PlatformInfo) :
  TimingTemplate cfg <> "" -> ParseInt16 (TimingTemplate cfg) = None ->
  existsb (fun o => is_scan_delay o
                    || match o with WithTimingTemplate _ => true | _ => false end)
    (fst (buildNmapOptions cfg ip platform)) = false.
Proof.
  intros Hne Hp. rewrite existsb_build. cbv zeta.
  set (P := fun o => is_scan_delay o
                     || match o with WithTimingTemplate _ => true | _ => false end).
  assert (Ht : forall c, TimingTemplate (snd (appendScripts [] c)) = TimingTemplate c)
    by (intros c; unfold appendScripts; destruct (_ =? 0); reflexivity).
  assert (P0 : existsb P (appendTimingOptions [] (snd (appendScripts [] cfg))) = false).
  { unfold appendTimingOptions. rewrite Ht, Hp.
    destruct (String.eqb_spec (TimingTemplate cfg) ""); [contradiction|].
    cbn [negb]. destruct (negb _); reflexivity. }
  assert (P1 : forall c, existsb P (appendScanTypes [] c) = false)
    by (intros c; unfold appendScanTypes; piece).
  assert (P2 : forall c, existsb P (appendDNSOptions [] c platform) = false)
    by (intros c; unfold appendDNSOptions; piece).
  assert (P3 : forall c, existsb P (fst (appendScripts [] c)) = false)
    by (intros c; unfold appendScripts; piece).
  assert (P4 : forall c, existsb P (appendServiceDetection [] c platform) = false)
    by (intros c; unfold appendServiceDetection; piece).
  assert (P5 : forall c, existsb P (appendOSDetection [] c) = false)
    by (intros c; unfold appendOSDetection; piece).
  assert (P7 : forall c, existsb P (appendLowNosingOptions [] c platform) = false)
    by (intros c; unfold appendLowNosingOptions; piece).
  rewrite P0, P1, P2, P3, P4, P5, P7.
  destruct (CheckIPVersion ip =? 6), (negb (String.eqb (OSName platform) "darwin"));
    reflexivity.
Qed.

(** *** Reading a vulnerability script *)

Lemma collect_fold (elems : list (string * string)) :
  forall v : VulnerabilityInfo,
    let v' := fold_left collectElement elems v in
    VulnID v' = VulnID v /\ VulnOutput v' = VulnOutput v /\
    VulnElements v' = VulnElements v ++ elems /\
    Severity v' = last_value "severity" (Severity v) elems /\
    VulnName v' = last_value "title" (VulnName v) elems /\
    Reference v' = last_value "reference" (Reference v) elems /\
    Description v' = last_value "description" (Description v) elems /\
    VulnState v' = last_value "state" (VulnState v) elems.
Proof.
  induction elems as [|[key value] elems IH]; intros v; cbv zeta.
  - cbn. rewrite app_nil_r. repeat split.
  - cbn [fold_left]. specialize (IH (collectElement v (key, value))).
    cbv zeta in IH. destruct IH as (I1 & I2 & I3 & I4 & I5 & I6 & I7 & I8).
    rewrite I1, I2, I3, I4, I5, I6, I7, I8. unfold last_value. cbn [fold_left fst snd].
    unfold collectElement.
    destruct (String.eqb_spec key "severity") as [->|N1]; cbn.
    { rewrite <- app_assoc. repeat split. }
    destruct (String.eqb_spec key "title") as [->|N2]; cbn.
    { rewrite <- app_assoc. repeat split. }
    destruct (String.eqb_spec key "reference") as [->|N3]; cbn.
    { rewrite <- app_assoc. repeat split. }
    destruct (String.eqb_spec key "description") as [->|N4]; cbn.
    { rewrite <- app_assoc. repeat split. }
    destruct (String.eqb_spec key "state") as [->|N5]; cbn.
    { rewrite <- app_assoc. repeat split. }
    rewrite <- app_assoc. repeat split.
Qed.

(** X18.  [collectVulnerabilityData] keeps every element of the script, in
    order; the severity, the name, the reference, the description and the
    state are each the value of the last element with the key "severity",
    "title", "reference", "description" or "state", and when the script has
    no such element the severity is "unknown", the name is the id of the
    script and the others are empty. *)
Theorem collectVulnerabilityData_fields (script : Script) :
  let v := collectVulnerabilityData script in
  let elems := ScriptElements script in
  VulnID v = ScriptID script /\
  VulnOutput v = ScriptOutput script /\
  VulnElements v = elems /\
  Severity v = last_value "severity" "unknown" elems /\
  VulnName v = last_value "title" (ScriptID script) elems /\
  Reference v = last_value "reference" "" elems /\
  Description v = last_value "description" "" elems /\
  VulnState v = last_value "state" "" elems.
Proof.
  cbv zeta. unfold collectVulnerabilityData.
  exact (collect_fold (ScriptElements script) _).
Qed.

End ScoutProps.

Section ScoutWitness.
Import GoStr Ruleset ServiceScout.

Lemma scripts_differ_between_scans_witness :
  existsb is_scripts
    (fst (buildNmapOptions full_scan "10.0.0.1" (mkPlatformInfo "linux"))) = false /\
  In (WithScripts ["default"])
    (fst (buildNmapOptions
            (snd (buildNmapOptions full_scan "10.0.0.1" (mkPlatformInfo "linux")))
            "10.0.0.2" (mkPlatformInfo "linux"))).
Proof.
  destruct (@scripts_differ_between_scans plain_env full_scan "10.0.0.1" "10.0.0.2"
              (mkPlatformInfo "linux") eq_refl) as (H1 & _ & H3 & _).
  split; [exact H1|exact H3].
Defined.


Lemma bad_timing_template_drops_scan_delay_witness :
  existsb (fun o => is_scan_delay o
                    || match o with WithTimingTemplate _ => true | _ => false end)
    (fst (buildNmapOptions full_scan "10.0.0.1" (mkPlatformInfo "linux"))) = false.
Proof.
  apply (@bad_timing_template_drops_scan_delay plain_env full_scan "10.0.0.1"
           (mkPlatformInfo "linux")).
  - discriminate.
  - reflexivity.
Defined.

End ScoutWitness.

(** ** Scanning the addresses of a source *)
Section ScanProps.
Import GoStr ServiceScout.
Context `{ScoutEnv} `{Nmap}.

Lemma hostsOf_not_empty (cfg : ServiceScoutConfig) (platform : PlatformInfo)
    (ip : string) :
  fst (hostsOf cfg platform ip) <> [] /\
  (fst (fst (scanHost cfg platform ip)) = [] ->
   fst (hostsOf cfg platform ip) = [placeholder ip]) /\
  (fst (fst (scanHost cfg platform ip)) <> [] ->
   fst (hostsOf cfg platform ip) = fst (fst (scanHost cfg platform ip))).
Proof.
  unfold hostsOf. destruct (scanHost cfg platform ip) as [[hosts err] cfg'].
  cbn [fst]. destruct hosts as [|h hosts]; cbn [length fst snd].
  - change (Z.of_nat 0 =? 0) with true. cbv iota. cbn [app fst].
    split; [discriminate|]. split; [reflexivity|contradiction].
  - replace (Z.of_nat (S (length hosts)) =? 0) with false
      by (symmetry; apply Z.eqb_neq; lia).
    cbn [fst]. split; [discriminate|]. split; [discriminate|reflexivity].
Qed.

Lemma scanHosts_acc (order : list string) :
  forall (cfg : ServiceScoutConfig) (platform : PlatformInfo) (acc : list HostInfo),
    let result := scanHosts cfg platform order acc in
    (exists more, result = acc ++ more /\ (length order <= length more)%nat) /\
    (forall ip, In ip order ->
       exists cfg', incl (fst (hostsOf cfg' platform ip)) result).
Proof.
  induction order as [|ip rest IH]; intros cfg platform acc; cbv zeta.
  - cbn [scanHosts]. split; [exists []; rewrite app_nil_r; split; [reflexivity|cbn; lia]|].
    intros ip [].
  - cbn [scanHosts].
    pose proof (hostsOf_not_empty cfg platform ip) as (Hne & _).
    destruct (hostsOf cfg platform ip) as [hosts cfg1] eqn:Eh. cbn [fst] in Hne.
    destruct (IH cfg1 platform (acc ++ hosts)) as ((more & Em & Hl) & Hin).
    cbv zeta in Em, Hin. split.
    + exists (hosts ++ more). rewrite Em, <- app_assoc. split; [reflexivity|].
      rewrite length_app. destruct hosts; [contradiction|]. cbn [length]. lia.
    + intros ip' [<-|Hr].
      * exists cfg. rewrite Eh. cbn [fst]. rewrite Em.
        intros h Hh. apply in_or_app. left. apply in_or_app. right. exact Hh.
      * apply Hin, Hr.
Qed.

(** X19.  [scanHosts] reports every address it was given, in whatever order
    the scans of the addresses run: the result has at least one entry for
    each address; an address whose scan failed, could not be started (a blank
    address is not scanned at all) or found no host is reported by the
    made-up entry that holds the address, its kind (ipv4 or ipv6) and the
    vendor "unknown", and any other address by the hosts that its scan
    found. *)
Theorem scanHosts_reports_every_address (cfg : ServiceScoutConfig)
    (platform : PlatformInfo) (ips order : list string) :
  Permutation ips order ->
  let result := scanHosts cfg platform order [] in
  (length ips <= length result)%nat /\
  (forall ip, In ip ips ->
     exists cfg',
       let found := fst (fst (scanHost cfg' platform ip)) in
       (found = [] /\ In (placeholder ip) result) \/
       (found <> [] /\ incl found result)) /\
  (forall cfg' ip,
     String.eqb (TrimSpace ip) "" = true ->
     fst (fst (scanHost cfg' platform ip)) = []).
Proof.
  intros Hp. cbv zeta.
  destruct (scanHosts_acc order cfg platform []) as ((more & Em & Hl) & Hin).
  cbv zeta in Em, Hin. split; [|split].
  - rewrite Em. cbn [app]. rewrite (Permutation_length Hp). exact Hl.
  - intros ip Hip. destruct (Hin ip) as (cfg' & Hincl).
    { eapply Permutation_in; eassumption. }
    exists cfg'. destruct (hostsOf_not_empty cfg' platform ip) as (_ & He & Hn).
    destruct (fst (fst (scanHost cfg' platform ip))) as [|h hs] eqn:Ef.
    + left. split; [reflexivity|]. apply Hincl. rewrite (He eq_refl). left. reflexivity.
    + right. split; [discriminate|]. rewrite Hn in Hincl by discriminate. exact Hincl.
  - intros cfg' ip Hb. unfold scanHost. rewrite Hb. reflexivity.
Qed.

End ScanProps.

Section ScanWitness.
Import GoStr ServiceScout.

Lemma scanHosts_reports_every_address_witness :
  @scanHosts plain_env no_nmap full_scan (mkPlatformInfo "linux")
    ["10.0.0.2"; "::1"] []
  = [@placeholder plain_env "10.0.0.2"; @placeholder plain_env "::1"] /\
  (2 <= length (@scanHosts plain_env no_nmap full_scan (mkPlatformInfo "linux")
                  ["10.0.0.2"; "::1"] []))%nat.
Proof.
  split; [vm_compute; reflexivity|].
  apply (@scanHosts_reports_every_address plain_env no_nmap full_scan
           (mkPlatformInfo "linux") ["::1"; "10.0.0.2"] ["10.0.0.2"; "::1"]).
  apply perm_swap.
Defined.

End ScanWitness.

(** ** Execution plans of action rules *)
Section PlanProps.
Import GoStr Ruleset Engine Crawler ActionRules Plans.
Context {W : Type} `{Session W} `{RuleBook W}.

Lemma executeWaitLoop_uncounted (wcs : list WaitCondition) :
  adds uncounted (executeWaitLoop wcs).
Proof.
  induction wcs as [|wc wcs IH]; cbn [executeWaitLoop]; [apply adds_ret|].
  apply adds_bind.
  - unfold executeWaitCondition. repeat adds_step.
  - intros [e|]; [apply adds_ret|exact IH].
Qed.

Lemma findElementByType_uncounted (t sel : string) :
  adds uncounted (findElementByType t sel).
Proof. unfold findElementByType. repeat adds_step. Qed.

Lemma findElementLoop_uncounted (selectors : list Selector) :
  forall wdf selector err,
    adds uncounted (findElementLoop selectors wdf selector err).
Proof.
  induction selectors as [|sel rest IH]; intros wdf selector err;
    cbn [findElementLoop]; [apply adds_ret|].
  apply adds_bind; [apply findElementByType_uncounted|].
  intros [wdf1 [e|]].
  - apply IH.
  - destruct wdf1 as [element|]; [|apply IH].
    apply adds_bind.
    + destruct (negb _); [|apply adds_ret].
      apply adds_bind; [apply adds_call|]. intros attr.
      destruct (EqualFold _ _); apply adds_ret.
    + intros matchL2. cbn [andb]. apply adds_bind.
      * destruct matchL2; apply adds_ret.
      * intros matchL3. destruct matchL3; [apply adds_ret|apply IH].
Qed.

Lemma executeActionRule_uncounted (r : ActionRule) :
  adds uncounted (executeActionRule r).
Proof.
  assert (Hd : adds uncounted (dispatchAction r)).
  { unfold dispatchAction.
    destruct (String.eqb _ "click").
    - apply adds_bind; [apply adds_emit; discriminate|]. intros _.
      unfold executeActionClick, findElementBySelectorType.
      apply adds_bind; [apply findElementLoop_uncounted|].
      intros [[wdf sel] err]. destruct wdf; [apply adds_call|apply adds_ret].
    - destruct (existsb _ otherActions); [|apply adds_ret].
      apply adds_bind; [apply adds_emit; discriminate|]. intros _. apply adds_call. }
  unfold executeActionRule.
  apply adds_bind; [apply adds_emit; discriminate|]. intros _.
  apply adds_bind; [apply executeWaitLoop_uncounted|].
  intros [e|]; [apply adds_ret|].
  destruct (_ =? 0); [exact Hd|].
  apply adds_bind.
  - eapply adds_weaken; [|apply checkActionConditions_silent]. intros e [].
  - intros ok. destruct ok; [exact Hd|apply adds_ret].
Qed.

Lemma retryLoop_uncounted (left : nat) (r : ActionRule) :
  adds uncounted (retryLoop left r).
Proof.
  induction left as [|left IH]; cbn [retryLoop]; [apply adds_ret|].
  apply adds_bind.
  - destruct (0 <? _); [apply adds_emit; discriminate|apply adds_ret].
  - intros _. apply adds_bind; [apply executeActionRule_uncounted|].
    intros [e|]; [exact IH|apply adds_ret].
Qed.

Lemma executeRule_uncounted (r : ActionRule) : adds uncounted (executeRule r).
Proof.
  unfold executeRule. apply adds_bind; [apply executeActionRule_uncounted|].
  intros err. unfold handleRuleError. destruct err; [|apply adds_ret].
  destruct (negb _); [|apply adds_ret].
  destruct (0 <? _); [apply retryLoop_uncounted|apply adds_ret].
Qed.

Lemma returns_ret {A : Type} (a : A) : returns (W := W) (ret a).
Proof. intros s. exists a, s. reflexivity. Qed.

Lemma returns_emit (e : event) : returns (W := W) (emit e).
Proof. intros s. eexists _, _. reflexivity. Qed.

Lemma returns_call {A : Type} (f : W -> A * W) : returns (call f).
Proof. intros s. unfold call. destruct (f (world s)). eexists _, _. reflexivity. Qed.

Lemma returns_ask {A : Type} (f : W -> A) : returns (ask f).
Proof. intros s. eexists _, _. reflexivity. Qed.

Lemma returns_bind {A B : Type} (c : M W A) (k : A -> M W B) :
  returns c -> (forall a, returns (k a)) -> returns (let* x := c in k x).
Proof.
  intros Hc Hk s. unfold bind. destruct (Hc s) as (a & s1 & ->). apply Hk.
Qed.

Lemma executeWaitLoop_returns (wcs : list WaitCondition) :
  returns (executeWaitLoop wcs).
Proof.
  induction wcs as [|wc wcs IH]; cbn [executeWaitLoop]; [apply returns_ret|].
  apply returns_bind.
  - unfold executeWaitCondition.
    repeat (destruct (String.eqb _ _); [try apply returns_ret|]);
      [|apply returns_ret].
    apply returns_bind; [apply returns_ask|].
    intros [code|]; [|apply returns_ret].
    apply returns_bind; [apply returns_call|]. intros rv. apply returns_ret.
  - intros [e|]; [apply returns_ret|exact IH].
Qed.

Lemma findElementByType_returns (t sel : string) :
  returns (findElementByType t sel).
Proof.
  unfold findElementByType.
  repeat (destruct (existsb _ _); [apply returns_call|]). apply returns_ret.
Qed.

Lemma findElementLoop_returns (selectors : list Selector) :
  forall wdf selector err, returns (findElementLoop selectors wdf selector err).
Proof.
  induction selectors as [|sel rest IH]; intros wdf selector err;
    cbn [findElementLoop]; [apply returns_ret|].
  apply returns_bind; [apply findElementByType_returns|].
  intros [wdf1 [e|]]; [apply IH|].
  destruct wdf1 as [element|]; [|apply IH].
  apply returns_bind.
  - destruct (negb _); [|apply returns_ret].
    apply returns_bind; [apply returns_call|]. intros attr.
    destruct (EqualFold _ _); apply returns_ret.
  - intros matchL2. cbn [andb]. apply returns_bind.
    + destruct matchL2; apply returns_ret.
    + intros matchL3. destruct matchL3; [apply returns_ret|apply IH].
Qed.

Lemma dispatchAction_returns (r : ActionRule) : returns (dispatchAction r).
Proof.
  unfold dispatchAction. destruct (String.eqb _ "click").
  - apply returns_bind; [apply returns_emit|]. intros _.
    unfold executeActionClick, findElementBySelectorType.
    apply returns_bind; [apply findElementLoop_returns|].
    intros [[wdf sel] err]. destruct wdf; [apply returns_call|apply returns_ret].
  - destruct (existsb _ otherActions); [|apply returns_ret].
    apply returns_bind; [apply returns_emit|]. intros _. apply returns_call.
Qed.

(** A rule without conditions makes no type assertion, and so never
    panics. *)
Lemma executeRule_returns (r : ActionRule) :
  size (Conditions r) = O -> returns (executeRule r).
Proof.
  intros Hc.
  assert (Ha : returns (executeActionRule r)).
  { unfold executeActionRule. rewrite Hc. change (Z.of_nat 0 =? 0) with true.
    cbv iota. apply returns_bind; [apply returns_emit|]. intros _.
    apply returns_bind; [apply executeWaitLoop_returns|].
    intros [e|]; [apply returns_ret|apply dispatchAction_returns]. }
  unfold executeRule. apply returns_bind; [exact Ha|].
  intros err. unfold handleRuleError. destruct err; [|apply returns_ret].
  destruct (negb _); [|apply returns_ret].
  destruct (0 <? _); [|apply returns_ret].
  generalize (Z.to_nat (RetryCount (ErrHandling r))). intros n.
  induction n as [|n IH]; cbn [retryLoop]; [apply returns_ret|].
  apply returns_bind.
  - destruct (0 <? _); [apply returns_emit|apply returns_ret].
  - intros _. apply returns_bind; [exact Ha|].
    intros [e|]; [exact IH|apply returns_ret].
Qed.

Lemma TotalActions_app (l l' : list event) :
  TotalActions (l ++ l') = (TotalActions l + TotalActions l')%nat.
Proof. unfold TotalActions. rewrite List.filter_app, List.length_app. reflexivity. Qed.

Lemma TotalActions_uncounted (l : list event) :
  Forall uncounted l -> TotalActions l = O.
Proof.
  unfold TotalActions. induction 1 as [|e l He _ IH]; [reflexivity|].
  cbn [List.filter]. destruct e; try exact IH. exfalso. apply He. reflexivity.
Qed.

Lemma executeRule_total (r : ActionRule) (s s1 : St W) :
  executeRule r s = Ret tt s1 -> TotalActions (log s1) = TotalActions (log s).
Proof.
  intros E. destruct (executeRule_uncounted r s) as (l & El & Fl).
  rewrite E in El. cbn [final] in El.
  rewrite El, TotalActions_app, (TotalActions_uncounted l Fl). lia.
Qed.

Lemma executeActionRules_total (rules : list ActionRule) :
  (forall r, In r rules -> returns (executeRule r)) ->
  forall s, exists s1,
    executeActionRules rules s = Ret tt s1 /\
    TotalActions (log s1) = (TotalActions (log s) + length rules)%nat.
Proof.
  induction rules as [|r rules IH]; intros Hok s; cbn [executeActionRules].
  - exists s. split; [reflexivity|cbn; lia].
  - destruct (Hok r (or_introl eq_refl) s) as ([] & s1 & E1).
    unfold bind at 1. rewrite E1. unfold bind at 1. cbn [emit].
    destruct (IH (fun r0 Hr => Hok r0 (or_intror Hr))
                (mkSt (world s1) (log s1 ++ [Counted]))) as (s2 & E2 & T2).
    exists s2. split; [exact E2|].
    rewrite T2. cbn [log length]. rewrite TotalActions_app, (executeRule_total _ _ _ E1).
    cbn. lia.
Qed.

Lemma addTotalActions_total (n : nat) (s : St W) :
  exists s1,
    addTotalActions n s = Ret tt s1 /\ world s1 = world s /\
    TotalActions (log s1) = (TotalActions (log s) + n)%nat.
Proof.
  revert s. induction n as [|n IH]; intros s; cbn [addTotalActions].
  - exists s. repeat split. lia.
  - unfold bind. cbn [emit].
    destruct (IH (mkSt (world s) (log s ++ [Counted]))) as (s1 & E & Ew & T).
    exists s1. split; [exact E|]. split; [exact Ew|].
    rewrite T. cbn [log]. rewrite TotalActions_app. cbn. lia.
Qed.

(** X20.  The rules of a planned rule group are counted twice.  Running
    the rules of a collection through [executeActionRules], as
    [executePlannedRulesets] does for a ruleset, adds one to
    [TotalActions] for each rule; [executePlannedRuleGroups] runs the rules
    of the group the same way and then adds their number once more. *)
Theorem planned_rule_group_counts_twice (name : string) (rules : list ActionRule)
    (s : St W) :
  String.eqb (TrimSpace name) "" = false ->
  GetRuleGroupByName name (world s) = Some rules ->
  (forall r, In r rules -> returns (executeRule r)) ->
  exists s1 s2,
    executeActionRules rules s = Ret tt s1 /\
    TotalActions (log s1) = (TotalActions (log s) + length rules)%nat /\
    executePlannedRuleGroups [name] s = Ret tt s2 /\
    world s2 = world s1 /\
    TotalActions (log s2) = (TotalActions (log s) + 2 * length rules)%nat /\
    (forall setname,
       String.eqb setname "" = false ->
       GetRulesetByName setname (world s) = Some rules ->
       executePlannedRulesets [setname] s = Ret tt s1).
Proof.
  intros Hn Hg Hok.
  destruct (executeActionRules_total rules Hok s) as (s1 & E1 & T1).
  destruct (addTotalActions_total (length rules) s1) as (s2 & E2 & Ew & T2).
  exists s1, s2. split; [exact E1|]. split; [exact T1|].
  split; [|split; [exact Ew|split; [lia|]]].
  - cbn [executePlannedRuleGroups]. rewrite Hn. unfold bind, ask. rewrite Hg, E1, E2.
    reflexivity.
  - intros setname Hs Hr. cbn [executePlannedRulesets]. rewrite Hs.
    unfold bind, ask. rewrite Hr, E1. reflexivity.
Qed.

Lemma prefix_refl (s : string) : String.prefix s s = true.
Proof.
  induction s as [|c s IH]; [reflexivity|]. cbn [String.prefix].
  destruct (ascii_dec c c); [exact IH|contradiction].
Qed.

Lemma Contains_refl (s : string) : Contains s s = true.
Proof. destruct s; cbn [Contains]; rewrite prefix_refl; reflexivity. Qed.

(** X21.  The URL pre-condition of the default plan never holds anything
    back: [runDefaultActionRules] reads the current URL and then always
    executes the rule group "CookieAcceptanceRulesExtended", and nothing
    else, also when the URL could not be read. *)
Theorem default_plan_always_runs (s : St W) :
  runDefaultActionRules s
  = (let* _ := call CurrentURL in
     executePlannedRuleGroups ["CookieAcceptanceRulesExtended"]) s.
Proof.
  unfold runDefaultActionRules. unfold bind at 1 2.
  destruct (call CurrentURL s) as [cur s1|s1]; [|reflexivity].
  generalize (match snd cur with Some _ => "" | None => fst cur end). intros url.
  unfold DefaultActionConfig.
  cbn [length runPlan UrlPatterns AdditionalConditions Rulesets RuleGroups Rules].
  assert (Ep : checkActionPreConditions [url] url = true).
  { unfold checkActionPreConditions. cbn [length fold_left].
    rewrite Contains_refl. reflexivity. }
  assert (Ec : checkActionConditions ∅ s1 = Ret true s1).
  { unfold checkActionConditions. rewrite map_size_empty. reflexivity. }
  rewrite Ep.
  change (Z.of_nat 1 =? 0) with false. change (0 <? Z.of_nat 0) with false.
  change (0 <? Z.of_nat 1) with true. cbv iota. cbn [negb].
  unfold bind. rewrite Ec. cbn [ret negb].
  destruct (executePlannedRuleGroups ["CookieAcceptanceRulesExtended"] s1)
    as [[] s2|s2]; reflexivity.
Qed.

(** *** Finding the element of a rule *)

Lemma findElementLoop_value (v : string) (selectors : list Selector) :
  forall (wdf : option string) (sel0 sel0' : Selector) (err : option string)
         (s : St W),
    (let* r := findElementLoop (map (with_value v) selectors) wdf sel0' err in
     ret (fst (fst r), snd r)) s
    = (let* r := findElementLoop selectors wdf sel0 err in
       ret (fst (fst r), snd r)) s.
Proof.
  induction selectors as [|sel rest IH]; intros wdf sel0 sel0' err s;
    cbn [findElementLoop map]; [reflexivity|].
  cbn [with_value SelectorType SelectorText AttributeName AttributeValue andb].
  unfold bind in *.
  destruct (findElementByType (SelectorType sel) (SelectorText sel) s)
    as [[wdf1 err1] s1|s1]; [|reflexivity].
  destruct err1 as [e|]; [apply IH|].
  destruct wdf1 as [element|]; [|apply IH].
  destruct (negb (String.eqb (TrimSpace (AttributeName sel)) "")).
  - destruct (call (GetAttribute element (TrimSpace (AttributeName sel))) s1)
      as [attr s2|s2]; [|reflexivity].
    destruct (EqualFold _ _); cbn [ret]; [reflexivity|apply IH].
  - cbn [ret]. reflexivity.
Qed.

(** X22.  The [Value] of a selector plays no part in finding the element
    of a rule: the branch of [findElementBySelectorType] that would compare
    it is guarded by a flag that is false, and the function returns the same
    element and the same error, in the same state, whatever the values of
    the selectors say; so does the click that follows. *)
Theorem selector_value_is_ignored (v : string) (r : ActionRule) (s : St W) :
  (let* f := findElementBySelectorType (map (with_value v) (Selectors r)) in
   ret (fst (fst f), snd f)) s
  = (let* f := findElementBySelectorType (Selectors r) in
     ret (fst (fst f), snd f)) s /\
  executeActionClick
    (mkActionRule (RuleName r) (ActionType r) (map (with_value v) (Selectors r))
       (Value r) (WaitConditions r) (Conditions r) (ErrHandling r)) s
  = executeActionClick r s.
Proof.
  assert (E : (let* f := findElementBySelectorType (map (with_value v) (Selectors r)) in
               ret (fst (fst f), snd f)) s
              = (let* f := findElementBySelectorType (Selectors r) in
                 ret (fst (fst f), snd f)) s)
    by apply findElementLoop_value.
  split; [exact E|].
  unfold executeActionClick. cbn [Selectors]. unfold bind in *.
  destruct (findElementBySelectorType (map (with_value v) (Selectors r)) s)
    as [[[wdf1 sel1] err1] s1|s1],
    (findElementBySelectorType (Selectors r) s) as [[[wdf2 sel2] err2] s2|s2];
    cbn [ret fst snd] in E; try discriminate.
  - injection E as -> -> ->. reflexivity.
  - injection E as ->. reflexivity.
Qed.

(** *** Wait conditions of an action rule *)

Lemma executeWaitLoop_idle (wcs : list WaitCondition) (s : St W) :
  forallb idle_wait wcs = true -> executeWaitLoop wcs s = Ret None s.
Proof.
  induction wcs as [|wc wcs IH]; cbn [forallb executeWaitLoop]; [reflexivity|].
  intros Hw. apply andb_prop in Hw. destruct Hw as [Hi Hr].
  unfold bind, executeWaitCondition. unfold idle_wait in Hi.
  destruct (String.eqb (ToLower (TrimSpace (ConditionType wc))) "element");
    [exact (IH Hr)|].
  cbn [orb] in Hi. rewrite Hi. exact (IH Hr).
Qed.

(** X23.  Wait conditions of the types "element" and "delay" make an action
    rule wait for nothing: [executeWaitCondition] returns at once for them,
    without a look at the page and without a pause, so that a click rule
    with such wait conditions only runs as it would without them. *)
Theorem idle_waits_do_nothing (r : ActionRule) (s : St W) :
  forallb idle_wait (WaitConditions r) = true ->
  executeWaitLoop (WaitConditions r) s = Ret None s /\
  (String.eqb (ToLower (TrimSpace (ActionType r))) "click" = true ->
   executeActionRule r s = executeActionRule (without_waits r) s /\
   executeRule r s = executeRule (without_waits r) s).
Proof.
  intros Hw. split; [apply executeWaitLoop_idle, Hw|]. intros Hc.
  assert (E : forall s0, executeActionRule r s0 = executeActionRule (without_waits r) s0).
  { intros s0. unfold executeActionRule, dispatchAction, executeActionClick.
    cbn [without_waits RuleName WaitConditions Conditions ActionType Selectors
           executeWaitLoop].
    rewrite Hc. unfold bind at 1 6. cbn [emit]. unfold bind at 1 5.
    rewrite executeWaitLoop_idle by exact Hw. reflexivity. }
  split; [apply E|].
  unfold executeRule, bind. rewrite E.
  destruct (executeActionRule (without_waits r) s) as [err s1|s1]; [|reflexivity].
  unfold handleRuleError. cbn [without_waits ErrHandling].
  destruct err; [|reflexivity]. destruct (negb _); [|reflexivity].
  destruct (0 <? _); [|reflexivity].
  generalize (Z.to_nat (RetryCount (ErrHandling r))). intros n. revert s1.
  induction n as [|n IH]; intros s1; cbn [retryLoop]; [reflexivity|].
  cbn [without_waits ErrHandling]. unfold bind.
  destruct (0 <? RetryDelay (ErrHandling r)); cbn [emit ret]; rewrite E;
    match goal with
    | |- context [executeActionRule (without_waits r) ?s2] =>
        destruct (executeActionRule (without_waits r) s2) as [[e|] s3|s3]
    end; try reflexivity; apply IH.
Qed.

End PlanProps.

Section PlanWitness.
Import GoStr Ruleset Engine Crawler ActionRules Plans.

Lemma planned_rule_group_counts_twice_witness :
  exists s1 s2,
    executePlannedRulesets ["cookies"] (start page_without_banner) = Ret tt s1 /\
    TotalActions (log s1) = 2%nat /\
    executePlannedRuleGroups ["CookieAcceptanceRulesExtended"]
      (start page_without_banner) = Ret tt s2 /\
    TotalActions (log s2) = 4%nat.
Proof.
  destruct (@planned_rule_group_counts_twice Browser browser_session cookie_book
              "CookieAcceptanceRulesExtended" two_clicks (start page_without_banner))
    as (s1 & s2 & _ & T1 & E2 & _ & T2 & Hset).
  - reflexivity.
  - reflexivity.
  - intros r [<-|[<-|[]]]; apply executeRule_returns; reflexivity.
  - exists s1, s2. split; [apply (Hset "cookies"); reflexivity|].
    split; [exact T1|]. split; [exact E2|exact T2].
Defined.

Lemma idle_waits_do_nothing_witness :
  let r := mkActionRule "wait-then-click" "click" [mkSelector "css" "#banner" "" "" ""]
             "" [mkWaitCondition "delay" "5"; mkWaitCondition " Element " "#banner"]
             ∅ (mkErrorHandling false 0 0) in
  executeRule r (start page_without_banner)
  = executeRule (without_waits r) (start page_without_banner).
Proof.
  cbv zeta.
  apply (@idle_waits_do_nothing Browser browser_session
           (mkActionRule "wait-then-click" "click" [mkSelector "css" "#banner" "" "" ""]
              "" [mkWaitCondition "delay" "5"; mkWaitCondition " Element " "#banner"]
              ∅ (mkErrorHandling false 0 0))
           (start page_without_banner)); reflexivity.
Defined.

End PlanWitness.

(** ** The documents of scraped data *)
Section DocumentProps.
Import GoStr Documents.

Lemma jvalue_induction (P : jvalue -> Prop) :
  (forall m, map_Forall (fun _ x => P x) m -> P (JMap m)) ->
  (forall v, Forall P (elems v) -> P (JArr v)) ->
  (forall v, is_map v = false -> (forall a, v <> JArr a) -> P v) ->
  forall v, P v.
Proof.
  intros Hmap Harr Hother v.
  remember (jsize v) as n eqn:Hn. revert v Hn.
  induction (lt_wf n) as [n _ IH]; intros v ->.
  destruct v as [m|[l|]|s|f|b| |r];
    try (apply Hother; [reflexivity|discriminate]).
  - apply Hmap. cbn [jsize] in IH. revert m IH.
    apply (map_fold_weak_ind
             (fun r m => (forall n', (n' < S r)%nat -> _) -> map_Forall (fun _ x => P x) m)).
    + intros _. apply map_Forall_empty.
    + intros k x m r Hk IHm IHx. apply map_Forall_insert; [exact Hk|]. split.
      * eapply IHx; [|reflexivity]. lia.
      * apply IHm. intros n' Hn' v' E. eapply IHx; [|exact E]. lia.
  - apply Harr. cbn [elems jsize] in *. induction l as [|x l IHl]; constructor.
    + eapply IH; [|reflexivity]. cbn [fold_right]. lia.
    + apply IHl. intros n' Hn' v' E. eapply IH; [|exact E]. cbn [fold_right]. lia.
  - apply Harr. constructor.
Qed.

Lemma cleanValue_slice (l : list jvalue) :
  cleanValue (JArr (Some l)) = Some (JArr (slice_of (omap cleanItem l))).
Proof.
  cbn [cleanValue]. do 2 f_equal.
  enough (G : forall acc : slice jvalue,
             fold_left
               (fun (validArray : slice jvalue) item =>
                  match item with
                  | JMap item => append_to validArray (JMap (omap cleanValue item))
                  | JStr _ | JNum _ | JBool _ | JNil => append_to validArray item
                  | _ => validArray
                  end) l acc
             = match omap cleanItem l with
               | [] => acc
               | l' => Some (elems acc ++ l')
               end).
  { rewrite G. unfold slice_of. destruct (omap cleanItem l); reflexivity. }
  induction l as [|item l IH]; intros acc; [reflexivity|].
  cbn [fold_left]. rewrite IH.
  destruct item as [m|v|s|f|b| |r]; cbn [omap list_omap cleanItem];
    try reflexivity;
    unfold cleanJSONDocument;
    destruct (omap cleanItem l); cbn [append_to elems];
      rewrite <- ?app_assoc; reflexivity.
Qed.

Lemma cleanValue_None (v : jvalue) :
  cleanValue v = None <-> exists r, v = JOther r.
Proof.
  split.
  - destruct v as [m|a|s|f|b| |r]; cbn [cleanValue]; try discriminate.
    intros _. exists r. reflexivity.
  - intros [r ->]. reflexivity.
Qed.

Lemma cleanItem_shape (item x : jvalue) :
  cleanItem item = Some x -> is_map x || primitive x = true.
Proof.
  destruct item; cbn [cleanItem]; intros E; try discriminate;
    injection E as <-; reflexivity.
Qed.

Lemma cleanItem_cleanValue (item x : jvalue) :
  cleanItem item = Some x -> cleanValue item = Some x.
Proof.
  destruct item; cbn [cleanItem cleanValue]; intros E; try discriminate; exact E.
Qed.

Lemma cleanValue_cleaned (v : jvalue) :
  forall x, cleanValue v = Some x -> cleaned x.
Proof.
  induction v as [m IH|a IH|v Hm Ha] using jvalue_induction; intros x E.
  - cbn [cleanValue] in E. injection E as <-. apply cleaned_map.
    intros k y Hy. apply lookup_omap_Some in Hy. destruct Hy as (z & Ez & Hz).
    exact (IH k z Hz y Ez).
  - destruct a as [l|]; [|cbn in E; injection E as <-; apply cleaned_nil_slice].
    rewrite cleanValue_slice in E. injection E as <-. cbn [elems] in IH.
    assert (F : Forall (fun item => cleaned item /\ (is_map item || primitive item = true))
                  (omap cleanItem l)).
    { induction IH as [|item l Hi _ IHl]; [constructor|].
      cbn [omap list_omap]. destruct (cleanItem item) as [y|] eqn:Ey; [|exact IHl].
      constructor; [|exact IHl]. split.
      - apply Hi, cleanItem_cleanValue, Ey.
      - eapply cleanItem_shape, Ey. }
    unfold slice_of. destruct (omap cleanItem l) as [|y l'] eqn:El;
      [apply cleaned_nil_slice|]. apply cleaned_slice; [discriminate|exact F].
  - destruct v; try discriminate; try (exfalso; eapply Ha; reflexivity);
      cbn [cleanValue] in E; injection E as <-; apply cleaned_primitive; reflexivity.
Qed.

Lemma cleanValue_again (v : jvalue) :
  forall x, cleanValue v = Some x -> cleanValue x = Some x.
Proof.
  induction v as [m IH|a IH|v Hm Ha] using jvalue_induction; intros x E.
  - cbn [cleanValue] in E. injection E as <-. cbn [cleanValue]. do 2 f_equal.
    apply map_eq. intros k. rewrite !lookup_omap.
    destruct (m !! k) as [y|] eqn:Ey; [|reflexivity]. cbn.
    destruct (cleanValue y) as [z|] eqn:Ez; [|reflexivity]. cbn.
    exact (IH k y Ey z Ez).
  - destruct a as [l|]; [|cbn in E; injection E as <-; reflexivity].
    rewrite cleanValue_slice in E. injection E as <-. cbn [elems] in IH.
    assert (F : omap cleanItem (omap cleanItem l) = omap cleanItem l).
    { induction IH as [|item l Hi _ IHl]; [reflexivity|].
      cbn [omap list_omap]. destruct (cleanItem item) as [y|] eqn:Ey; [|exact IHl].
      cbn [omap list_omap].
      assert (Ey' : cleanItem y = Some y).
      { pose proof (Hi y (cleanItem_cleanValue _ _ Ey)) as Hy.
        pose proof (cleanItem_shape _ _ Ey) as Hs.
        destruct y; cbn in Hs; try discriminate; try reflexivity.
        cbn [cleanValue] in Hy. cbn [cleanItem]. exact Hy. }
      rewrite Ey'. f_equal. exact IHl. }
    unfold slice_of. destruct (omap cleanItem l) as [|y l'] eqn:El; [reflexivity|].
    rewrite cleanValue_slice, F. reflexivity.
  - destruct v; try discriminate; try (exfalso; eapply Ha; reflexivity);
      cbn [cleanValue] in E; injection E as <-; reflexivity.
Qed.

(** X24.  [cleanJSONDocument] leaves a document of maps, primitive values
    and slices of maps and primitive values only: a key whose value is of
    another type is dropped, and so is an item of a slice that is of another
    type or is itself a slice; a slice left without items is the nil slice.
    Cleaning a cleaned document changes nothing. *)
Theorem cleanJSONDocument_cleans (doc : gmap string jvalue) :
  map_Forall (fun _ x => cleaned x) (cleanJSONDocument doc) /\
  cleanJSONDocument (cleanJSONDocument doc) = cleanJSONDocument doc /\
  (forall key,
     cleanJSONDocument doc !! key = None <->
     doc !! key = None \/ exists r, doc !! key = Some (JOther r)) /\
  (forall key l,
     doc !! key = Some (JArr (Some l)) ->
     cleanJSONDocument doc !! key = Some (JArr (slice_of (omap cleanItem l)))).
Proof.
  unfold cleanJSONDocument. repeat split.
  - intros k y Hy. apply lookup_omap_Some in Hy. destruct Hy as (z & Ez & _).
    exact (cleanValue_cleaned z y Ez).
  - apply map_eq. intros k. rewrite !lookup_omap.
    destruct (doc !! k) as [y|]; [|reflexivity]. cbn.
    destruct (cleanValue y) as [z|] eqn:Ez; [|reflexivity]. cbn.
    exact (cleanValue_again y z Ez).
  - rewrite lookup_omap. destruct (doc !! key) as [y|]; [|left; reflexivity].
    cbn. intros E. right. apply cleanValue_None in E. destruct E as [r ->].
    exists r. reflexivity.
  - rewrite lookup_omap. intros [->|[r ->]]; reflexivity.
  - intros key l E. rewrite lookup_omap, E. cbn [mbind option_bind].
    apply cleanValue_slice.
Qed.

(** *** HTML strings and extracted data *)

Section WithCodec.
Context `{Codec}.

Lemma parseHTML_document (s : string) (doc : Node) :
  Parse s = Crawler.Val doc -> NType doc = DocumentNode ->
  parseHTML s = Some (Crawler.Val no_items).
Proof.
  intros E T. unfold parseHTML. rewrite E. destruct doc as [t d a cs].
  cbn [NType] in T. subst t. reflexivity.
Qed.

Lemma ProcessHTMLToJSON_rooted (s : string) :
  document_rooted ->
  ProcessHTMLToJSON s = Some (match Parse s with
                              | Crawler.Val _ => MarshalIndent no_items
                              | Crawler.Err e => Crawler.Err e
                              end).
Proof.
  intros R. unfold ProcessHTMLToJSON.
  destruct (Parse s) as [doc|e] eqn:E.
  - rewrite (parseHTML_document s doc E (R s doc E)). reflexivity.
  - unfold parseHTML. rewrite E. reflexivity.
Qed.

Lemma processString_total (v : string) :
  document_rooted -> is_Some (processString v).
Proof.
  intros R. unfold processString.
  assert (Hh : is_Some (if StrIsHTML v
                        then match ProcessHTMLToJSON v with
                             | None => None
                             | Some (Crawler.Val jsonData) => Some (JStr jsonData)
                             | Some (Crawler.Err _) => Some (JStr v)
                             end
                        else Some (JStr v))).
  { destruct (StrIsHTML v); [|eexists; reflexivity].
    rewrite (ProcessHTMLToJSON_rooted v R).
    destruct (Parse v); [destruct (MarshalIndent no_items)|]; eexists; reflexivity. }
  destruct (Valid v); [destruct (Unmarshal v)|]; try exact Hh. eexists; reflexivity.
Qed.

Lemma unless_panic_Some (m : gmap string (option jvalue)) :
  map_Forall (fun _ o => is_Some o) m -> unless_panic m = Some (omap id m).
Proof. intros F. unfold unless_panic. destruct (decide _); [reflexivity|contradiction]. Qed.

Lemma processExtractedData_Some (d : gmap string jvalue) :
  (forall key x, d !! key = Some x -> refused key = false -> is_Some (processValue x)) ->
  exists out,
    processExtractedData d = Some out /\
    forall key,
      out !! key = (match d !! key with
                    | Some x => if refused key then None else processValue x
                    | None => None
                    end).
Proof.
  intros Hd. eexists. split.
  - unfold processExtractedData. apply unless_panic_Some.
    intros k o Ho. rewrite map_lookup_imap in Ho.
    destruct (d !! k) as [x|] eqn:Ex; [|discriminate]. cbn in Ho.
    destruct (refused k) eqn:Er; [discriminate|]. injection Ho as <-.
    exact (Hd k x Ex Er).
  - intros key. rewrite lookup_omap, map_lookup_imap.
    destruct (d !! key) as [x|]; [|reflexivity]. cbn.
    destruct (refused key); [reflexivity|]. cbn. reflexivity.
Qed.

Lemma processValue_slice (l : list jvalue) :
  Forall (fun item => forall m, item = JMap m -> is_Some (processExtractedData m)) l ->
  exists xs,
    processValue (JArr (Some l)) = Some (JArr (slice_of xs)) /\
    Forall2 processed (List.filter is_map l) xs.
Proof.
  intros F. cbn [processValue].
  match goal with
  | |- context [fold_left ?f l (Some None)] => set (step := f)
  end.
  enough (G : forall acc : slice jvalue, exists xs,
             fold_left step l (Some acc)
             = Some (match xs with [] => acc | _ => Some (elems acc ++ xs) end) /\
             Forall2 processed (List.filter is_map l) xs).
  { destruct (G None) as (xs & E & F2). exists xs. split; [|exact F2].
    refine (eq_trans
              (f_equal (fun o : option (slice jvalue) =>
                          match o with Some p => Some (JArr p) | None => None end) E) _).
    destruct xs; reflexivity. }
  induction F as [|item l Hi _ IH]; intros acc.
  - exists []. split; [reflexivity|constructor].
  - cbn [fold_left List.filter].
    destruct item as [m|v|s|f|b| |r]; cbn [is_map]; try exact (IH acc).
    destruct (Hi m eq_refl) as [m' Em].
    change (step (Some acc) (JMap m))
      with (match processExtractedData m with
            | Some p => Some (append_to acc (JMap p))
            | None => None
            end).
    rewrite Em. destruct (IH (append_to acc (JMap m'))) as (xs & E & F2).
    exists (JMap m' :: xs). split.
    + rewrite E. cbn [append_to elems]. destruct xs; [reflexivity|].
      rewrite <- app_assoc. reflexivity.
    + constructor; [|exact F2]. exists m, m'. repeat split. exact Em.
Qed.

Lemma processValue_total (data : jvalue) :
  document_rooted ->
  is_Some (processValue data) /\
  forall m, data = JMap m -> is_Some (processExtractedData m).
Proof.
  intros R. induction data as [m IH|a IH|v Hm Ha] using jvalue_induction.
  - split; [eexists; reflexivity|]. intros m0 E. injection E as <-.
    destruct (processExtractedData_Some m) as (out & E & _).
    + intros key x Ex _. exact (proj1 (IH key x Ex)).
    + exists out. exact E.
  - split; [|discriminate]. destruct a as [l|]; [|eexists; reflexivity].
    destruct (processValue_slice l) as (xs & E & _); [|eexists; exact E].
    cbn [elems] in IH. eapply List.Forall_impl; [|exact IH].
    intros item [_ Hi]. exact Hi.
  - split.
    + destruct v; try discriminate; try (exfalso; eapply Ha; reflexivity);
        try (eexists; reflexivity). apply processString_total, R.
    + intros m ->. discriminate.
Qed.

(** X25.  [processExtractedData] keeps the keys of the extracted data other
    than "", "false" and "true".  Of a slice it keeps the maps only, each
    processed in the same way, so that a slice of strings or numbers becomes
    the nil slice; a map is stored as it is, unprocessed.  With a parser
    that returns document nodes it never panics. *)
Theorem processExtractedData_keeps (d : gmap string jvalue) :
  document_rooted ->
  exists out,
    processExtractedData d = Some out /\
    (forall key, is_Some (out !! key) <-> is_Some (d !! key) /\ refused key = false) /\
    (forall key v,
       refused key = false -> d !! key = Some (JArr v) ->
       exists xs,
         out !! key = Some (JArr (slice_of xs)) /\
         Forall2 processed (maps_of v) xs) /\
    (forall key m,
       refused key = false -> d !! key = Some (JMap m) ->
       out !! key = Some (JMap m)).
Proof.
  intros R. destruct (processExtractedData_Some d) as (out & E & L).
  { intros key x _ _. exact (proj1 (processValue_total x R)). }
  exists out. split; [exact E|]. split; [|split].
  - intros key. rewrite L. split.
    + intros Ho. destruct (d !! key); [|destruct Ho; discriminate].
      split; [eexists; reflexivity|].
      destruct (refused key); [destruct Ho; discriminate|reflexivity].
    + intros [[x Ex] Er]. rewrite Ex, Er. exact (proj1 (processValue_total x R)).
  - intros key v Er Ev. rewrite L, Ev, Er. destruct v as [l|].
    + destruct (processValue_slice l) as (xs & Es & F2).
      * apply List.Forall_forall. intros item _ m ->.
        exact (proj2 (processValue_total (JMap m) R) m eq_refl).
      * exists xs. split; [exact Es|exact F2].
    + exists []. split; [reflexivity|constructor].
  - intros key m Er Em. rewrite L, Em, Er. reflexivity.
Qed.

(** X26.  Nothing of an HTML string reaches the processed data.  The root
    that [html.Parse] returns is a document node, and [parseNode] neither
    makes an item of a node that is not an element nor looks at its
    children: [parseHTML] returns the nil list of items, and
    [processExtractedData] stores its marshalling in the place of the
    string (or the string itself if marshalling fails). *)
Theorem html_string_loses_content (d : gmap string jvalue) (key s : string) :
  document_rooted ->
  refused key = false ->
  d !! key = Some (JStr s) ->
  Valid s = false ->
  StrIsHTML s = true ->
  parseHTML s = Some (Crawler.Val no_items) /\
  ProcessHTMLToJSON s = Some (MarshalIndent no_items) /\
  exists out,
    processExtractedData d = Some out /\
    out !! key = Some (JStr (html_replacement s)).
Proof.
  intros R Er Ed Ev Eh.
  assert (Ep : exists doc, Parse s = Crawler.Val doc).
  { unfold StrIsHTML in Eh. destruct (negb _ && negb _); [discriminate|].
    destruct (Parse s) as [doc|e]; [exists doc; reflexivity|discriminate]. }
  destruct Ep as [doc Ep].
  split; [exact (parseHTML_document s doc Ep (R s doc Ep))|].
  assert (Ej : ProcessHTMLToJSON s = Some (MarshalIndent no_items)).
  { rewrite (ProcessHTMLToJSON_rooted s R), Ep. reflexivity. }
  split; [exact Ej|].
  destruct (processExtractedData_Some d) as (out & E & L).
  { intros k x _ _. exact (proj1 (processValue_total x R)). }
  exists out. split; [exact E|]. rewrite L, Ed, Er. cbn [processValue].
  unfold processString, html_replacement. rewrite Ev, Eh, Ej.
  destruct (MarshalIndent no_items); reflexivity.
Qed.

End WithCodec.

(** *** The items of [parseNode] *)

Lemma Node_induction (P : Node -> Prop) :
  (forall t d a cs, Forall P cs -> P (mkNode t d a cs)) -> forall n, P n.
Proof.
  intros Hn.
  refine (fix IH (n : Node) : P n :=
            match n with
            | mkNode t d a cs =>
                Hn t d a cs
                  ((fix F (l : list Node) : Forall P l :=
                      match l with
                      | [] => @List.Forall_nil Node P
                      | c :: r => @List.Forall_cons Node P c r (IH c) (F r)
                      end) cs)
            end).
Qed.

Lemma addChild_items (c newItem : nat) (st st' : Items) :
  addChild c newItem st = Some st' ->
  items st' = items st /\ length (heap st') = length (heap st).
Proof.
  unfold addChild. intros E.
  destruct (_ !! "children") as [[s|kids]|]; try discriminate.
  injection E as <-. cbn [update items heap]. rewrite length_insert. split; reflexivity.
Qed.

Lemma children_below (newItem : nat) (cs : list Node) :
  Forall (fun n => forall c st st',
            parseNode n (Some c) st = Some st' ->
            items st' = items st /\ (length (heap st) <= length (heap st'))%nat) cs ->
  forall (o : option Items) (st' : Items),
    fold_left
      (fun (st : option Items) c =>
         match st with
         | Some st => parseNode c (Some newItem) st
         | None => None
         end) cs o = Some st' ->
    exists st1,
      o = Some st1 /\ items st' = items st1 /\
      (length (heap st1) <= length (heap st'))%nat.
Proof.
  induction 1 as [|c cs Hc _ IH]; intros o st' Ef; cbn [fold_left] in Ef.
  - exists st'. repeat split; [exact Ef|lia].
  - destruct (IH _ _ Ef) as (st1 & E1 & I1 & L1).
    destruct o as [st2|]; [|discriminate].
    destruct (Hc _ _ _ E1) as [I2 L2].
    exists st2. split; [reflexivity|]. rewrite I1, I2. split; [reflexivity|lia].
Qed.

Lemma parseNode_below (n : Node) :
  forall c st st',
    parseNode n (Some c) st = Some st' ->
    items st' = items st /\ (length (heap st) <= length (heap st'))%nat.
Proof.
  induction n as [t d a cs IH] using Node_induction. intros c st st' E.
  cbn [parseNode] in E. destruct (isElement t).
  - destruct (children_below _ cs IH _ _ E) as (st1 & E1 & I1 & L1).
    rewrite I1. clear E.
    destruct (0 <? Z.of_nat (size (createNewItem (mkNode t d a cs)))).
    + apply addChild_items in E1. destruct E1 as [E1 E2]. rewrite E1.
      rewrite E2 in L1. cbn [items heap] in *. rewrite length_app in L1. cbn in L1.
      split; [reflexivity|lia].
    + injection E1 as <-. cbn [items heap] in *. rewrite length_app in L1. cbn in L1.
      split; [reflexivity|lia].
  - destruct (isText t && negb _).
    + destruct (Z.of_nat (size (item_at st c)) =? 0); injection E as <-;
        cbn [update items heap]; rewrite ?length_insert; split; reflexivity || lia.
    + injection E as <-. split; [reflexivity|lia].
Qed.

(** X27.  [parseNode] adds to the list of items at most the item of the
    node it is called on, and only for an element that has an attribute or
    starts with a text: the items of all the nodes below are stored as
    children of another item, never in the list; below an element without
    attributes and without a leading text they are attached to an item that
    is not stored at all. *)
Theorem parseNode_items (n : Node) (st st' : Items) :
  parseNode n None st = Some st' ->
  items st'
  = (if isElement (NType n) && (0 <? Z.of_nat (size (createNewItem n)))
     then append_to (items st) (length (heap st))
     else items st).
Proof.
  destruct n as [t d a cs]. intros E. cbn [parseNode NType] in *.
  destruct (isElement t); cbn [andb].
  - assert (Hcs : Forall (fun n => forall c st st',
                            parseNode n (Some c) st = Some st' ->
                            items st' = items st /\
                            (length (heap st) <= length (heap st'))%nat) cs).
    { apply List.Forall_forall. intros n _. apply parseNode_below. }
    destruct (children_below _ cs Hcs _ _ E) as (st1 & E1 & I1 & _).
    rewrite I1.
    destruct (0 <? Z.of_nat (size (createNewItem (mkNode t d a cs))));
      injection E1 as <-; reflexivity.
  - destruct (isText t && negb _); injection E as <-; reflexivity.
Qed.

End DocumentProps.

Section DocumentWitness.
Import GoStr Documents.

Lemma page_codec_rooted : document_rooted.
Proof. intros s doc E. injection E as <-. reflexivity. Qed.

Lemma processExtractedData_keeps_witness :
  exists out,
    processExtractedData
      {[ "tags" := JArr (Some [JStr "go"; JStr "crawler"]); "true" := JBool true ]}
    = Some out /\
    out !! "tags" = Some (JArr None) /\ out !! "true" = None.
Proof.
  destruct (processExtractedData_keeps
              {[ "tags" := JArr (Some [JStr "go"; JStr "crawler"]);
                 "true" := JBool true ]} page_codec_rooted)
    as (out & E & K & A & _).
  exists out. split; [exact E|]. split.
  - destruct (A "tags" (Some [JStr "go"; JStr "crawler"]) eq_refl eq_refl)
      as (xs & Ex & F2).
    inversion F2. subst xs. exact Ex.
  - destruct (out !! "true") as [x|] eqn:Ex; [|reflexivity].
    destruct (proj1 (K "true") (ex_intro _ x Ex)) as [_ Hr]. discriminate.
Defined.

Lemma html_string_loses_content_witness :
  exists out,
    processExtractedData {[ "body" := JStr "<p class=intro> hello <a href=/next></a></p>" ]}
    = Some out /\
    out !! "body" = Some (JStr "null").
Proof.
  destruct (html_string_loses_content
              {[ "body" := JStr "<p class=intro> hello <a href=/next></a></p>" ]}
              "body" "<p class=intro> hello <a href=/next></a></p>")
    as (_ & _ & out & E & L).
  - exact page_codec_rooted.
  - reflexivity.
  - vm_compute. reflexivity.
  - reflexivity.
  - vm_compute. reflexivity.
  - exists out. split; [exact E|exact L].
Defined.

Lemma parseNode_items_witness :
  exists st',
    parseNode a_paragraph None no_items = Some st' /\ items st' = Some [0%nat].
Proof.
  exists (mkItems
            [ {[ "class" := IStr "intro"; "text" := IStr "hello";
                 "children" := IKids [1%nat] ]};
              {[ "href" := IStr "/next" ]} ]
            (Some [0%nat])).
  assert (E : parseNode a_paragraph None no_items
              = Some (mkItems
                        [ {[ "class" := IStr "intro"; "text" := IStr "hello";
                             "children" := IKids [1%nat] ]};
                          {[ "href" := IStr "/next" ]} ]
                        (Some [0%nat]))) by (vm_compute; reflexivity).
  split; [exact E|]. exact (parseNode_items _ _ _ E).
Defined.

End DocumentWitness.

(** ** The scraping rules of a page *)
Section ScrapePlanProps.
Import GoStr Ruleset Engine Crawler ScrapingRules Plans ScrapingPlans.
Context {W : Type} `{Session W} `{RuleBook W} `{ScrapeBook W}.

(** X28.  The default configuration scrapes nothing of its own.  Its
    execution plan names one rule, the empty name, which
    [executeRulesInExecutionPlan] skips: [runDefaultScrapingRules] reads the
    current URL and returns the empty string, and [processScrapingRules]
    returns what the rules found by URL give, as it does without a
    configuration. *)
Theorem default_config_scrapes_nothing (raw url : string) (s : St W) :
  String.eqb (TrimSpace raw) default_config = true ->
  runDefaultScrapingRules s = (let* _ := call CurrentURL in ret "") s /\
  processScrapingRules (Some raw) url s
  = (let* _ := call CurrentURL in processScrapingRules None url) s.
Proof.
  intros Hraw.
  assert (E : runDefaultScrapingRules s = (let* _ := call CurrentURL in ret "") s).
  { unfold runDefaultScrapingRules, bind.
    destruct (call CurrentURL s) as [cur s1|s1]; [|reflexivity].
    generalize (match snd cur with Some _ => "" | None => fst cur end). intros u.
    unfold DefaultCrawlingConfig. cbn [scrapePlan UrlPatterns].
    assert (Ep : checkScrapingPreConditions [u] u = true).
    { unfold checkScrapingPreConditions. cbn [length fold_left].
      rewrite Contains_refl. reflexivity. }
    rewrite Ep. reflexivity. }
  split; [exact E|].
  unfold processScrapingRules. rewrite Hraw. unfold bind at 1 2. rewrite E.
  unfold bind. destruct (call CurrentURL s) as [cur s1|s1]; reflexivity.
Qed.

Lemma planLoop_acc (names : list string) :
  forall (doc : string) (s : St W),
    planLoop names doc s
    = (let* d := planLoop names "" in ret (doc ++ d)%string) s.
Proof.
  induction names as [|ruleName rest IH]; intros doc s; cbn [planLoop].
  - unfold bind, ret. rewrite append_empty_r. reflexivity.
  - destruct (String.eqb ruleName ""); [apply IH|].
    unfold bind, ask.
    destruct (GetScrapingRuleByName ruleName (world s)) as [rule|e]; [|apply IH].
    destruct (executeScrapingRule rule s) as [[data [e|]] s1|s1]; cbn [fst snd];
      [apply IH| |reflexivity].
    rewrite (IH (doc ++ data)%string), (IH ("" ++ data)%string). unfold bind.
    destruct (planLoop rest "" s1) as [d s2|s2]; [|reflexivity].
    unfold ret. cbn [String.append]. rewrite append_assoc. reflexivity.
Qed.

(** X29.  The document of an execution plan is the plain concatenation of
    the fragments of its rules: [executeRulesInExecutionPlan] appends the
    fragment of every rule that ran without an error to what it has, with
    no comma between two of them.  The document of one rule is its fragment,
    or empty if the rule failed; the document of a list of rules is that of
    its first part followed by that of the rest. *)
Theorem plan_fragments_are_concatenated (first rest : list string) (s : St W) :
  planLoop (first ++ rest) "" s
  = (let* d1 := planLoop first "" in
     let* d2 := planLoop rest "" in
     ret (d1 ++ d2)%string) s /\
  (forall name rule,
     String.eqb name "" = false ->
     GetScrapingRuleByName name (world s) = Val rule ->
     planLoop [name] "" s
     = (let* r := executeScrapingRule rule in
        ret (match snd r with Some _ => "" | None => fst r end)) s).
Proof.
  split.
  - enough (G : forall doc s0,
               planLoop (first ++ rest) doc s0
               = (let* d1 := planLoop first doc in planLoop rest d1) s0).
    { rewrite G. unfold bind at 1 2.
      destruct (planLoop first "" s) as [d1 s1|s1]; [|reflexivity].
      apply planLoop_acc. }
    induction first as [|ruleName first IH]; intros doc s0; cbn [planLoop List.app].
    + reflexivity.
    + destruct (String.eqb ruleName ""); [apply IH|].
      unfold bind, ask.
      destruct (GetScrapingRuleByName ruleName (world s0)) as [rule|e]; [|apply IH].
      destruct (executeScrapingRule rule s0) as [[data [e|]] s1|s1]; cbn [fst snd];
        [apply IH|apply IH|reflexivity].
  - intros name rule Hn Hr. cbn [planLoop]. rewrite Hn. unfold bind, ask. rewrite Hr.
    destruct (executeScrapingRule rule s) as [[data [e|]] s1|s1]; reflexivity.
Qed.

(** X30.  An error of the rule group of a URL keeps the ruleset of the URL
    from running: when the lookup of the rule group fails, or the group
    returns an error, [executeScrapingRulesByURL] returns that error with
    what the group scraped, and neither looks for the ruleset nor runs
    it. *)
Theorem rule_group_error_skips_ruleset (url : string) (s : St W) :
  (forall e,
     ScrapingRuleGroupByURL url (world s) = Err e ->
     executeScrapingRulesByURL url s = Ret ("", Some e) s) /\
  (forall rules data e s1,
     ScrapingRuleGroupByURL url (world s) = Val (Some rules) ->
     executeScrapingRulesInRuleGroup rules s = Ret (data, Some e) s1 ->
     executeScrapingRulesByURL url s
     = Ret (if worth_adding (TrimSpace data) then TrimSpace data else "", Some e) s1).
Proof.
  split.
  - intros e E. unfold executeScrapingRulesByURL, bind, ask. rewrite E. reflexivity.
  - intros rules data e s1 E R. unfold executeScrapingRulesByURL.
    unfold bind at 1. unfold ask at 1. rewrite E. unfold bind at 1 2. rewrite R.
    cbn [ret fst snd]. reflexivity.
Qed.

End ScrapePlanProps.

Section ScrapePlanWitness.
Import GoStr Ruleset Engine Crawler ScrapingRules Plans ScrapingPlans.

Lemma default_config_scrapes_nothing_witness :
  processScrapingRules (Some (" " ++ default_config ++ " ")%string) "http://a.test/"
    (start page_without_banner)
  = processScrapingRules None "http://a.test/" (start page_without_banner).
Proof.
  destruct (@default_config_scrapes_nothing Browser browser_session cookie_book
              shop_book (" " ++ default_config ++ " ")%string "http://a.test/"
              (start page_without_banner)) as [_ E].
  - vm_compute. reflexivity.
  - rewrite E. reflexivity.
Defined.

Lemma plan_fragments_are_concatenated_witness :
  exists s1,
    planLoop ["price"; "stock"] "" (start page_without_banner)
    = Ret "price:1stock:1" s1.
Proof.
  eexists. etransitivity.
  - apply (proj1 (@plan_fragments_are_concatenated Browser browser_session shop_book
                    ["price"] ["stock"] (start page_without_banner))).
  - vm_compute. reflexivity.
Defined.

Lemma rule_group_error_skips_ruleset_witness :
  exists e s1,
    executeScrapingRulesByURL "http://a.test/" (start broken_page)
    = Ret ("price:1,", Some e) s1 /\
    ~ In (Executed "title") (log s1).
Proof.
  destruct (@rule_group_error_skips_ruleset Browser browser_session shop_book
              "http://a.test/" (start broken_page)) as [_ G].
  eexists _, _. split.
  - apply (G [price_rule; stock_rule] "price:1,"); [reflexivity|].
    vm_compute. reflexivity.
  - cbn [log]. intros [E|[E|[E|[E|[E|[E|[]]]]]]]; discriminate.
Defined.

End ScrapePlanWitness.
